(** * Budget tracker: conversion, aggregation, record entry, import/export
      and the API routes

    A shallow embedding of the client page (the [Page] component with
    [krwToUsd], [totals], [breakdown], [onAddIncome], [onAddExpense],
    [exportJSON], [onFilePicked] and the two exchange-rate effects; then
    [onAddCategory], [onDelete], [clearAll], [toast], [loadData], the theme,
    tab and date effects), of [handleSubmit] of the registration page, of
    the [GET], [POST], [PUT] and [DELETE] handlers of the income and
    expenses API routes, and of [getPool] and [query] of the database
    module.

    Conventions of the embedding.
    - A JavaScript number is a [number]: an exact rational, or one of the
      three special values NaN, +Infinity, -Infinity, with the arithmetic and
      comparisons ECMAScript gives the special values.  Arithmetic on finite
      values is exact: binary64 rounding is not part of this type, and the
      two zeros are one.  Where overflow of binary64 decides what the code
      does (the reciprocal in [refreshRate]) the rate path is embedded a
      second time on the kernel's binary64 floats, in [Module Binary64].
    - A value read from a JSON document is a [value]; TypeScript annotations
      are erased at run time, so rows keep whatever the document holds.
    - Built-ins whose result the page only passes along (string-to-number
      conversion, number formatting, [trim], the clock and the random source
      behind [uid]) are fields of an environment record [Builtins].
    - React state is a record, each handler a function from the state (and
      the event's inputs) to the next state. *)

From Stdlib Require Import QArith Qcanon Qround.
From Stdlib Require PrimFloat.
From stdpp Require Import gmap strings list fin_maps numbers pretty sorting.

Local Open Scope Qc_scope.
Set Warnings "-register-all".

(* ===================================================================== *)
(** * Part I: the embedding *)
(* ===================================================================== *)

(** ** JavaScript numbers *)

Inductive number : Type :=
  | NaN
  | NegInfinity
  | Finite (q : Qc)
  | Infinity.

#[global] Instance number_eq_dec : EqDecision number.
Proof. solve_decision. Defined.

Definition of_Z (z : Z) : number := Finite (Qc_of_Z z).

Declare Scope js_scope.
Delimit Scope js_scope with js.
Bind Scope js_scope with number.

(** [Number.isFinite]. *)
Definition isFinite (x : number) : bool :=
  match x with Finite _ => true | _ => false end.

(** ToBoolean on a number: [0] and [NaN] are falsy. *)
Definition truthy_number (x : number) : bool :=
  match x with
  | NaN => false
  | Finite q => negb (bool_decide (q = 0))
  | _ => true
  end.

Definition js_neg (x : number) : number :=
  match x with
  | NaN => NaN
  | NegInfinity => Infinity
  | Finite q => Finite (- q)
  | Infinity => NegInfinity
  end.

Definition js_add (x y : number) : number :=
  match x, y with
  | NaN, _ | _, NaN => NaN
  | Infinity, NegInfinity | NegInfinity, Infinity => NaN
  | Infinity, _ | _, Infinity => Infinity
  | NegInfinity, _ | _, NegInfinity => NegInfinity
  | Finite a, Finite b => Finite (a + b)
  end.

Definition js_sub (x y : number) : number := js_add x (js_neg y).

(** Sign of a finite factor next to an infinite one. *)
Definition scale_infinity (positive : bool) (q : Qc) : number :=
  if bool_decide (q = 0) then NaN
  else if bool_decide (0 < q) then (if positive then Infinity else NegInfinity)
  else (if positive then NegInfinity else Infinity).

Definition js_mul (x y : number) : number :=
  match x, y with
  | NaN, _ | _, NaN => NaN
  | Finite a, Finite b => Finite (a * b)
  | Infinity, Finite q | Finite q, Infinity => scale_infinity true q
  | NegInfinity, Finite q | Finite q, NegInfinity => scale_infinity false q
  | Infinity, Infinity | NegInfinity, NegInfinity => Infinity
  | Infinity, NegInfinity | NegInfinity, Infinity => NegInfinity
  end.

(** Division.  A finite divisor equal to zero is the positive zero. *)
Definition js_div (x y : number) : number :=
  match x, y with
  | NaN, _ | _, NaN => NaN
  | Finite a, Finite b =>
      if bool_decide (b = 0) then scale_infinity true a else Finite (a / b)
  | Finite _, (Infinity | NegInfinity) => Finite 0
  | (Infinity | NegInfinity), (Infinity | NegInfinity) => NaN
  | Infinity, Finite b => if bool_decide (b < 0) then NegInfinity else Infinity
  | NegInfinity, Finite b => if bool_decide (b < 0) then Infinity else NegInfinity
  end.

(** [x < y]; every comparison with NaN is false. *)
Definition js_lt (x y : number) : bool :=
  match x, y with
  | NaN, _ | _, NaN => false
  | _, NegInfinity => false
  | NegInfinity, _ => true
  | Infinity, _ => false
  | Finite _, Infinity => true
  | Finite a, Finite b => bool_decide (a < b)
  end.

(** [x <= y]. *)
Definition js_le (x y : number) : bool :=
  match x, y with
  | NaN, _ | _, NaN => false
  | NegInfinity, _ => true
  | _, Infinity => true
  | Infinity, _ => false
  | Finite _, NegInfinity => false
  | Finite a, Finite b => bool_decide (a ≤ b)
  end.

(** [x > y] is [y < x]. *)
Definition js_gt (x y : number) : bool := js_lt y x.

(** [Math.max] of two arguments. *)
Definition Math_max (x y : number) : number :=
  match x, y with
  | NaN, _ | _, NaN => NaN
  | _, _ => if js_lt x y then y else x
  end.

(** [Math.round]: the nearest integer, halves towards +Infinity. *)
Definition Math_round (x : number) : number :=
  match x with
  | Finite q => of_Z (Qfloor (q + Q2Qc (1 # 2)))
  | _ => x
  end.

Notation "0" := (of_Z 0) : js_scope.
Notation "1" := (of_Z 1) : js_scope.
Notation "100" := (of_Z 100) : js_scope.
Infix "+" := js_add : js_scope.
Infix "-" := js_sub : js_scope.
Infix "*" := js_mul : js_scope.
Infix "/" := js_div : js_scope.
Infix "<?" := js_lt : js_scope.
Infix "<=?" := js_le : js_scope.
Infix ">?" := js_gt : js_scope.

(** [x || d] on numbers. *)
Definition or_number (x d : number) : number :=
  if truthy_number x then x else d.

(** ** Currency conversion *)

(** [krwToUsd]: [Number] is the identity on a number. *)
Definition krwToUsd (krw rate : number) : number :=
  let normalizedRate := rate in
  if negb (isFinite normalizedRate) || (normalizedRate <=? 0)%js then 0%js
  else (krw / normalizedRate)%js.

(** ** JavaScript values *)

(** Values as [JSON.parse] builds them, with [undefined] for what a document
    or a row does not hold.  An object is the list of its own properties. *)
Inductive value : Type :=
  | VUndefined
  | VNull
  | VBool (b : bool)
  | VNum (n : number)
  | VStr (s : string)
  | VArr (items : list value)
  | VObj (props : list (string * value)).

(** Built-ins of the host whose result the page passes along. *)
Record Builtins : Type := {
  (** [Number(s)] on a string. *)
  StringToNumber : string → number;
  (** [String(x)] on a finite number. *)
  formatFinite : Qc → string;
  (** [String.prototype.trim]. *)
  trim : string → string;
  (** [Date.now().toString(36)] at the n-th call of [uid]. *)
  clock36 : nat → string;
  (** [Math.random().toString(36).slice(2,8)] at the n-th call of [uid]. *)
  random36 : nat → string;
  (** [new Date().toISOString()] when the n-th call of [uid] is next. *)
  toISOString : nat → string;
  (** The message of the TypeError raised by reading a property of [null]. *)
  nullReadMessage : string → string
}.

(** ToBoolean. *)
Definition truthy (v : value) : bool :=
  match v with
  | VUndefined | VNull => false
  | VBool b => b
  | VNum n => truthy_number n
  | VStr s => negb (bool_decide (s = ""))
  | VArr _ | VObj _ => true
  end.

(** [a || b]. *)
Definition or_else (a b : value) : value := if truthy a then a else b.

(** [Array.isArray]. *)
Definition isArray (v : value) : bool :=
  match v with VArr _ => true | _ => false end.

Fixpoint own_property (k : string) (props : list (string * value)) : option value :=
  match props with
  | [] => None
  | (k', v) :: rest => if bool_decide (k = k') then Some v else own_property k rest
  end.

(** [v.k] for the property names the page reads ([income], [expenses],
    [categories], [id], [date], [desc], [amount], [notes], [category],
    [rates], [USD], [error]): none of them is inherited from a prototype, so
    the read is [undefined] unless [v] is an object that owns the property.
    Reading a property of [null] or [undefined] throws: [None]. *)
Definition get (v : value) (k : string) : option value :=
  match v with
  | VUndefined | VNull => None
  | VObj props => Some (default VUndefined (own_property k props))
  | _ => Some VUndefined
  end.

(** [v?.k]. *)
Definition get_opt (v : value) (k : string) : value :=
  default VUndefined (get v k).

Definition number_to_string (B : Builtins) (n : number) : string :=
  match n with
  | NaN => "NaN"
  | NegInfinity => "-Infinity"
  | Finite q => formatFinite B q
  | Infinity => "Infinity"
  end.

Fixpoint join (sep : string) (parts : list string) : string :=
  match parts with
  | [] => ""
  | [p] => p
  | p :: rest => p ++ sep ++ join sep rest
  end.

(** [String(v)], which is also the property key [v] stands for. *)
Fixpoint ToString (B : Builtins) (v : value) : string :=
  match v with
  | VUndefined => "undefined"
  | VNull => "null"
  | VBool b => if b then "true" else "false"
  | VNum n => number_to_string B n
  | VStr s => s
  | VArr items =>
      join ","
        ((fix each (l : list value) : list string :=
            match l with
            | [] => []
            | (VUndefined | VNull) :: l' => "" :: each l'
            | x :: l' => ToString B x :: each l'
            end) items)
  | VObj _ => "[object Object]"
  end.

(** [Number(v)]. *)
Definition ToNumber (B : Builtins) (v : value) : number :=
  match v with
  | VUndefined => NaN
  | VNull => 0
  | VBool b => if b then 1 else 0
  | VNum n => n
  | VStr s => StringToNumber B s
  | VArr _ | VObj _ => StringToNumber B (ToString B v)
  end.

(** SameValueZero, the equality of [Set]: primitives by value, NaN equal to
    itself; arrays and objects by identity, and the objects that meet here
    are distinct nodes of one parsed document. *)
Definition same_value_zero (a b : value) : bool :=
  match a, b with
  | VUndefined, VUndefined | VNull, VNull => true
  | VBool x, VBool y => bool_decide (x = y)
  | VNum x, VNum y => bool_decide (x = y)
  | VStr x, VStr y => bool_decide (x = y)
  | _, _ => false
  end.

(** [Set.prototype.add] on the list of the members, in insertion order. *)
Definition Set_add (seen : list value) (x : value) : list value :=
  if existsb (same_value_zero x) seen then seen else seen ++ [x].

(** [Array.from(new Set(l))]: first occurrences, in order. *)
Definition Set_from (l : list value) : list value := fold_left Set_add l [].

(** What [JSON.parse(JSON.stringify(v))] is: a non-finite number becomes
    [null], an [undefined] property is left out, an [undefined] array element
    becomes [null]. *)
Fixpoint jsonify (v : value) : value :=
  match v with
  | VUndefined => VNull
  | VNum n => if isFinite n then v else VNull
  | VArr items => VArr (jsonify <$> items)
  | VObj props =>
      VObj
        ((fix each (l : list (string * value)) : list (string * value) :=
            match l with
            | [] => []
            | (_, VUndefined) :: l' => each l'
            | (k, x) :: l' => (k, jsonify x) :: each l'
            end) props)
  | _ => v
  end.

(** ** The ledger and the page state *)

Module IncomeRow.
Record t : Type := mk {
  id : value; date : value; desc : value; amount : number; notes : value
}.
End IncomeRow.

Module ExpenseRow.
Record t : Type := mk {
  id : value; date : value; category : value; desc : value;
  amount : number; notes : value
}.
End ExpenseRow.

Module IncomeForm.
Record t : Type := mk {
  date : string; desc : string; amount : string; notes : string
}.
End IncomeForm.

Module ExpenseForm.
Record t : Type := mk {
  date : string; category : string; desc : string; amount : string;
  notes : string
}.
End ExpenseForm.

Inductive ToastType : Type := info | success | error.

Record Toast : Type := {
  toast_id : string; message : string; type : ToastType
}.

Definition DEFAULT_CATEGORIES : list string :=
  ["Room and Utility"; "Daily Expense"; "Borrow Others"; "Food & Drinks";
   "Transportation"; "Entertainment"; "Shopping"; "Other"].

(** The [useState] cells the embedded handlers compute with (the busy flags,
    the active tab and the theme are left out).  [draws] counts the calls of
    [uid] so far: the position in the clock and random streams. *)
Record State : Type := {
  rate : number;
  income : list IncomeRow.t;
  expenses : list ExpenseRow.t;
  categories : list value;
  toasts : list Toast;
  incomeForm : IncomeForm.t;
  expenseForm : ExpenseForm.t;
  draws : nat
}.

Definition initial : State := {|
  rate := of_Z 1388;
  income := [];
  expenses := [];
  categories := VStr <$> DEFAULT_CATEGORIES;
  toasts := [];
  incomeForm := IncomeForm.mk "" "" "" "";
  expenseForm := ExpenseForm.mk "" "" "" "" "";
  draws := 0
|}.

Definition setRate (r : number) (s : State) : State :=
  {| rate := r; income := income s; expenses := expenses s;
     categories := categories s; toasts := toasts s;
     incomeForm := incomeForm s; expenseForm := expenseForm s;
     draws := draws s |}.

Definition setIncome (f : list IncomeRow.t → list IncomeRow.t) (s : State) : State :=
  {| rate := rate s; income := f (income s); expenses := expenses s;
     categories := categories s; toasts := toasts s;
     incomeForm := incomeForm s; expenseForm := expenseForm s;
     draws := draws s |}.

Definition setExpenses (f : list ExpenseRow.t → list ExpenseRow.t) (s : State) : State :=
  {| rate := rate s; income := income s; expenses := f (expenses s);
     categories := categories s; toasts := toasts s;
     incomeForm := incomeForm s; expenseForm := expenseForm s;
     draws := draws s |}.

Definition setCategories (f : list value → list value) (s : State) : State :=
  {| rate := rate s; income := income s; expenses := expenses s;
     categories := f (categories s); toasts := toasts s;
     incomeForm := incomeForm s; expenseForm := expenseForm s;
     draws := draws s |}.

Definition setIncomeForm (f : IncomeForm.t → IncomeForm.t) (s : State) : State :=
  {| rate := rate s; income := income s; expenses := expenses s;
     categories := categories s; toasts := toasts s;
     incomeForm := f (incomeForm s); expenseForm := expenseForm s;
     draws := draws s |}.

Definition setExpenseForm (f : ExpenseForm.t → ExpenseForm.t) (s : State) : State :=
  {| rate := rate s; income := income s; expenses := expenses s;
     categories := categories s; toasts := toasts s;
     incomeForm := incomeForm s; expenseForm := f (expenseForm s);
     draws := draws s |}.

Definition setDraws (n : nat) (s : State) : State :=
  {| rate := rate s; income := income s; expenses := expenses s;
     categories := categories s; toasts := toasts s;
     incomeForm := incomeForm s; expenseForm := expenseForm s;
     draws := n |}.

(** [uid], at the [n]-th call. *)
Definition uid (B : Builtins) (n : nat) : string :=
  "id-" ++ clock36 B n ++ "-" ++ random36 B n.

(** [toast]: a toast with a fresh id is appended.  The timer that removes it
    later is not part of a handler's step. *)
Definition toast (B : Builtins) (msg : string) (ty : ToastType) (s : State) : State :=
  {| rate := rate s; income := income s; expenses := expenses s;
     categories := categories s;
     toasts := toasts s ++ [{| toast_id := uid B (draws s); message := msg; type := ty |}];
     incomeForm := incomeForm s; expenseForm := expenseForm s;
     draws := S (draws s) |}.

(** ** Aggregation *)

Record Totals : Type := {
  incomeKRW : number; expenseKRW : number; remainingKRW : number;
  incomeUSD : number; expenseUSD : number; remainingUSD : number
}.

(** The two [reduce] folds of [totals]. *)
Definition sum_income (income : list IncomeRow.t) : number :=
  fold_left (λ s r, (s + or_number (IncomeRow.amount r) 0)%js) income 0%js.

Definition sum_expenses (expenses : list ExpenseRow.t) : number :=
  fold_left (λ s r, (s + or_number (ExpenseRow.amount r) 0)%js) expenses 0%js.

Definition totals (income : list IncomeRow.t) (expenses : list ExpenseRow.t)
    (rate : number) : Totals :=
  let incomeKRW := sum_income income in
  let expenseKRW := sum_expenses expenses in
  let remainingKRW := (incomeKRW - expenseKRW)%js in
  {| incomeKRW := incomeKRW; expenseKRW := expenseKRW;
     remainingKRW := remainingKRW;
     incomeUSD := krwToUsd incomeKRW rate;
     expenseUSD := krwToUsd expenseKRW rate;
     remainingUSD := krwToUsd remainingKRW rate |}.

(** What a property of [byCat] can hold.  [byCat] is declared
    [Record<string, number>] and created as the literal [{}], so it inherits
    from [Object.prototype]: reading an inherited name gives a function (or,
    for [__proto__], the prototype object), and adding a number to that gives
    a string.  [SText] stands for all three: a truthy value whose numeric
    reading is NaN and which stays such a string when a number is added. *)
Inductive slot : Type :=
  | SNumber (n : number)
  | SText.

#[global] Instance slot_eq_dec : EqDecision slot.
Proof. solve_decision. Defined.

Definition Object_prototype_names : list string :=
  ["constructor"; "hasOwnProperty"; "isPrototypeOf"; "propertyIsEnumerable";
   "toLocaleString"; "toString"; "valueOf"; "__defineGetter__";
   "__defineSetter__"; "__lookupGetter__"; "__lookupSetter__"; "__proto__"].

(** [byCat[k]] read: the own property, else the inherited one. *)
Definition object_get (byCat : gmap string slot) (k : string) : option slot :=
  match byCat !! k with
  | Some v => Some v
  | None => if bool_decide (k ∈ Object_prototype_names) then Some SText else None
  end.

(** [byCat[k] = v]: an own property is created or updated, except under
    [__proto__], whose inherited setter ignores a primitive. *)
Definition object_set (byCat : gmap string slot) (k : string) (v : slot) : gmap string slot :=
  if bool_decide (k = "__proto__") then byCat else <[k := v]> byCat.

(** [x || 0] on what a read gives. *)
Definition or_zero (x : option slot) : slot :=
  match x with
  | None => SNumber 0
  | Some (SNumber n) => SNumber (or_number n 0)
  | Some SText => SText
  end.

(** [x + n] for a number [n]. *)
Definition slot_add (x : slot) (n : number) : slot :=
  match x with
  | SNumber m => SNumber (m + n)
  | SText => SText
  end.

(** ToNumber of a slot, as the arithmetic of the table and the currency
    formatter read it. *)
Definition slot_number (x : slot) : number :=
  match x with
  | SNumber n => n
  | SText => NaN
  end.

(** One turn of the loop of [breakdown]:
    [byCat[e.category] = (byCat[e.category] || 0) + Number(e.amount || 0)]. *)
Definition breakdown_step (B : Builtins) (byCat : gmap string slot)
    (e : ExpenseRow.t) : gmap string slot :=
  let k := ToString B (ExpenseRow.category e) in
  object_set byCat k
    (slot_add (or_zero (object_get byCat k)) (or_number (ExpenseRow.amount e) 0)).

(** [breakdown]: the [for ... of] loop over the expenses, from [{}]. *)
Definition breakdown (B : Builtins) (expenses : list ExpenseRow.t) : gmap string slot :=
  fold_left (breakdown_step B) expenses ∅.

(** A row of the breakdown table: [amt] and [pct] for one category. *)
Definition amt (B : Builtins) (expenses : list ExpenseRow.t) (cat : value) : slot :=
  or_zero (object_get (breakdown B expenses) (ToString B cat)).

Definition pct (B : Builtins) (expenses : list ExpenseRow.t) (cat : value) : number :=
  (slot_number (amt B expenses cat)
     / or_number (sum_expenses expenses) 1 * 100)%js.

(** The sum of the percentages the breakdown table shows: one row for each
    member of [categories]. *)
Definition table_pct_sum (B : Builtins) (expenses : list ExpenseRow.t)
    (categories : list value) : number :=
  fold_left (λ acc cat, (acc + pct B expenses cat)%js) categories 0%js.

(** The sum of the amounts the breakdown holds, one per category. *)
Definition breakdown_sum (byCat : gmap string slot) : number :=
  map_fold (λ _ v acc, (acc + slot_number v)%js) 0%js byCat.

(** The sum of the percentages of the categories the breakdown holds. *)
Definition pct_sum (B : Builtins) (expenses : list ExpenseRow.t) : number :=
  map_fold (λ k _ acc, (acc + pct B expenses (VStr k))%js) 0%js
    (breakdown B expenses).

(** ** Record entry *)

(** How the server answered a [fetch]. *)
Inductive reply : Type :=
  | Accepted                       (* [res.ok] *)
  | Refused (errorData : value)    (* not [res.ok]; the parsed body, [{}] when it is not JSON *)
  | Unreachable (msg : string).    (* [fetch] rejected, with this message *)

Record Request : Type := {
  method : string; url : string; body : value
}.

(** The message the [catch] block shows: the thrown error's message, or the
    handler's own text when that is empty. *)
Definition failure_message (B : Builtins) (r : reply) (thrown shown : string) : string :=
  let m :=
    match r with
    | Accepted => ""
    | Refused errorData =>
        match get errorData "error" with
        | None => nullReadMessage B "error"
        | Some e => ToString B (or_else e (VStr thrown))
        end
    | Unreachable msg => msg
    end in
  if bool_decide (m = "") then shown else m.

Definition IncomeRow_value (r : IncomeRow.t) : value :=
  VObj [("id", IncomeRow.id r); ("date", IncomeRow.date r);
        ("desc", IncomeRow.desc r); ("amount", VNum (IncomeRow.amount r));
        ("notes", IncomeRow.notes r)].

Definition ExpenseRow_value (r : ExpenseRow.t) : value :=
  VObj [("id", ExpenseRow.id r); ("date", ExpenseRow.date r);
        ("category", ExpenseRow.category r); ("desc", ExpenseRow.desc r);
        ("amount", VNum (ExpenseRow.amount r)); ("notes", ExpenseRow.notes r)].

(** The [errors] array of the two submit handlers, joined. *)
Definition missing_fields (date : string) (amount : number) : list string :=
  (if bool_decide (date = "") then ["Date"] else [])
  ++ (if negb (amount >? 0)%js then ["Amount"] else []).

Definition or_text (s d : string) : string :=
  if bool_decide (s = "") then d else s.

(** [onAddIncome]: the requests sent and the next state. *)
Definition onAddIncome (B : Builtins) (r : reply) (s : State) : list Request * State :=
  let date := trim B (IncomeForm.date (incomeForm s)) in
  let desc := trim B (IncomeForm.desc (incomeForm s)) in
  let amount := Math_round (StringToNumber B (IncomeForm.amount (incomeForm s))) in
  let errors := missing_fields date amount in
  if negb (bool_decide (errors = [])) then
    ([], toast B ("Please fill in: " ++ join ", " errors) error s)
  else
    let row := IncomeRow.mk (VStr (uid B (draws s))) (VStr date)
                 (VStr (or_text desc "Income")) amount
                 (VStr (trim B (IncomeForm.notes (incomeForm s)))) in
    let s1 := setDraws (S (draws s)) s in
    let request := {| method := "POST"; url := "/api/income";
                      body := jsonify (IncomeRow_value row) |} in
    match r with
    | Accepted =>
        ([request],
         setIncomeForm (λ f, IncomeForm.mk (IncomeForm.date f) "" "" "")
           (toast B "Income added" success
              (setIncome (λ v, v ++ [row]) s1)))
    | _ =>
        ([request],
         toast B (failure_message B r "Failed to save income"
                    "Failed to save income to database.") error s1)
    end.

(** [onAddExpense]. *)
Definition onAddExpense (B : Builtins) (r : reply) (s : State) : list Request * State :=
  let date := trim B (ExpenseForm.date (expenseForm s)) in
  let category := trim B (ExpenseForm.category (expenseForm s)) in
  let desc := trim B (ExpenseForm.desc (expenseForm s)) in
  let amount := Math_round (StringToNumber B (ExpenseForm.amount (expenseForm s))) in
  let errors := missing_fields date amount in
  if negb (bool_decide (errors = [])) then
    ([], toast B ("Please fill in: " ++ join ", " errors) error s)
  else
    let row := ExpenseRow.mk (VStr (uid B (draws s))) (VStr date)
                 (VStr (or_text category "Other"))
                 (VStr (or_text desc "Expense")) amount
                 (VStr (trim B (ExpenseForm.notes (expenseForm s)))) in
    let s1 := setDraws (S (draws s)) s in
    let request := {| method := "POST"; url := "/api/expenses";
                      body := jsonify (ExpenseRow_value row) |} in
    match r with
    | Accepted =>
        ([request],
         setExpenseForm (λ f, ExpenseForm.mk (ExpenseForm.date f) "" "" "" "")
           (toast B "Expense added" success
              (setExpenses (λ v, v ++ [row]) s1)))
    | _ =>
        ([request],
         toast B (failure_message B r "Failed to save expense"
                    "Failed to save expense to database.") error s1)
    end.

(** [clearAll], given the answer to its confirmation prompt. *)
Definition clearAll (B : Builtins) (ok : bool) (s : State) : State :=
  if negb ok then s
  else toast B "All data cleared" success
         (setCategories (λ _, VStr <$> DEFAULT_CATEGORIES)
            (setExpenses (λ _, []) (setIncome (λ _, []) s))).

(** ** Export and import *)

(** [exportJSON]: the document downloaded, as [JSON.parse] reads it back, and
    the next state. *)
Definition exportJSON (B : Builtins) (s : State) : value * State :=
  let data :=
    VObj [("version", VNum 1%js); ("rate", VNum (rate s));
          ("exportedAt", VStr (toISOString B (draws s)));
          ("income", VArr (IncomeRow_value <$> income s));
          ("expenses", VArr (ExpenseRow_value <$> expenses s));
          ("categories", VArr (categories s))] in
  (jsonify data, toast B "Exported JSON downloaded" success s).

(** The text of a picked file, by what [JSON.parse] makes of it. *)
Inductive file_text : Type :=
  | EmptyText                      (* the empty string: [JSON.parse] gets ["{}"] *)
  | Malformed (msg : string)       (* [JSON.parse] throws a SyntaxError with this message *)
  | Document (obj : value).        (* [JSON.parse] returns this value *)

Inductive picked : Type :=
  | NoFile
  | Unreadable                     (* [reader.onerror] *)
  | Readable (text : file_text).   (* [reader.onload] *)

(** Row building draws ids and may throw a TypeError: a computation takes the
    number of draws so far and returns a result, or nothing when it threw,
    with the number of draws after it. *)
Definition Eff (A : Type) : Type := nat → option A * nat.

Definition ret {A} (a : A) : Eff A := λ n, (Some a, n).

Definition bind {A C} (m : Eff A) (k : A → Eff C) : Eff C :=
  λ n, match m n with
       | (Some a, n') => k a n'
       | (None, n') => (None, n')
       end.

Notation "'let*' x ':=' m 'in' k" := (bind m (λ x, k))
  (at level 10, x name, m at level 100, k at level 200).

(** [n.k], throwing on [null] and [undefined]. *)
Definition read (n : value) (k : string) : Eff value := λ t, (get n k, t).

(** A call of [uid]. *)
Definition draw (B : Builtins) : Eff value := λ t, (Some (VStr (uid B t)), S t).

(** [l.map(f)]. *)
Fixpoint mapM {A C} (f : A → Eff C) (l : list A) : Eff (list C) :=
  match l with
  | [] => ret []
  | x :: l' =>
      let* y := f x in
      let* ys := mapM f l' in
      ret (y :: ys)
  end.

(** The arrow function mapped over [obj.income]. *)
Definition income_of (B : Builtins) (n : value) : Eff IncomeRow.t :=
  let* id0 := read n "id" in
  let* id := (if truthy id0 then ret id0 else draw B) in
  let* date := read n "date" in
  let* desc := read n "desc" in
  let* amount := read n "amount" in
  let* notes := read n "notes" in
  ret (IncomeRow.mk id (or_else date (VStr "")) (or_else desc (VStr ""))
         (Math_max 0 (ToNumber B (or_else amount (VNum 0%js))))
         (or_else notes (VStr ""))).

(** The arrow function mapped over [obj.expenses]. *)
Definition expense_of (B : Builtins) (n : value) : Eff ExpenseRow.t :=
  let* id0 := read n "id" in
  let* id := (if truthy id0 then ret id0 else draw B) in
  let* date := read n "date" in
  let* category := read n "category" in
  let* desc := read n "desc" in
  let* amount := read n "amount" in
  let* notes := read n "notes" in
  ret (ExpenseRow.mk id (or_else date (VStr "")) (or_else category (VStr "Other"))
         (or_else desc (VStr ""))
         (Math_max 0 (ToNumber B (or_else amount (VNum 0%js))))
         (or_else notes (VStr ""))).

Definition items_of (v : value) : list value :=
  match v with VArr items => items | _ => [] end.

(** The [cat] list of the import. *)
Definition imported_categories (B : Builtins) (obj : value) : list value :=
  let listed := get_opt obj "categories" in
  if isArray listed && negb (bool_decide (length (items_of listed) = 0%nat))
  then (λ c, VStr (ToString B c)) <$> items_of listed
  else VStr <$> DEFAULT_CATEGORIES.

(** [JSON.parse(String(reader.result || "{}"))]. *)
Definition JSON_parse_result (text : file_text) : string + value :=
  match text with
  | EmptyText => inr (VObj [])
  | Malformed msg => inl msg
  | Document obj => inr obj
  end.

(** [onFilePicked], given the picked file and the answer to the
    confirmation prompt (asked only for a well-formed document). *)
Definition onFilePicked (B : Builtins) (f : picked) (confirmReplace : bool)
    (s : State) : State :=
  match f with
  | NoFile => s
  | Unreadable => toast B "Failed to read file." error s
  | Readable text =>
      match JSON_parse_result text with
      | inl msg => toast B ("Import failed: " ++ msg) error s
      | inr obj =>
          if negb (truthy obj)
             || negb (isArray (get_opt obj "income"))
             || negb (isArray (get_opt obj "expenses"))
          then toast B ("Import failed: "
                          ++ "Invalid format: Missing income/expenses arrays")
                 error s
          else if negb confirmReplace then s
          else
            match (let* inc := mapM (income_of B) (items_of (get_opt obj "income")) in
                   let* exp := mapM (expense_of B) (items_of (get_opt obj "expenses")) in
                   ret (inc, exp)) (draws s) with
            | (None, n) =>
                toast B ("Import failed: " ++ nullReadMessage B "id") error
                  (setDraws n s)
            | (Some (inc, exp), n) =>
                let cat := imported_categories B obj in
                toast B "Import successful" success
                  (setCategories
                     (λ _, Set_from (cat ++ (ExpenseRow.category <$> exp)))
                     (setExpenses (λ _, exp)
                        (setIncome (λ _, inc) (setDraws n s))))
            end
      end
  end.

(** ** The exchange rate *)

Definition RATE_STORAGE_KEY : string := "budget_rate".
Definition RATE_FETCHED_AT_KEY : string := "budget_rate_timestamp".
Definition RATE_MAX_AGE_MS : number := of_Z (1000 * 60 * 60 * 12).

(** The effect that loads the saved rate; [localStorage] is a map from keys
    to strings. *)
Definition loadSavedRate (B : Builtins) (localStorage : gmap string string)
    (s : State) : State :=
  match localStorage !! RATE_STORAGE_KEY with
  | None => s
  | Some saved =>
      if bool_decide (saved = "") then s
      else
        let parsed := StringToNumber B saved in
        if negb (isFinite parsed) || (parsed <=? 0)%js then s
        else setRate parsed s
  end.

(** What the request to the rate service came to. *)
Inductive fetched : Type :=
  | Rejected                 (* [fetch] or [res.json()] rejected *)
  | NotOk                    (* not [res.ok] *)
  | Body (data : value).     (* the parsed body *)

(** [data?.rates?.USD]. *)
Definition quoted (data : value) : value :=
  get_opt (get_opt data "rates") "USD".

(** [refreshRate], given the service's answer, whether the effect was
    cleaned up before the answer came, and the time [Date.now()] reads when
    the rate is stored. *)
Definition refreshRate (B : Builtins) (answer : fetched) (cancelled : bool)
    (storedAt : number) (page : State * gmap string string)
    : State * gmap string string :=
  let failed :=
    if cancelled then page
    else (toast B "Unable to refresh exchange rate. Using the last known value."
            error page.1, page.2) in
  match answer with
  | Rejected | NotOk => failed
  | Body data =>
      let usdPerKrw := ToNumber B (quoted data) in
      if negb (isFinite usdPerKrw) || (usdPerKrw <=? 0)%js then failed
      else
        let krwPerUsd := (1 / usdPerKrw)%js in
        if cancelled then page
        else
          (setRate krwPerUsd page.1,
           <[RATE_FETCHED_AT_KEY := number_to_string B storedAt]>
             (<[RATE_STORAGE_KEY := number_to_string B krwPerUsd]> page.2))
  end.

(** The effect around [refreshRate]: refresh when the stored time stamp is
    not a finite number or is older than [RATE_MAX_AGE_MS] at the time [now]
    of the check. *)
Definition rateEffect (B : Builtins) (now : number) (answer : fetched)
    (cancelled : bool) (storedAt : number) (page : State * gmap string string)
    : State * gmap string string :=
  let lastFetched :=
    match page.2 !! RATE_FETCHED_AT_KEY with
    | None => 0%js
    | Some stamp => StringToNumber B stamp
    end in
  if negb (isFinite lastFetched) || ((now - lastFetched) >? RATE_MAX_AGE_MS)%js
  then refreshRate B answer cancelled storedAt page
  else page.

(** The events of the page that are embedded here, and the step each
    takes on the state and the local storage. *)
Inductive event : Type :=
  | SavedRateLoaded
  | RateEffect (now : number) (answer : fetched) (cancelled : bool)
      (storedAt : number)
  | AddIncome (r : reply)
  | AddExpense (r : reply)
  | EditIncomeForm (f : IncomeForm.t)
  | EditExpenseForm (f : ExpenseForm.t)
  | ClearAll (ok : bool)
  | ExportJSON
  | FilePicked (f : picked) (confirmReplace : bool).

Definition step (B : Builtins) (e : event) (page : State * gmap string string)
    : State * gmap string string :=
  match e with
  | SavedRateLoaded => (loadSavedRate B page.2 page.1, page.2)
  | RateEffect now answer cancelled storedAt =>
      rateEffect B now answer cancelled storedAt page
  | AddIncome r => ((onAddIncome B r page.1).2, page.2)
  | AddExpense r => ((onAddExpense B r page.1).2, page.2)
  | EditIncomeForm f => (setIncomeForm (λ _, f) page.1, page.2)
  | EditExpenseForm f => (setExpenseForm (λ _, f) page.1, page.2)
  | ClearAll ok => (clearAll B ok page.1, page.2)
  | ExportJSON => ((exportJSON B page.1).2, page.2)
  | FilePicked f confirmReplace => (onFilePicked B f confirmReplace page.1, page.2)
  end.

(** The page after a sequence of events, from the initial state and any
    content of the local storage. *)
Definition run (B : Builtins) (events : list event) (localStorage : gmap string string)
    : State * gmap string string :=
  fold_left (λ page e, step B e page) events (initial, localStorage).

(** ** The rate path on binary64

    The same three pieces of code on the kernel's IEEE 754 binary64 floats,
    which are JavaScript's numbers: here the reciprocal can overflow. *)
Module Binary64.

Definition isFinite (x : PrimFloat.float) : bool := PrimFloat.is_finite x.

Definition krwToUsd (krw rate : PrimFloat.float) : PrimFloat.float :=
  let normalizedRate := rate in
  if negb (isFinite normalizedRate) || PrimFloat.leb normalizedRate PrimFloat.zero
  then PrimFloat.zero
  else PrimFloat.div krw normalizedRate.

(** The saved-rate effect after [Number(saved)]: the rate it leaves. *)
Definition loadSavedRate (parsed rate : PrimFloat.float) : PrimFloat.float :=
  if negb (isFinite parsed) || PrimFloat.leb parsed PrimFloat.zero then rate
  else parsed.

(** [refreshRate] after [Number(data?.rates?.USD)], not cancelled: the rate
    it leaves. *)
Definition refreshRate (usdPerKrw rate : PrimFloat.float) : PrimFloat.float :=
  if negb (isFinite usdPerKrw) || PrimFloat.leb usdPerKrw PrimFloat.zero then rate
  else
    let krwPerUsd := PrimFloat.div PrimFloat.one usdPerKrw in
    krwPerUsd.

End Binary64.

(** ** The DELETE routes *)

Module Api.

(** A row of the [income] table, and of the [expenses] table. *)
Record income_record : Type := {
  income_id : string; income_user_id : string; income_date : string;
  income_description : string; income_amount : Qc; income_notes : option string
}.

Record expense_record : Type := {
  expense_id : string; expense_user_id : string; expense_date : string;
  expense_category : string; expense_description : string;
  expense_amount : Qc; expense_notes : option string
}.

Record Database : Type := {
  income_table : list income_record;
  expenses_table : list expense_record
}.

(** What [getServerSession] resolves to. *)
Inductive session : Type :=
  | NoSession                         (* [null] *)
  | NoUser                            (* a session without [user] *)
  | User (id : option string).        (* [session.user], with its [id] if any *)

Definition getUserId (s : session) : option string :=
  match s with
  | NoSession | NoUser => None
  | User id => id
  end.

Record Response : Type := { status : nat; json : value }.

Definition error_response (msg : string) (code : nat) : Response :=
  {| status := code; json := VObj [("error", VStr msg)] |}.

(** [DELETE FROM t WHERE id = $1 AND user_id = $2 RETURNING id]: the rows
    returned and the table left. *)
Definition delete_returning {R} (row_id row_user : R → string)
    (id userId : string) (table : list R) : list string * list R :=
  (row_id <$> filter (λ r, row_id r = id ∧ row_user r = userId) table,
   filter (λ r, ¬ (row_id r = id ∧ row_user r = userId)) table).

(** The body both handlers share: the session, the [id] search parameter,
    and the statement run against the table; [query] is [None] when the
    promise of the statement rejects. *)
Definition handle_delete {T} (s : session) (id : option string)
    (query : string → string → option (list string * T)) (table : T)
    (notFound failedMsg : string) : Response * T :=
  match getUserId s with
  | None => (error_response "Unauthorized" 401, table)
  | Some userId =>
      if bool_decide (userId = "") then (error_response "Unauthorized" 401, table)
      else
        match id with
        | None => (error_response "ID is required" 400, table)
        | Some id =>
            if bool_decide (id = "") then (error_response "ID is required" 400, table)
            else
              match query id userId with
              | None => (error_response failedMsg 500, table)
              | Some (rows, table') =>
                  if bool_decide (length rows = 0%nat)
                  then (error_response notFound 404, table')
                  else ({| status := 200; json := VObj [("success", VBool true)] |},
                        table')
              end
        end
  end.

(** The route of [/api/income] and the route of [/api/expenses]; [up] says
    whether the database answers the statement. *)
Definition DELETE_income (up : bool) (s : session) (id : option string)
    (db : Database) : Response * Database :=
  let '(response, t) :=
    handle_delete s id
      (λ id userId,
         if up then Some (delete_returning income_id income_user_id id userId
                            (income_table db))
         else None)
      (income_table db) "Income not found" "Failed to delete income" in
  (response, {| income_table := t; expenses_table := expenses_table db |}).

Definition DELETE_expenses (up : bool) (s : session) (id : option string)
    (db : Database) : Response * Database :=
  let '(response, t) :=
    handle_delete s id
      (λ id userId,
         if up then Some (delete_returning expense_id expense_user_id id userId
                            (expenses_table db))
         else None)
      (expenses_table db) "Expense not found" "Failed to delete expense" in
  (response, {| income_table := income_table db; expenses_table := t |}).

End Api.

(** ** Further handlers and effects of the page *)

(** Further built-ins of the host. *)
Record Host : Type := {
  (** [String.prototype.toLowerCase]. *)
  toLowerCase : string → string;
  (** [encodeURIComponent]. *)
  encodeURIComponent : string → string;
  (** [s.length], the number of UTF-16 code units of a string. *)
  String_length : string → nat
}.

Definition setToasts (f : list Toast → list Toast) (s : State) : State :=
  {| rate := rate s; income := income s; expenses := expenses s;
     categories := categories s; toasts := f (toasts s);
     incomeForm := incomeForm s; expenseForm := expenseForm s;
     draws := draws s |}.

(** The timer [toast] sets for the toast with this id, when it fires:
    [setToasts(t => t.filter(x => x.id !== id))]. *)
Definition toast_timeout (id : string) (s : State) : State :=
  setToasts (filter (λ x, toast_id x ≠ id)) s.

(** [v === id] for a string [id]. *)
Definition is_string (v : value) (id : string) : bool :=
  match v with VStr t => bool_decide (t = id) | _ => false end.

(** [categories.some(c => c.toLowerCase() === name.toLowerCase())]: [None]
    when the call throws, which it does at the first member, before any
    match, that has no [toLowerCase]: a member that is not a string. *)
Fixpoint some_same_name (H : Host) (name : string) (cs : list value) : option bool :=
  match cs with
  | [] => Some false
  | VStr c :: rest =>
      if bool_decide (toLowerCase H c = toLowerCase H name) then Some true
      else some_same_name H name rest
  | _ :: _ => None
  end.

(** [onAddCategory], given what [window.prompt] returned ([None] for
    [null]); the result is [None] when the handler throws. *)
Definition onAddCategory (B : Builtins) (H : Host) (answer : option string)
    (s : State) : option State :=
  match answer with
  | None => Some s
  | Some typed =>
      let name := trim B typed in
      if bool_decide (name = "") then Some s
      else
        match some_same_name H name (categories s) with
        | None => None
        | Some true => Some (toast B "Category already exists" error s)
        | Some false =>
            Some (toast B "Category added" success
                    (setExpenseForm
                       (λ f, ExpenseForm.mk (ExpenseForm.date f) name
                               (ExpenseForm.desc f) (ExpenseForm.amount f)
                               (ExpenseForm.notes f))
                       (setCategories (λ c, c ++ [VStr name]) s)))
        end
  end.

(** The second argument of [onDelete]: ["income"] or ["expense"]. *)
Inductive record_type : Type := income_record_type | expense_record_type.

(** [onDelete], given the answer to its confirmation prompt and the server's
    reply: the requests sent and the next state.  The id is a string, as
    declared: a row is kept when its id is not that string. *)
Definition onDelete (B : Builtins) (H : Host) (id : string) (type : record_type)
    (ok : bool) (r : reply) (s : State) : list Request * State :=
  if negb ok then ([], s)
  else
    let endpoint :=
      match type with
      | income_record_type => "/api/income"
      | expense_record_type => "/api/expenses"
      end in
    let request := {| method := "DELETE";
                      url := endpoint ++ "?id=" ++ encodeURIComponent H id;
                      body := VUndefined |} in
    match r with
    | Accepted =>
        ([request],
         toast B "Record deleted" success
           (match type with
            | income_record_type =>
                setIncome (filter (λ r, is_string (IncomeRow.id r) id = false)) s
            | expense_record_type =>
                setExpenses (filter (λ r, is_string (ExpenseRow.id r) id = false)) s
            end))
    | _ =>
        ([request],
         toast B (failure_message B r "Failed to delete record"
                    "Failed to delete record from database.") error s)
    end.

(** The [status] of [useSession]. *)
Inductive SessionStatus : Type := loading | authenticated | unauthenticated.

(** The arrow function mapped over the rows of [/api/income]; [description]
    and [desc] are not inherited names either. *)
Definition loaded_income (B : Builtins) (r : value) : Eff IncomeRow.t :=
  let* id := read r "id" in
  let* date := read r "date" in
  let* description := read r "description" in
  let* desc := (if truthy description then ret description else read r "desc") in
  let* amount := read r "amount" in
  let* notes := read r "notes" in
  ret (IncomeRow.mk id date desc (ToNumber B amount) (or_else notes (VStr ""))).

(** The arrow function mapped over the rows of [/api/expenses]. *)
Definition loaded_expense (B : Builtins) (r : value) : Eff ExpenseRow.t :=
  let* id := read r "id" in
  let* date := read r "date" in
  let* category := read r "category" in
  let* description := read r "description" in
  let* desc := (if truthy description then ret description else read r "desc") in
  let* amount := read r "amount" in
  let* notes := read r "notes" in
  ret (ExpenseRow.mk id date category desc (ToNumber B amount)
         (or_else notes (VStr ""))).

(** [Array.isArray(data) ? data.map(f) : []]. *)
Definition map_if_array {C} (f : value → Eff C) (data : value) : Eff (list C) :=
  if isArray data then mapM f (items_of data) else ret [].

Definition LOAD_FAILED : string :=
  "Failed to load data from server. Please refresh the page.".

(** The effect that loads the ledger, with [loadData]: given the session
    status, what the three requests came to, and whether the effect was
    cleaned up before the answers were handled.  The state goes with the
    [isLoadingData] flag. *)
Definition loadData (B : Builtins) (status : SessionStatus)
    (incomeRes expensesRes categoriesRes : fetched) (cancelled : bool)
    (page : State * bool) : State * bool :=
  match status with
  | authenticated =>
      let s := page.1 in
      if cancelled then (s, true)
      else
        let failed (s : State) := (toast B LOAD_FAILED error s, false) in
        match incomeRes, expensesRes, categoriesRes with
        | Body incomeData, Body expensesData, (NotOk | Body _) =>
            let categoriesData :=
              match categoriesRes with Body data => data | _ => VArr [] end in
            match (let* inc := map_if_array (loaded_income B) incomeData in
                   let* exp := map_if_array (loaded_expense B) expensesData in
                   ret (inc, exp)) (draws s) with
            | (None, _) => failed s
            | (Some (inc, exp), _) =>
                let s1 := setExpenses (λ _, exp) (setIncome (λ _, inc) s) in
                match map_if_array (λ c, read c "name") categoriesData (draws s) with
                | (None, _) => failed s1
                | (Some dbCats, _) =>
                    let expCats :=
                      filter (λ c, truthy c = true) (ExpenseRow.category <$> exp) in
                    let allCats :=
                      Set_from ((VStr <$> DEFAULT_CATEGORIES) ++ dbCats ++ expCats) in
                    (setCategories (λ _, allCats) s1, false)
                end
            end
        | _, _, _ => failed s
        end
  | _ => page
  end.

(** The theme of the page and the [data-theme] attribute of the document
    element. *)
Record Appearance : Type := {
  theme : string; data_theme : option string
}.

(** The effect that loads the theme. *)
Definition loadTheme (localStorage : gmap string string) (a : Appearance) : Appearance :=
  match localStorage !! "budget_theme" with
  | None => a
  | Some savedTheme =>
      if bool_decide (savedTheme = "") then a
      else {| theme := savedTheme; data_theme := Some savedTheme |}
  end.

Definition toggleTheme (page : Appearance * gmap string string)
    : Appearance * gmap string string :=
  let newTheme := if bool_decide (theme page.1 = "dark") then "light" else "dark" in
  ({| theme := newTheme; data_theme := Some newTheme |},
   <["budget_theme" := newTheme]> page.2).

(** The script of the root layout, which runs before the page is rendered:
    the attribute it leaves. *)
Definition layout_script (localStorage : gmap string string)
    (attribute : option string) : option string :=
  match localStorage !! "budget_theme" with
  | None => attribute
  | Some theme =>
      if bool_decide (theme = "light") || bool_decide (theme = "dark")
      then Some theme else attribute
  end.

(** A fresh load of the page: the layout's script on a document without the
    attribute, then the page's effect on its initial theme. *)
Definition load_theme (localStorage : gmap string string) : Appearance :=
  loadTheme localStorage
    {| theme := "dark"; data_theme := layout_script localStorage None |}.

(** The effect that loads the tab, and the one that saves it. *)
Definition loadTab (localStorage : gmap string string) (tab : string) : string :=
  match localStorage !! "budget_active_tab" with
  | None => tab
  | Some last => if bool_decide (last = "") then tab else last
  end.

Definition saveTab (tab : string) (localStorage : gmap string string)
    : gmap string string :=
  <["budget_active_tab" := tab]> localStorage.

(** [setTab] from a handler: the state changes, and the saving effect runs
    when the tab is another one. *)
Definition setTab (tab : string) (page : string * gmap string string)
    : string * gmap string string :=
  (tab, if bool_decide (tab = page.1) then page.2 else saveTab tab page.2).

(** The first render, with the tab [income]: both effects run, the loading
    one sets the tab, and the saving one runs again for the tab set. *)
Definition load_tab (localStorage : gmap string string) : string * gmap string string :=
  setTab (loadTab localStorage "income") ("income", saveTab "income" localStorage).

(** The [hidden] attribute of the panel of a tab. *)
Definition hidden (panel tab : string) : bool := negb (bool_decide (tab = panel)).

(** What the page reads of [new Date()]. *)
Record LocalDate : Type := { getFullYear : Z; getMonth : Z; getDate : Z }.

(** [s.padStart(2, '0')] on the decimal numeral of an integer. *)
Definition padStart_2_0 (s : string) : string :=
  match String.length s with
  | 0%nat => "00"
  | 1%nat => "0" ++ s
  | _ => s
  end.

(** The text of the date; [String] of an integer is its decimal numeral. *)
Definition today (t : LocalDate) : string :=
  let m := padStart_2_0 (pretty (getMonth t + 1)%Z) in
  let d := padStart_2_0 (pretty (getDate t)) in
  pretty (getFullYear t) ++ "-" ++ m ++ "-" ++ d.

(** The effect that initialises the date fields of the two forms. *)
Definition initDates (t : LocalDate) (s : State) : State :=
  let today := today t in
  let s1 :=
    if bool_decide (IncomeForm.date (incomeForm s) = "")
    then setIncomeForm (λ f, IncomeForm.mk today (IncomeForm.desc f)
                               (IncomeForm.amount f) (IncomeForm.notes f)) s
    else s in
  if bool_decide (ExpenseForm.date (expenseForm s) = "")
  then setExpenseForm (λ f, ExpenseForm.mk today (ExpenseForm.category f)
                              (ExpenseForm.desc f) (ExpenseForm.amount f)
                              (ExpenseForm.notes f)) s1
  else s1.

(** ** The registration page *)

Module Register.

Record State : Type := {
  name : string; email : string; password : string; confirmPassword : string;
  error : value; loading : bool; theme : string
}.

Definition setError (e : value) (s : State) : State :=
  {| name := name s; email := email s; password := password s;
     confirmPassword := confirmPassword s; error := e; loading := loading s;
     theme := theme s |}.

Definition setLoading (b : bool) (s : State) : State :=
  {| name := name s; email := email s; password := password s;
     confirmPassword := confirmPassword s; error := error s; loading := b;
     theme := theme s |}.

Definition setTheme (t : string) (s : State) : State :=
  {| name := name s; email := email s; password := password s;
     confirmPassword := confirmPassword s; error := error s; loading := loading s;
     theme := t |}.

(** The effect that loads the theme. *)
Definition loadTheme (localStorage : gmap string string) (s : State) : State :=
  match localStorage !! "budget_theme" with
  | None => s
  | Some savedTheme => if bool_decide (savedTheme = "") then s else setTheme savedTheme s
  end.

Definition toggleTheme (page : State * gmap string string)
    : State * gmap string string :=
  let newTheme := if bool_decide (theme page.1 = "dark") then "light" else "dark" in
  (setTheme newTheme page.1, <["budget_theme" := newTheme]> page.2).

(** What the request to [/api/auth/register] came to. *)
Inductive answered : Type :=
  | Unsent                                    (* [fetch] rejected *)
  | Answer (ok : bool) (data : option value). (* [res.ok], and the body as
                                                 [res.json()] gives it, if it does *)

(** [handleSubmit]: the requests sent, the route pushed, and the next
    state. *)
Definition handleSubmit (H : Host) (r : answered) (s : State)
    : list Request * option string * State :=
  let s0 := setError (VStr "") s in
  if negb (bool_decide (password s = confirmPassword s)) then
    ([], None, setError (VStr "Passwords do not match") s0)
  else if (String_length H (password s) <? 6)%nat then
    ([], None, setError (VStr "Password must be at least 6 characters") s0)
  else
    let request :=
      {| method := "POST"; url := "/api/auth/register";
         body := VObj [("name", VStr (name s)); ("email", VStr (email s));
                       ("password", VStr (password s))] |} in
    let s1 := setLoading true s0 in
    let thrown :=
      setLoading false (setError (VStr "An error occurred. Please try again.") s1) in
    match r with
    | Unsent | Answer _ None => ([request], None, thrown)
    | Answer false (Some data) =>
        match get data "error" with
        | None => ([request], None, thrown)
        | Some e =>
            ([request], None,
             setLoading false (setError (or_else e (VStr "Registration failed")) s1))
        end
    | Answer true (Some _) =>
        ([request], Some "/login?registered=true", setLoading false s1)
    end.

End Register.

(** ** The GET, POST and PUT routes

    The rows of the two tables have the columns [initializeDatabase]
    declares.  A statement is embedded by what it does to a table: a table
    is the list of its rows, and a statement that the database rejects gives
    [None].  What the database makes of a parameter is a field of
    [Postgres]; [up] says whether it carries out a statement whose
    parameters are not NULL where they may not be (it does not when the
    connection fails or a value is refused by the type of its column). *)

Module IncomeRecord.
Record t : Type := mk {
  id : string; user_id : string; date : string; description : string;
  amount : number; notes : option string; created_at : Z; updated_at : Z
}.
End IncomeRecord.

Module ExpenseRecord.
Record t : Type := mk {
  id : string; user_id : string; date : string; category : string;
  description : string; amount : number; notes : option string;
  created_at : Z; updated_at : Z
}.
End ExpenseRecord.

Record Postgres : Type := {
  (** The text the driver sends for a parameter that is not a string. *)
  driver_text : value → string;
  (** What a VARCHAR(n) column holds of a text it takes. *)
  varchar : nat → string → string;
  (** What a DECIMAL(15,2) column holds of a text it takes. *)
  decimal : string → number;
  (** Whether the first text sorts after the second one. *)
  sorts_after : string → string → bool
}.

(** The parameter the driver sends: NULL ([None]) for [null] and
    [undefined], a string as it is. *)
Definition prepareValue (P : Postgres) (v : value) : option string :=
  match v with
  | VUndefined | VNull => None
  | VStr s => Some s
  | _ => Some (driver_text P v)
  end.

(** What a handler answers: the status, and the body. *)
Inductive Payload (R : Type) : Type :=
  | Failure (error : string)     (* [{ error }] *)
  | Rows (rows : list R)         (* [result.rows] *)
  | Row (row : option R).        (* [result.rows[0]] *)
Arguments Failure {R} error.
Arguments Rows {R} rows.
Arguments Row {R} row.

Record Answer (R : Type) : Type := { code : nat; payload : Payload R }.
Arguments code {R} _.
Arguments payload {R} _.

Definition failure {R} (msg : string) (status : nat) : Answer R :=
  {| code := status; payload := Failure msg |}.

Section Statements.
Context {R : Type} (key owner : R → string).

(** [SELECT * FROM t WHERE user_id = $1 ORDER BY ...], given the order. *)
Definition select_where (order_by : list R → list R) (userId : string)
    (table : list R) : list R :=
  order_by (filter (λ r, owner r = userId) table).

(** [INSERT INTO t ... RETURNING *], given the row the values make ([None]
    when a NOT NULL column is given NULL): rejected when the primary key is
    taken. *)
Definition insert_returning (row : option R) (table : list R)
    : option (list R * list R) :=
  match row with
  | None => None
  | Some r =>
      if bool_decide (key r ∈ key <$> table) then None
      else Some ([r], table ++ [r])
  end.

(** [UPDATE t SET ... WHERE id = $1 AND user_id = $n RETURNING *], given
    what SET makes of a row ([None] when a NOT NULL column is given NULL):
    the rows returned and the table left. *)
Fixpoint update_returning (id : option string) (userId : string)
    (set : R → option R) (table : list R) : option (list R * list R) :=
  match table with
  | [] => Some ([], [])
  | r :: rest =>
      match update_returning id userId set rest with
      | None => None
      | Some (rows, rest') =>
          if bool_decide (Some (key r) = id ∧ owner r = userId) then
            match set r with
            | None => None
            | Some r' => Some (r' :: rows, r' :: rest')
            end
          else Some (rows, r :: rest')
      end
  end.

(** The body of a GET handler, given the statement. *)
Definition handle_get (s : Api.session) (query : string → option (list R))
    (failedMsg : string) : Answer R :=
  match Api.getUserId s with
  | None => failure "Unauthorized" 401
  | Some userId =>
      if bool_decide (userId = "") then failure "Unauthorized" 401
      else
        match query userId with
        | None => failure failedMsg 500
        | Some rows => {| code := 200; payload := Rows rows |}
        end
  end.

(** The body of a POST handler, given the fields taken from the request's
    body ([None] when [request.json()] rejects or the body is [null]) and
    the statement. *)
Definition handle_post {F} (s : Api.session) (fields : option F)
    (query : string → F → option (list R * list R)) (table : list R)
    (failedMsg : string) : Answer R * list R :=
  match Api.getUserId s with
  | None => (failure "Unauthorized" 401, table)
  | Some userId =>
      if bool_decide (userId = "") then (failure "Unauthorized" 401, table)
      else
        match fields with
        | None => (failure failedMsg 500, table)
        | Some f =>
            match query userId f with
            | None => (failure failedMsg 500, table)
            | Some (rows, table') =>
                ({| code := 200; payload := Row (head rows) |}, table')
            end
        end
  end.

(** The body of a PUT handler. *)
Definition handle_put {F} (s : Api.session) (fields : option F)
    (query : string → F → option (list R * list R)) (table : list R)
    (notFound failedMsg : string) : Answer R * list R :=
  match Api.getUserId s with
  | None => (failure "Unauthorized" 401, table)
  | Some userId =>
      if bool_decide (userId = "") then (failure "Unauthorized" 401, table)
      else
        match fields with
        | None => (failure failedMsg 500, table)
        | Some f =>
            match query userId f with
            | None => (failure failedMsg 500, table)
            | Some (rows, table') =>
                if bool_decide (length rows = 0%nat)
                then (failure notFound 404, table')
                else ({| code := 200; payload := Row (head rows) |}, table')
            end
        end
  end.

End Statements.

(** [const { id, date, desc, amount, notes } = body]. *)
Definition income_fields (body : option value)
    : option (value * value * value * value * value) :=
  b ← body;
  id ← get b "id"; date ← get b "date"; desc ← get b "desc";
  amount ← get b "amount"; notes ← get b "notes";
  Some (id, date, desc, amount, notes).

(** [const { id, date, category, desc, amount, notes } = body]. *)
Definition expense_fields (body : option value)
    : option (value * value * value * value * value * value) :=
  b ← body;
  id ← get b "id"; date ← get b "date"; category ← get b "category";
  desc ← get b "desc"; amount ← get b "amount"; notes ← get b "notes";
  Some (id, date, category, desc, amount, notes).

(** The row [INSERT INTO income] stores for its six values, at the time
    [now] of CURRENT_TIMESTAMP. *)
Definition income_inserted (P : Postgres) (now : Z) (userId : string)
    (f : value * value * value * value * value) : option IncomeRecord.t :=
  let '(id, date, desc, amount, notes) := f in
  k ← prepareValue P id;
  d ← prepareValue P date;
  de ← prepareValue P desc;
  a ← prepareValue P amount;
  Some (IncomeRecord.mk (varchar P 255 k) (varchar P 255 userId) (varchar P 50 d)
          de (decimal P a) (prepareValue P (or_else notes VNull)) now now).

(** What [UPDATE income SET] makes of a row. *)
Definition income_updated (P : Postgres) (now : Z)
    (f : value * value * value * value * value) (r : IncomeRecord.t)
    : option IncomeRecord.t :=
  let '(id, date, desc, amount, notes) := f in
  d ← prepareValue P date;
  de ← prepareValue P desc;
  a ← prepareValue P amount;
  Some (IncomeRecord.mk (IncomeRecord.id r) (IncomeRecord.user_id r)
          (varchar P 50 d) de (decimal P a)
          (prepareValue P (or_else notes VNull)) (IncomeRecord.created_at r) now).

Definition expense_inserted (P : Postgres) (now : Z) (userId : string)
    (f : value * value * value * value * value * value) : option ExpenseRecord.t :=
  let '(id, date, category, desc, amount, notes) := f in
  k ← prepareValue P id;
  d ← prepareValue P date;
  c ← prepareValue P category;
  de ← prepareValue P desc;
  a ← prepareValue P amount;
  Some (ExpenseRecord.mk (varchar P 255 k) (varchar P 255 userId) (varchar P 50 d)
          (varchar P 255 c) de (decimal P a)
          (prepareValue P (or_else notes VNull)) now now).

Definition expense_updated (P : Postgres) (now : Z)
    (f : value * value * value * value * value * value) (r : ExpenseRecord.t)
    : option ExpenseRecord.t :=
  let '(id, date, category, desc, amount, notes) := f in
  d ← prepareValue P date;
  c ← prepareValue P category;
  de ← prepareValue P desc;
  a ← prepareValue P amount;
  Some (ExpenseRecord.mk (ExpenseRecord.id r) (ExpenseRecord.user_id r)
          (varchar P 50 d) (varchar P 255 c) de (decimal P a)
          (prepareValue P (or_else notes VNull)) (ExpenseRecord.created_at r) now).

(** [ORDER BY date DESC, created_at DESC]: the first row is not after the
    second one. *)
Definition newest_first (P : Postgres) (date1 date2 : string) (created1 created2 : Z)
    : Prop :=
  sorts_after P date1 date2 = true ∨
  (sorts_after P date2 date1 = false ∧ (created2 ≤ created1)%Z).

Definition income_order (P : Postgres) (r1 r2 : IncomeRecord.t) : Prop :=
  newest_first P (IncomeRecord.date r1) (IncomeRecord.date r2)
    (IncomeRecord.created_at r1) (IncomeRecord.created_at r2).

Definition expense_order (P : Postgres) (r1 r2 : ExpenseRecord.t) : Prop :=
  newest_first P (ExpenseRecord.date r1) (ExpenseRecord.date r2)
    (ExpenseRecord.created_at r1) (ExpenseRecord.created_at r2).

#[global] Instance newest_first_dec P d1 d2 c1 c2 : Decision (newest_first P d1 d2 c1 c2).
Proof. unfold newest_first. apply _. Defined.

#[global] Instance income_order_dec P : RelDecision (income_order P).
Proof. intros r1 r2. unfold income_order. apply _. Defined.

#[global] Instance expense_order_dec P : RelDecision (expense_order P).
Proof. intros r1 r2. unfold expense_order. apply _. Defined.

(** The handlers of [/api/income]. *)
Definition GET_income (P : Postgres) (up : bool) (s : Api.session)
    (table : list IncomeRecord.t) : Answer IncomeRecord.t :=
  handle_get s
    (λ userId,
       if up then Some (select_where IncomeRecord.user_id
                          (merge_sort (income_order P)) userId table)
       else None)
    "Failed to fetch income".

Definition POST_income (P : Postgres) (up : bool) (now : Z) (s : Api.session)
    (body : option value) (table : list IncomeRecord.t)
    : Answer IncomeRecord.t * list IncomeRecord.t :=
  handle_post s (income_fields body)
    (λ userId f,
       if up then insert_returning IncomeRecord.id (income_inserted P now userId f) table
       else None)
    table "Failed to create income".

Definition PUT_income (P : Postgres) (up : bool) (now : Z) (s : Api.session)
    (body : option value) (table : list IncomeRecord.t)
    : Answer IncomeRecord.t * list IncomeRecord.t :=
  handle_put s (income_fields body)
    (λ userId f,
       if up then update_returning IncomeRecord.id IncomeRecord.user_id
                    (prepareValue P f.1.1.1.1) userId (income_updated P now f) table
       else None)
    table "Income not found" "Failed to update income".

(** The handlers of [/api/expenses]. *)
Definition GET_expenses (P : Postgres) (up : bool) (s : Api.session)
    (table : list ExpenseRecord.t) : Answer ExpenseRecord.t :=
  handle_get s
    (λ userId,
       if up then Some (select_where ExpenseRecord.user_id
                          (merge_sort (expense_order P)) userId table)
       else None)
    "Failed to fetch expenses".

Definition POST_expenses (P : Postgres) (up : bool) (now : Z) (s : Api.session)
    (body : option value) (table : list ExpenseRecord.t)
    : Answer ExpenseRecord.t * list ExpenseRecord.t :=
  handle_post s (expense_fields body)
    (λ userId f,
       if up then insert_returning ExpenseRecord.id (expense_inserted P now userId f) table
       else None)
    table "Failed to create expense".

Definition PUT_expenses (P : Postgres) (up : bool) (now : Z) (s : Api.session)
    (body : option value) (table : list ExpenseRecord.t)
    : Answer ExpenseRecord.t * list ExpenseRecord.t :=
  handle_put s (expense_fields body)
    (λ userId f,
       if up then update_returning ExpenseRecord.id ExpenseRecord.user_id
                    (prepareValue P f.1.1.1.1.1) userId (expense_updated P now f) table
       else None)
    table "Expense not found" "Failed to update expense".

(** ** The connection pool *)

(** The module variable [pool], and the number of pools constructed so far;
    a pool is named by its rank among them. *)
Record Pools : Type := { pool : option nat; constructed : nat }.

(** The module as loaded. *)
Definition no_pool : Pools := {| pool := None; constructed := 0 |}.

(** [getPool]: the pool returned and the module left. *)
Definition getPool (m : Pools) : nat * Pools :=
  match pool m with
  | Some p => (p, m)
  | None =>
      (constructed m,
       {| pool := Some (constructed m); constructed := S (constructed m) |})
  end.

(** [query]: the statement is run on the pool of [getPool]; what the pool
    returns is returned, and what it throws ([None]) is thrown again. *)
Definition query {A} (run : nat → string → list value → option A)
    (text : string) (params : list value) (m : Pools) : option A * Pools :=
  let '(p, m') := getPool m in (run p text params, m').

(** Calls of [query], one after the other: their results. *)
Fixpoint queries {A} (run : nat → string → list value → option A)
    (calls : list (string * list value)) (m : Pools) : list (option A) * Pools :=
  match calls with
  | [] => ([], m)
  | (text, params) :: rest =>
      let '(a, m1) := query run text params m in
      let '(others, m2) := queries run rest m1 in
      (a :: others, m2)
  end.

(** ** Sample inputs *)

(** Built-ins that agree with ECMAScript on the strings the examples use:
    [Number("")] is 0, [Number("1e999")] is Infinity, a digit string reads as
    its integer, and [Number] of other text here is NaN; [trim] leaves a
    string without white space as it is. *)
Definition sample_builtins : Builtins := {|
  StringToNumber := λ s,
    if bool_decide (s = "") then 0%js
    else if bool_decide (s = "1e999") then Infinity
    else if bool_decide (s = "1500000") then of_Z 1500000
    else if bool_decide (s = "35000") then of_Z 35000
    else if bool_decide (s = "1388.5") then Finite (Q2Qc (2777 # 2))
    else NaN;
  formatFinite := λ q, "<number>";
  trim := λ s, s;
  clock36 := λ n, ("lq3k9f2" ++ pretty n)%string;
  random36 := λ n, "x7p2qa";
  toISOString := λ n, "2024-01-03T00:00:00.000Z";
  nullReadMessage := λ k,
    ("Cannot read properties of null (reading '" ++ k ++ "')")%string
|}.

Definition sample_expense (c : string) (a : number) : ExpenseRow.t :=
  ExpenseRow.mk (VStr "e") (VStr "2024-01-02") (VStr c) (VStr "Expense") a (VStr "").

Definition sample_income (i : string) (a : number) : IncomeRow.t :=
  IncomeRow.mk (VStr i) (VStr "2024-01-01") (VStr "Income") a (VStr "").

(** A document with a record without id, a record with a non-numeric
    amount, a negative amount and a blank category. *)
Definition sample_document : value :=
  VObj [("version", VNum 1%js);
        ("income",
         VArr [VObj [("date", VStr "2024-01-01"); ("amount", VNum (of_Z 3000000))];
               VObj [("id", VStr "keep"); ("amount", VStr "abc")]]);
        ("expenses",
         VArr [VObj [("id", VStr "e1"); ("amount", VNum (of_Z (-7)))];
               VObj [("category", VStr "Food & Drinks");
                     ("amount", VNum (of_Z 35000))]]);
        ("categories", VArr [VStr "Food & Drinks"; VStr "Rent"])].

(** ** Predicates and auxiliary functions of the statements *)

Import Api.

(** A number that is finite or +Infinity: what a sum keeps being when no
    term is NaN or -Infinity. *)
Definition bounded_below (x : number) : Prop :=
  match x with Finite _ | Infinity => True | _ => False end.

(** The category of no expense is a name [byCat] inherits. *)
Definition own_names (B : Builtins) (es : list ExpenseRow.t) : Prop :=
  Forall (λ e, ToString B (ExpenseRow.category e) ∉ Object_prototype_names) es.

#[global] Instance own_names_dec B es : Decision (own_names B es).
Proof. unfold own_names. apply _. Defined.

(** Closed decidable statements are settled by evaluation. *)
Ltac by_evaluation := apply (bool_decide_unpack _); vm_compute; exact I.

(** Every slot holds a number of the kind [P]. *)
Definition slots (P : number → Prop) (m : gmap string slot) : Prop :=
  ∀ k v, m !! k = Some v → ∃ n, v = SNumber n ∧ P n.

Definition not_infinite (x : number) : Prop :=
  x ≠ Infinity ∧ x ≠ NegInfinity.

#[global] Instance not_infinite_dec x : Decision (not_infinite x).
Proof. unfold not_infinite. apply _. Defined.

Definition finite (x : number) : Prop :=
  match x with Finite _ => True | _ => False end.

(** A number that is not negative and not NaN. *)
Definition nonnegative (x : number) : Prop :=
  match x with
  | Finite q => 0 ≤ q
  | Infinity => True
  | _ => False
  end.

(** The finite amount a slot holds under a key, 0 when there is none. *)
Definition amount_at (m : gmap string slot) (k : string) : Qc :=
  match m !! k with
  | Some (SNumber (Finite c)) => c
  | _ => 0
  end.

(** An element of a document's array whose properties can be read. *)
Definition readable (n : value) : Prop :=
  match n with VUndefined | VNull => False | _ => True end.

#[global] Instance readable_dec n : Decision (readable n).
Proof. destruct n; simpl; apply _. Defined.

(** The element has no usable id: [uid] is called for it. *)
Definition missing_id (n : value) : bool := negb (truthy (get_opt n "id")).

(** The row built from [n] when the next call of [uid] is the [t]-th. *)
Definition income_row (B : Builtins) (n : value) (t : nat) : IncomeRow.t :=
  IncomeRow.mk
    (if missing_id n then VStr (uid B t) else get_opt n "id")
    (or_else (get_opt n "date") (VStr ""))
    (or_else (get_opt n "desc") (VStr ""))
    (Math_max 0 (ToNumber B (or_else (get_opt n "amount") (VNum 0%js))))
    (or_else (get_opt n "notes") (VStr "")).

Definition expense_row (B : Builtins) (n : value) (t : nat) : ExpenseRow.t :=
  ExpenseRow.mk
    (if missing_id n then VStr (uid B t) else get_opt n "id")
    (or_else (get_opt n "date") (VStr ""))
    (or_else (get_opt n "category") (VStr "Other"))
    (or_else (get_opt n "desc") (VStr ""))
    (Math_max 0 (ToNumber B (or_else (get_opt n "amount") (VNum 0%js))))
    (or_else (get_opt n "notes") (VStr "")).

(** The number of calls of [uid] made for the first [i] elements. *)
Definition missing_before (l : list value) (i : nat) : nat :=
  length (filter (λ n, missing_id n = true) (take i l)).

(** A value [Set] compares by value: anything but an array or an object. *)
Definition primitive (v : value) : Prop := same_value_zero v v = true.

#[global] Instance primitive_dec v : Decision (primitive v).
Proof. unfold primitive. apply _. Defined.

(** A value that is a string, and one that is a non-empty string. *)
Definition text (v : value) : Prop := ∃ t, v = VStr t.
Definition nonblank (v : value) : Prop := ∃ t, v = VStr t ∧ t ≠ "".
Definition optional_text (v : value) : Prop := v = VUndefined ∨ text v.

(** An amount the import leaves as it is: finite and not negative. *)
Definition amount_kept (a : number) : Prop := ∃ q, a = Finite q ∧ 0 ≤ q.

(** The records the round trip is stated for: the id a non-empty string,
    the date a string, the amount finite and not negative, the category of
    an expense a non-empty string; description and notes a string or
    absent. *)
Definition income_kept (r : IncomeRow.t) : Prop :=
  nonblank (IncomeRow.id r) ∧ text (IncomeRow.date r) ∧
  optional_text (IncomeRow.desc r) ∧ amount_kept (IncomeRow.amount r) ∧
  optional_text (IncomeRow.notes r).

Definition expense_kept (r : ExpenseRow.t) : Prop :=
  nonblank (ExpenseRow.id r) ∧ text (ExpenseRow.date r) ∧
  nonblank (ExpenseRow.category r) ∧ optional_text (ExpenseRow.desc r) ∧
  amount_kept (ExpenseRow.amount r) ∧ optional_text (ExpenseRow.notes r).

#[global] Instance text_dec v : Decision (text v).
Proof.
  destruct v; try (right; by intros [??]). left. by eexists.
Defined.

#[global] Instance nonblank_dec v : Decision (nonblank v).
Proof.
  destruct v as [| | | |t| |]; try (right; by intros (? & ? & ?)).
  destruct (decide (t = "")) as [->|Ht].
  - right. by intros (? & [= <-] & ?).
  - left. by exists t.
Defined.

#[global] Instance optional_text_dec v : Decision (optional_text v).
Proof.
  destruct v; try (right; by intros [?|[??]]).
  - left. by left.
  - left. right. by eexists.
Defined.

#[global] Instance amount_kept_dec a : Decision (amount_kept a).
Proof.
  destruct a as [| |q|]; try (right; by intros (? & ? & ?)).
  destruct (decide (0 ≤ q)) as [Hq|Hq].
  - left. by exists q.
  - right. intros (q' & Heq & ?).
    apply (f_equal (λ x, match x with Finite q => q | _ => 0 end)) in Heq.
    by subst q'.
Defined.

#[global] Instance income_kept_dec r : Decision (income_kept r).
Proof. unfold income_kept. apply _. Defined.

#[global] Instance expense_kept_dec r : Decision (expense_kept r).
Proof. unfold expense_kept. apply _. Defined.

(** Default-filling of an absent optional field. *)
Definition filled (v : value) : value :=
  match v with VUndefined => VStr "" | _ => v end.

Definition fill_income (r : IncomeRow.t) : IncomeRow.t :=
  IncomeRow.mk (IncomeRow.id r) (IncomeRow.date r) (filled (IncomeRow.desc r))
    (IncomeRow.amount r) (filled (IncomeRow.notes r)).

Definition fill_expense (r : ExpenseRow.t) : ExpenseRow.t :=
  ExpenseRow.mk (ExpenseRow.id r) (ExpenseRow.date r) (ExpenseRow.category r)
    (filled (ExpenseRow.desc r)) (ExpenseRow.amount r)
    (filled (ExpenseRow.notes r)).

(** The ledger holding one income record and one expense record. *)
Definition ledger_of (i : IncomeRow.t) (e : ExpenseRow.t) : State :=
  setExpenses (λ _, [e]) (setIncome (λ _, [i]) initial).

(** A form filled in as a user would, and one whose amount is the text
    [1e999], which [Number] reads as +Infinity. *)
Definition form_1500000 : State :=
  setIncomeForm (λ _, IncomeForm.mk "2024-01-01" "" "1500000" "") initial.

Definition form_1e999 : State :=
  setIncomeForm (λ _, IncomeForm.mk "2024-01-01" "Salary" "1e999" "") initial.

(** The rate the page relies on: finite and strictly positive. *)
Definition usable (r : number) : Prop :=
  isFinite r = true ∧ (0 <? r)%js = true.

(** Category names that differ even when case is ignored. *)
Definition distinct_names (H : Host) (cs : list value) : Prop :=
  ∃ names, cs = VStr <$> names ∧ NoDup (toLowerCase H <$> names).

(** A host whose strings are plain ASCII without capitals. *)
Definition sample_host : Host := {|
  toLowerCase := λ s, s;
  encodeURIComponent := λ s, s;
  String_length := String.length
|}.

(** The elements of an answer that is an array, none otherwise. *)
Definition rows_of (data : value) : list value :=
  if isArray data then items_of data else [].

(** The row built from a readable element of the income answer, and of the
    expenses answer. *)
Definition loaded_income_row (B : Builtins) (r : value) : IncomeRow.t :=
  IncomeRow.mk (get_opt r "id") (get_opt r "date")
    (or_else (get_opt r "description") (get_opt r "desc"))
    (ToNumber B (get_opt r "amount")) (or_else (get_opt r "notes") (VStr "")).

Definition loaded_expense_row (B : Builtins) (r : value) : ExpenseRow.t :=
  ExpenseRow.mk (get_opt r "id") (get_opt r "date") (get_opt r "category")
    (or_else (get_opt r "description") (get_opt r "desc"))
    (ToNumber B (get_opt r "amount")) (or_else (get_opt r "notes") (VStr "")).

(** Rows as the routes send them: the description under [description], the
    amount as the text of a decimal. *)
Definition sample_income_answer : value :=
  VArr [VObj [("id", VStr "i1"); ("user_id", VStr "u1"); ("date", VStr "2024-01-01");
              ("description", VStr "Salary"); ("amount", VStr "1500000");
              ("notes", VNull)]].

Definition sample_expenses_answer : value :=
  VArr [VObj [("id", VStr "e1"); ("user_id", VStr "u1"); ("date", VStr "2024-01-02");
              ("category", VStr "Rent"); ("description", VStr "January");
              ("amount", VStr "35000"); ("notes", VStr "paid")]].

(** [Number(String(x))] is [x] again. *)
Definition reads_back (B : Builtins) (x : number) : Prop :=
  number_to_string B x ≠ "" ∧ StringToNumber B (number_to_string B x) = x.

(** Built-ins that print and read the two numbers of the rate example. *)
Definition sample_printer : Builtins := {|
  StringToNumber := λ s,
    if bool_decide (s = "1388.5") then Finite (Q2Qc (2777 # 2))
    else if bool_decide (s = "1700000000000") then of_Z 1700000000000
    else NaN;
  formatFinite := λ q,
    if bool_decide (q = Q2Qc (2777 # 2)) then "1388.5"
    else if bool_decide (q = Qc_of_Z 1700000000000) then "1700000000000"
    else "<number>";
  trim := λ s, s;
  clock36 := λ n, ("lq3k9f2" ++ pretty n)%string;
  random36 := λ n, "x7p2qa";
  toISOString := λ n, "2024-01-03T00:00:00.000Z";
  nullReadMessage := λ k,
    ("Cannot read properties of null (reading '" ++ k ++ "')")%string
|}.

(** A decimal digit, and a string of two of them. *)
Definition digit (c : Ascii.ascii) : Prop :=
  (48 ≤ Ascii.nat_of_ascii c ≤ 57)%nat.

#[global] Instance digit_dec c : Decision (digit c).
Proof. unfold digit. apply _. Defined.

Definition two_digits (s : string) : Prop :=
  match s with
  | String a (String b EmptyString) => digit a ∧ digit b
  | _ => False
  end.

#[global] Instance two_digits_dec s : Decision (two_digits s).
Proof. destruct s as [|a [|b [|c s]]]; simpl; apply _. Defined.

(** A registration form filled in. *)
Definition sample_registration : Register.State :=
  {| Register.name := ""; Register.email := "a@b.c";
     Register.password := "secret1"; Register.confirmPassword := "secret1";
     Register.error := VStr ""; Register.loading := false;
     Register.theme := "dark" |}.

(** A database that stores a text as it is given, reads a decimal as the
    sample built-ins read a number, and sorts texts by their characters. *)
Definition sample_postgres : Postgres := {|
  driver_text := ToString sample_builtins;
  varchar := λ _ s, s;
  decimal := StringToNumber sample_builtins;
  sorts_after := λ a b, String.ltb b a
|}.

Definition sample_income_record (i u : string) : IncomeRecord.t :=
  IncomeRecord.mk i u "2024-01-01" "Income" (of_Z 3000000) None 0 0.

Definition sample_income_body : value :=
  VObj [("id", VStr "i3"); ("date", VStr "2024-02-01"); ("desc", VStr "Bonus");
        ("amount", VNum (of_Z 35000)); ("notes", VStr "")].

(** An expense form filled in as a user would. *)
Definition form_food_35000 : State :=
  setExpenseForm (λ _, ExpenseForm.mk "2024-01-02" "Food & Drinks" "lunch" "35000" "")
    (setExpenses (λ _, [sample_expense "Food & Drinks" (of_Z 1200000);
                        sample_expense "Transport" (of_Z 90000)]) initial).

(* ===================================================================== *)
(** * Part II: properties *)
(* ===================================================================== *)

(** ** Currency conversion *)

Lemma js_lt_not_le x y : (x <? y)%js = true → (y <=? x)%js = false.
Proof.
  destruct x, y; simpl; try done.
  intros H%bool_decide_eq_true. apply bool_decide_eq_false.
  by apply Qclt_nge.
Qed.

(** C1: for every KRW amount and every rate, [krwToUsd] returns the quotient
    [krw / rate] when the rate is finite and strictly greater than 0, and
    returns 0 when the rate is not finite (NaN or infinite) or is less than
    or equal to 0; the quotient is not rounded: on finite arguments it is the
    exact rational quotient. *)
Theorem krwToUsd_spec (krw rate : number) :
  (isFinite rate = true ∧ (0 <? rate)%js = true →
     krwToUsd krw rate = (krw / rate)%js) ∧
  (isFinite rate = false ∨ (rate <=? 0)%js = true →
     krwToUsd krw rate = 0%js) ∧
  (∀ k r : Qc, krw = Finite k → rate = Finite r → 0 < r →
     krwToUsd krw rate = Finite (k / r)).
Proof.
  unfold krwToUsd. split; [|split].
  - intros [Hfin Hpos]. rewrite Hfin. simpl.
    by rewrite (js_lt_not_le _ _ Hpos).
  - intros [Hnf | Hle].
    + by rewrite Hnf.
    + rewrite Hle. by rewrite orb_true_r.
  - intros k r -> -> Hr. simpl.
    assert (Hnle : bool_decide (r ≤ Qc_of_Z 0) = false).
    { apply bool_decide_eq_false. rewrite Z2Qc_inj_0. by apply Qclt_nge. }
    rewrite Hnle. simpl.
    assert (Hnz : bool_decide (r = 0) = false).
    { apply bool_decide_eq_false. intros ->. by apply (Qclt_not_eq 0 0). }
    by rewrite Hnz.
Qed.

(** 1,800,000 KRW at 1200 and at 1388.5 KRW per USD, and the four ways a
    rate fails the guard. *)
Example krwToUsd_sample :
  krwToUsd (of_Z 1800000) (of_Z 1200) = of_Z 1500 ∧
  krwToUsd (of_Z 1800000) (Finite (Q2Qc (2777 # 2)))
    = Finite (Q2Qc (3600000 # 2777)) ∧
  krwToUsd (of_Z 1800000) 0%js = 0%js ∧
  krwToUsd (of_Z 1800000) (of_Z (-1200)) = 0%js ∧
  krwToUsd (of_Z 1800000) NaN = 0%js ∧
  krwToUsd (of_Z 1800000) Infinity = 0%js.
Proof. split; [|split; [|split; [|split; [|split]]]]; by_evaluation. Qed.

(** ** Arithmetic of [number] *)

Lemma Finite_inj (a b : Qc) : Finite a = Finite b → a = b.
Proof.
  intros H. by apply (f_equal (λ x, match x with Finite q => q | _ => 0 end)) in H.
Qed.

Lemma of_Z_0 : 0%js = Finite 0.
Proof. unfold of_Z. by rewrite Z2Qc_inj_0. Qed.

Lemma of_Z_1 : 1%js = Finite 1.
Proof. unfold of_Z. by rewrite Z2Qc_inj_1. Qed.

Lemma js_add_comm (x y : number) : (x + y)%js = (y + x)%js.
Proof. destruct x, y; simpl; try done. by rewrite Qcplus_comm. Qed.

Lemma js_add_assoc (x y z : number) : (x + (y + z))%js = (x + y + z)%js.
Proof. destruct x, y, z; simpl; try done. by rewrite Qcplus_assoc. Qed.

Lemma js_add_0_l (x : number) : (0 + x)%js = x.
Proof. rewrite of_Z_0. destruct x; simpl; try done. by rewrite Qcplus_0_l. Qed.

(** [x || 0] changes nothing but NaN. *)
Lemma or_number_0 (x : number) : x ≠ NaN → or_number x 0 = x.
Proof.
  intros Hx. unfold or_number. destruct x; simpl; try done.
  case_bool_decide as Hq; simpl; [|done]. by rewrite Hq, of_Z_0.
Qed.

Lemma bounded_below_add x y :
  bounded_below x → bounded_below y → bounded_below (x + y)%js.
Proof. by destruct x, y. Qed.

Lemma bounded_below_or_number x :
  x ≠ NegInfinity → bounded_below (or_number x 0).
Proof.
  intros Hx. unfold or_number. destruct x; simpl; try done.
  by case_bool_decide.
Qed.

(** ** The breakdown: sums over a map *)

Lemma breakdown_sum_empty : breakdown_sum ∅ = 0%js.
Proof. unfold breakdown_sum. by rewrite map_fold_empty. Qed.

Lemma breakdown_sum_insert (m : gmap string slot) k v :
  m !! k = None →
  breakdown_sum (<[k := v]> m) = (breakdown_sum m + slot_number v)%js.
Proof.
  intros Hk. unfold breakdown_sum. rewrite map_fold_insert_L; [done| |done].
  intros j1 j2 z1 z2 y _ _ _.
  by rewrite <-!js_add_assoc, (js_add_comm (slot_number z2)).
Qed.

Lemma breakdown_sum_update (m : gmap string slot) k v v' :
  m !! k = Some v →
  breakdown_sum m = (breakdown_sum (delete k m) + slot_number v)%js ∧
  breakdown_sum (<[k := v']> m)
    = (breakdown_sum (delete k m) + slot_number v')%js.
Proof.
  intros Hk. split.
  - rewrite <-(insert_delete_id m k v) at 1 by done.
    apply breakdown_sum_insert, lookup_delete_eq.
  - rewrite <-insert_delete_eq.
    apply breakdown_sum_insert, lookup_delete_eq.
Qed.

Lemma breakdown_fold B es :
  breakdown B es = fold_left (breakdown_step B) es ∅.
Proof. done. Qed.

Lemma slots_empty P : slots P ∅.
Proof. intros k v. by rewrite lookup_empty. Qed.

Lemma breakdown_step_own B (m : gmap string slot) e :
  ToString B (ExpenseRow.category e) ∉ Object_prototype_names →
  breakdown_step B m e
  = <[ToString B (ExpenseRow.category e) :=
        slot_add (or_zero (m !! ToString B (ExpenseRow.category e)))
                 (or_number (ExpenseRow.amount e) 0)]> m.
Proof.
  intros Hk. unfold breakdown_step, object_set, object_get. simpl.
  rewrite bool_decide_eq_false_2.
  2: { intros Heq. apply Hk. rewrite Heq. unfold Object_prototype_names. set_solver. }
  destruct (m !! _) eqn:Hm; [done|].
  by rewrite bool_decide_eq_false_2.
Qed.

(** The loop keeps every slot a number of a kind that excludes NaN and is
    closed under addition, and keeps the sum of the slots equal to the
    running total. *)
Section Loop_invariant.
Variable P : number → Prop.
Hypothesis P_number : ∀ x, P x → x ≠ NaN.
Hypothesis P_add : ∀ x y, P x → P y → P (x + y)%js.
Variable B : Builtins.

Lemma breakdown_step_sum (m : gmap string slot) e :
  ToString B (ExpenseRow.category e) ∉ Object_prototype_names →
  P (or_number (ExpenseRow.amount e) 0) →
  slots P m →
  slots P (breakdown_step B m e) ∧
  breakdown_sum (breakdown_step B m e)
  = (breakdown_sum m + or_number (ExpenseRow.amount e) 0)%js.
Proof.
  intros Hk Hb Hm. rewrite breakdown_step_own by done.
  set (k := ToString B (ExpenseRow.category e)).
  destruct (m !! k) as [v|] eqn:Hmk.
  - destruct (Hm _ _ Hmk) as (n & -> & Hn). cbn [or_zero slot_add].
    assert (or_number n 0 = n) as -> by (by apply or_number_0, P_number).
    split.
    + intros j w. rewrite lookup_insert. case_decide; [|by apply Hm].
      intros [= <-]. eexists; split; [done|]. by apply P_add.
    + destruct (breakdown_sum_update m k (SNumber n)
                  (SNumber (n + or_number (ExpenseRow.amount e) 0)) Hmk)
        as [-> ->]. cbn [slot_number]. by rewrite js_add_assoc.
  - cbn [or_zero slot_add]. rewrite js_add_0_l. split.
    + intros j w. rewrite lookup_insert. case_decide; [|by apply Hm].
      intros [= <-]. by eexists.
    + by rewrite breakdown_sum_insert.
Qed.

Lemma breakdown_fold_sum es (m : gmap string slot) :
  own_names B es →
  Forall (λ e, P (or_number (ExpenseRow.amount e) 0)) es →
  slots P m →
  slots P (fold_left (breakdown_step B) es m) ∧
  breakdown_sum (fold_left (breakdown_step B) es m)
  = fold_left (λ s r, (s + or_number (ExpenseRow.amount r) 0)%js) es
      (breakdown_sum m).
Proof.
  intros Hown Hamt. revert m.
  induction es as [|e es IH]; intros m Hm; simpl; [done|].
  inversion_clear Hown. inversion_clear Hamt.
  destruct (breakdown_step_sum m e) as [Hnum Hsum]; [done..|].
  destruct (IH ltac:(done) ltac:(done) _ Hnum) as [? ->].
  by rewrite Hsum.
Qed.

Lemma breakdown_slots_sum es :
  own_names B es →
  Forall (λ e, P (or_number (ExpenseRow.amount e) 0)) es →
  slots P (breakdown B es) ∧
  breakdown_sum (breakdown B es) = sum_expenses es.
Proof.
  intros Hown Hamt. unfold sum_expenses. rewrite breakdown_fold.
  destruct (breakdown_fold_sum es ∅ Hown Hamt) as [? ->].
  - apply slots_empty.
  - by rewrite breakdown_sum_empty.
Qed.

End Loop_invariant.



(** C2: the sum of the per-category amounts of the breakdown should equal
    the total of the expenses.  For the single expense of 35000 in a
    category named [constructor] it does not: the read of [byCat] finds the
    inherited [Object.prototype.constructor], adding the amount to it gives
    a string, and that string is what the breakdown holds, so the sum of its
    amounts reads NaN while the total is 35000; the row of the table for the
    category reads NaN as well.  An inherited name is read even when no
    expense carries it. *)
Theorem breakdown_constructor :
  breakdown sample_builtins [sample_expense "constructor" (of_Z 35000)]
    !! "constructor" = Some SText ∧
  breakdown_sum
    (breakdown sample_builtins [sample_expense "constructor" (of_Z 35000)])
    = NaN ∧
  expenseKRW (totals [] [sample_expense "constructor" (of_Z 35000)] 0%js)
    = of_Z 35000 ∧
  pct sample_builtins [sample_expense "constructor" (of_Z 35000)]
    (VStr "constructor") = NaN ∧
  amt sample_builtins [] (VStr "toString") = SText.
Proof. split; [|split; [|split; [|split]]]; by_evaluation. Qed.

(** The ledger of the specification's example: an income of 3,000,000, an
    expense of 1,200,000 in "Food & Drinks", the rate 1200. *)
Example totals_sample :
  let t := totals [sample_income "a" (of_Z 3000000)]
             [sample_expense "Food & Drinks" (of_Z 1200000)] (of_Z 1200) in
  incomeKRW t = of_Z 3000000 ∧ expenseKRW t = of_Z 1200000 ∧
  remainingKRW t = of_Z 1800000 ∧ remainingUSD t = of_Z 1500 ∧
  pct sample_builtins [sample_expense "Food & Drinks" (of_Z 1200000)]
    (VStr "Food & Drinks") = 100%js.
Proof. cbv zeta. split; [|split; [|split; [|split]]]; by_evaluation. Qed.

(** ** Percentages *)

Lemma finite_or_number x : not_infinite x → finite (or_number x 0).
Proof.
  intros [??]. unfold or_number. destruct x; simpl; try done.
  by case_bool_decide.
Qed.

Lemma finite_add x y : finite x → finite y → finite (x + y)%js.
Proof. by destruct x, y. Qed.

(** The percentage of a category whose slot holds the finite amount [c],
    when the total is the finite, non-zero [t]. *)
Lemma pct_finite B es k c t :
  breakdown B es !! k = Some (SNumber (Finite c)) →
  sum_expenses es = Finite t → t ≠ 0 →
  pct B es (VStr k) = Finite (c / t * Qc_of_Z 100).
Proof.
  intros Hk Ht Hnz. unfold pct, amt, object_get. cbn [ToString].
  rewrite Hk, Ht. cbn [or_zero slot_number].
  rewrite or_number_0 by done.
  unfold or_number. cbn [truthy_number].
  rewrite (bool_decide_eq_false_2 (t = 0)) by done. cbn [negb js_div].
  by rewrite (bool_decide_eq_false_2 (t = 0)) by done.
Qed.

(** Two folds over the entries of a map whose slots are finite: the amounts
    and the percentages [h]. *)
Lemma entries_scaled (h : string → number) (t : Qc) (l : list (string * slot)) :
  (∀ k v, (k, v) ∈ l →
     ∃ c, v = SNumber (Finite c) ∧ h k = Finite (c / t * Qc_of_Z 100)) →
  ∃ T,
    foldr (uncurry (λ (_ : string) v acc, (acc + slot_number v)%js)) 0%js l
      = Finite T ∧
    foldr (uncurry (λ k (_ : slot) acc, (acc + h k)%js)) 0%js l
      = Finite (T / t * Qc_of_Z 100).
Proof.
  induction l as [|[k v] l IH]; intros Hl.
  - exists 0. simpl. rewrite of_Z_0. split; [done|].
    f_equal; unfold Qcdiv; ring.
  - destruct IH as (T & HT1 & HT2).
    { intros k' v' Hin. apply Hl. by right. }
    destruct (Hl k v) as (c & -> & Hh); [by left|].
    exists (T + c). cbn [foldr uncurry]. simpl in *. rewrite HT1, HT2, Hh.
    simpl. split; [done|]. f_equal; unfold Qcdiv; ring.
Qed.

Lemma sum_expenses_positive es t :
  sum_expenses es = Finite t → (0 <? sum_expenses es)%js = true → 0 < t.
Proof.
  intros ->. rewrite of_Z_0. simpl. by intros ?%bool_decide_eq_true.
Qed.

Lemma sum_expenses_finite es :
  Forall (λ e, not_infinite (ExpenseRow.amount e)) es → finite (sum_expenses es).
Proof.
  unfold sum_expenses. intros Hes.
  assert (∀ acc, finite acc →
            finite (fold_left (λ s r, (s + or_number (ExpenseRow.amount r) 0)%js)
                      es acc)) as Hgen; [|by apply Hgen].
  induction Hes as [|e es He Hes IH]; intros acc Hacc; [done|].
  simpl. apply IH. by apply finite_add, finite_or_number.
Qed.

(** With finite amounts and a positive total the percentages add up to
    100. *)
Lemma pct_sum_100 B es :
  own_names B es →
  Forall (λ e, not_infinite (ExpenseRow.amount e)) es →
  (0 <? sum_expenses es)%js = true →
  pct_sum B es = 100%js.
Proof.
  intros Hown Hfin Hpos.
  destruct (breakdown_slots_sum finite (λ x, ltac:(by destruct x))
              finite_add B es Hown) as [Hslots Hsum].
  { eapply Forall_impl; [exact Hfin|]. intros e. apply finite_or_number. }
  assert (∃ t, sum_expenses es = Finite t) as [t Ht].
  { pose proof (sum_expenses_finite es Hfin) as Hf.
    destruct (sum_expenses es); try done. by eexists. }
  pose proof (sum_expenses_positive es t Ht Hpos) as Htpos.
  assert (t ≠ 0) as Hnz by (intros ->; by apply (Qclt_not_eq 0 0)).
  unfold pct_sum. rewrite map_fold_foldr.
  unfold breakdown_sum in Hsum. rewrite map_fold_foldr in Hsum.
  destruct (entries_scaled (λ k, pct B es (VStr k)) t
              (map_to_list (breakdown B es))) as (T & HT1 & HT2).
  { intros k v Hin%elem_of_map_to_list.
    destruct (Hslots _ _ Hin) as (n & -> & Hn).
    destruct n as [| |c|]; try done. exists c. split; [done|].
    by apply pct_finite. }
  rewrite HT2. rewrite HT1, Ht in Hsum. injection Hsum as ->.
  unfold of_Z. f_equal. unfold Qcdiv.
  by rewrite Qcmult_inv_r, Qcmult_1_l.
Qed.

Lemma nonnegative_or_number x : (x <? 0)%js = false → nonnegative (or_number x 0).
Proof.
  rewrite of_Z_0. unfold or_number. destruct x; simpl; try done.
  intros Hq%bool_decide_eq_false. case_bool_decide; simpl; [done|].
  by apply Qcnot_lt_le.
Qed.

Lemma nonnegative_add x y : nonnegative x → nonnegative y → nonnegative (x + y)%js.
Proof. destruct x, y; simpl; try done. apply Qcplus_nonneg_nonneg. Qed.

Lemma nonnegative_add_0 x y :
  nonnegative x → nonnegative y → (x + y)%js = Finite 0 →
  x = Finite 0 ∧ y = Finite 0.
Proof.
  destruct x as [| |a|], y as [| |b|]; simpl; try done.
  intros Ha Hb Hab.
  apply (f_equal (λ x, match x with Finite q => q | _ => 0 end)) in Hab.
  assert (a = 0).
  { apply Qcle_antisym; [|done]. rewrite <-Hab.
    rewrite <-(Qcplus_0_r a) at 1. by apply Qcplus_le_mono_l. }
  subst a. rewrite Qcplus_0_l in Hab. by subst b.
Qed.

(** A sum of non-negative terms that is zero has only zero terms. *)
Lemma sum_zero_terms es acc :
  nonnegative acc →
  Forall (λ e, nonnegative (or_number (ExpenseRow.amount e) 0)) es →
  fold_left (λ s r, (s + or_number (ExpenseRow.amount r) 0)%js) es acc
    = Finite 0 →
  acc = Finite 0 ∧
  Forall (λ e, or_number (ExpenseRow.amount e) 0 = Finite 0) es.
Proof.
  revert acc. induction es as [|e es IH]; intros acc Hacc Hes; simpl.
  - by intros ->.
  - inversion_clear Hes as [|?? He Hes']. intros Hsum.
    destruct (IH _ (nonnegative_add _ _ Hacc He) Hes' Hsum) as [H0 Hrest].
    destruct (nonnegative_add_0 _ _ Hacc He H0) as [-> He0].
    split; [done|]. by constructor.
Qed.

(** When every term is zero, every slot holds zero. *)
Lemma breakdown_fold_zero B es (m : gmap string slot) :
  own_names B es →
  Forall (λ e, or_number (ExpenseRow.amount e) 0 = Finite 0) es →
  slots (λ n, n = Finite 0) m →
  slots (λ n, n = Finite 0) (fold_left (breakdown_step B) es m).
Proof.
  intros Hown Hz Hm.
  apply (breakdown_fold_sum (λ n, n = Finite 0)); try done.
  - by intros x ->.
  - intros x y -> ->. simpl. by rewrite Qcplus_0_l.
Qed.

(** With no negative amount and a total of zero every category is at 0
    percent. *)
Lemma pct_zero B es cat :
  own_names B es →
  Forall (λ e, (ExpenseRow.amount e <? 0)%js = false) es →
  sum_expenses es = 0%js →
  ToString B cat ∉ Object_prototype_names →
  pct B es cat = 0%js.
Proof.
  intros Hown Hneg Hsum Hcat.
  assert (Forall (λ e, nonnegative (or_number (ExpenseRow.amount e) 0)) es) as Hnn.
  { eapply Forall_impl; [exact Hneg|]. intros e. apply nonnegative_or_number. }
  destruct (sum_zero_terms es (Finite 0)) as [_ Hz]; [done|done| |].
  { rewrite <-of_Z_0. exact Hsum. }
  pose proof (breakdown_fold_zero B es ∅ Hown Hz (slots_empty _)) as Hslots.
  rewrite <-breakdown_fold in Hslots.
  unfold pct, amt, object_get. rewrite Hsum.
  destruct (breakdown B es !! ToString B cat) as [v|] eqn:Hv.
  - destruct (Hslots _ _ Hv) as (n & -> & ->). by_evaluation.
  - rewrite bool_decide_eq_false_2 by done. by_evaluation.
Qed.




(** *** The rows of the breakdown table *)

Lemma amount_at_delete (m : gmap string slot) k k' :
  k ≠ k' → amount_at (delete k m) k' = amount_at m k'.
Proof. intros Hne. unfold amount_at. by rewrite lookup_delete_ne. Qed.

(** The amounts under a list of distinct keys that covers the map add up to
    the sum of the map. *)
Lemma breakdown_sum_keys (ks : list string) :
  NoDup ks →
  ∀ m : gmap string slot,
    slots finite m →
    (∀ k, is_Some (m !! k) → k ∈ ks) →
    breakdown_sum m = Finite (foldr Qcplus 0 (amount_at m <$> ks)).
Proof.
  induction 1 as [|k ks Hk Hks IH]; intros m Hm Hdom.
  - assert (m = ∅) as ->.
    { apply map_empty. intros k. apply eq_None_not_Some. intros Hs.
      by apply Hdom, elem_of_nil in Hs. }
    by rewrite breakdown_sum_empty, of_Z_0.
  - assert (amount_at m <$> ks = amount_at (delete k m) <$> ks) as Hrest.
    { apply list_fmap_ext. intros i k' Hk'. symmetry. apply amount_at_delete.
      intros <-. by apply Hk, (list_elem_of_lookup_2 _ i). }
    assert (breakdown_sum (delete k m)
            = Finite (foldr Qcplus 0 (amount_at (delete k m) <$> ks))) as Hdel.
    { apply IH.
      - intros j v Hj. apply lookup_delete_Some in Hj as [_ Hj].
        by apply (Hm j v).
      - intros j [v Hj]. apply lookup_delete_Some in Hj as [Hne Hj].
        pose proof (Hdom j (mk_is_Some _ _ Hj)) as Hin.
        apply elem_of_cons in Hin as [->|Hin]; done. }
    cbn [fmap list_fmap foldr]. rewrite Hrest.
    destruct (m !! k) as [v|] eqn:Hmk.
    + destruct (Hm _ _ Hmk) as (n & -> & Hn). destruct n as [| |c|]; try done.
      assert (amount_at m k = c) as -> by (unfold amount_at; by rewrite Hmk).
      destruct (breakdown_sum_update m k _ (SNumber 0%js) Hmk) as [-> _].
      rewrite Hdel. cbn. by rewrite Qcplus_comm.
    + assert (amount_at m k = 0) as -> by (unfold amount_at; by rewrite Hmk).
      rewrite <-(delete_id m k) at 1 by done. rewrite Hdel.
      by rewrite Qcplus_0_l.
Qed.

(** The keys of the breakdown are categories of the expenses. *)
Lemma breakdown_keys B es (m : gmap string slot) k :
  is_Some (fold_left (breakdown_step B) es m !! k) →
  is_Some (m !! k) ∨ ∃ e, e ∈ es ∧ ToString B (ExpenseRow.category e) = k.
Proof.
  revert m. induction es as [|e es IH]; intros m; simpl; [by left|].
  intros [Hs|(e' & He' & Hk)]%IH.
  - unfold breakdown_step, object_set in Hs. case_bool_decide; [by left|].
    rewrite lookup_insert in Hs. case_decide as Hkey; [|by left].
    right. exists e. split; [by left|done].
  - right. exists e'. split; [by right|done].
Qed.

(** A row of the table for a key that is not inherited, over finite slots
    and a finite non-zero total. *)
Lemma pct_at B es cat t :
  ToString B cat ∉ Object_prototype_names →
  slots finite (breakdown B es) →
  sum_expenses es = Finite t → t ≠ 0 →
  pct B es cat
  = Finite (amount_at (breakdown B es) (ToString B cat) / t * Qc_of_Z 100).
Proof.
  intros Hcat Hslots Ht Hnz. unfold pct, amt, object_get, amount_at.
  rewrite Ht. unfold or_number. cbn [truthy_number].
  rewrite (bool_decide_eq_false_2 (t = 0)) by done. cbn [negb].
  destruct (breakdown B es !! ToString B cat) as [v|] eqn:Hv.
  - destruct (Hslots _ _ Hv) as (n & -> & Hn). destruct n as [| |c|]; try done.
    cbn [or_zero slot_number]. rewrite or_number_0 by done. cbn [js_div].
    by rewrite (bool_decide_eq_false_2 (t = 0)) by done.
  - rewrite bool_decide_eq_false_2 by done. cbn [or_zero slot_number].
    rewrite of_Z_0. cbn [js_div js_mul of_Z].
    by rewrite (bool_decide_eq_false_2 (t = 0)) by done.
Qed.

Lemma table_fold B es t (cats : list value) (a : Qc) :
  Forall (λ cat, ToString B cat ∉ Object_prototype_names) cats →
  slots finite (breakdown B es) →
  sum_expenses es = Finite t → t ≠ 0 →
  fold_left (λ acc cat, (acc + pct B es cat)%js) cats (Finite a)
  = Finite (a + foldr Qcplus 0
                  (amount_at (breakdown B es) <$> (ToString B <$> cats))
                / t * Qc_of_Z 100).
Proof.
  intros Hcats Hslots Ht Hnz. revert a.
  induction Hcats as [|cat cats Hcat Hcats IH]; intros a.
  - simpl. f_equal. unfold Qcdiv. ring.
  - cbn [fold_left fmap list_fmap foldr].
    rewrite (pct_at B es cat t) by done. cbn [js_add]. rewrite IH.
    f_equal. unfold Qcdiv. ring.
Qed.



(** The list of categories can lack the category of an expense: after the
    import of a document that lists only "Rent", an expense entered with a
    blank category is filed under "Other", which the table has no row for.
    The table then shows 0 percent in all. *)
Example table_without_row :
  let page :=
    run sample_builtins
      [FilePicked
         (Readable (Document (VObj [("income", VArr []); ("expenses", VArr []);
                                    ("categories", VArr [VStr "Rent"])])))
         true;
       EditExpenseForm (ExpenseForm.mk "2024-01-02" "" "" "35000" "");
       AddExpense Accepted] ∅ in
  categories page.1 = [VStr "Rent"] ∧
  ExpenseRow.category <$> expenses page.1 = [VStr "Other"] ∧
  table_pct_sum sample_builtins (expenses page.1) (categories page.1) = 0%js.
Proof. cbv zeta. split; [|split]; by_evaluation || by vm_compute. Qed.

(** ** Import *)

(** C5: for every input document in which [income] is not a list or
    [expenses] is not a list, and for every text that is not valid JSON, the
    import is rejected: the income, expense and category state (and the
    rate) are exactly as before, and one error toast is added that carries
    the specific error: the parser's message for invalid JSON, and
    "Invalid format: Missing income/expenses arrays" otherwise.  The answer
    to the confirmation prompt plays no part. *)
Theorem import_rejects (B : Builtins) (text : file_text) (confirmReplace : bool)
    (s : State) :
  let s' := onFilePicked B (Readable text) confirmReplace s in
  let rejected (why : string) :=
    income s' = income s ∧ expenses s' = expenses s ∧
    categories s' = categories s ∧ rate s' = rate s ∧
    toasts s' = toasts s ++ [{| toast_id := uid B (draws s);
                                message := "Import failed: " ++ why;
                                type := error |}] in
  (∀ msg, JSON_parse_result text = inl msg → rejected msg) ∧
  (∀ obj, JSON_parse_result text = inr obj →
     isArray (get_opt obj "income") = false ∨
     isArray (get_opt obj "expenses") = false →
     rejected "Invalid format: Missing income/expenses arrays").
Proof.
  simpl. split.
  - intros msg Hparse. unfold onFilePicked. by rewrite Hparse.
  - intros obj Hparse Hbad. unfold onFilePicked. rewrite Hparse.
    assert (negb (truthy obj) || negb (isArray (get_opt obj "income"))
            || negb (isArray (get_opt obj "expenses")) = true) as ->; [|done].
    destruct Hbad as [-> | ->]; simpl; by rewrite ?orb_true_r.
Qed.

Lemma import_rejects_sample :
  let s := setIncome (λ _, [sample_income "a" (of_Z 3000000)]) initial in
  income (onFilePicked sample_builtins
            (Readable (Document (VObj [("income", VArr [])]))) true s)
    = income s ∧
  income (onFilePicked sample_builtins
            (Readable (Malformed "Unexpected token } in JSON at position 1")) true s)
    = income s.
Proof. split; reflexivity. Qed.

(** A [null] among the records makes the row building throw after the
    confirmation: the ledger is as it was, and the ids drawn before the
    throw are spent. *)
Example import_null_record :
  let s := setIncome (λ _, [sample_income "a" (of_Z 3000000)]) initial in
  let s' := onFilePicked sample_builtins
              (Readable (Document
                 (VObj [("income", VArr [VObj []; VNull]); ("expenses", VArr [])])))
              true s in
  income s' = income s ∧ categories s' = categories s ∧
  message <$> toasts s'
    = ["Import failed: Cannot read properties of null (reading 'id')"] ∧
  draws s' = 2%nat.
Proof. cbv zeta. split; [|split; [|split]]; reflexivity. Qed.

Lemma get_readable n k : readable n → get n k = Some (get_opt n k).
Proof. by destruct n. Qed.

Lemma income_of_run B n t :
  readable n →
  income_of B n t = (Some (income_row B n t), if missing_id n then S t else t).
Proof.
  intros Hn. unfold income_of, income_row, missing_id, bind, read.
  rewrite !get_readable by done.
  by destruct (truthy (get_opt n "id")).
Qed.

Lemma expense_of_run B n t :
  readable n →
  expense_of B n t = (Some (expense_row B n t), if missing_id n then S t else t).
Proof.
  intros Hn. unfold expense_of, expense_row, missing_id, bind, read.
  rewrite !get_readable by done.
  by destruct (truthy (get_opt n "id")).
Qed.

Lemma missing_before_0 l : missing_before l 0 = 0%nat.
Proof. done. Qed.

Lemma missing_before_S n l i :
  missing_before (n :: l) (S i)
  = ((if missing_id n then 1 else 0) + missing_before l i)%nat.
Proof.
  unfold missing_before. simpl. rewrite filter_cons.
  destruct (decide (missing_id n = true)) as [-> | Hn]; [done|].
  by destruct (missing_id n).
Qed.

(** [map] over readable elements: element [i] yields the row built with the
    id drawn after those of the elements before it. *)
Lemma mapM_run {C} (f : value → Eff C) (g : value → nat → C) (l : list value) :
  (∀ n t, readable n → f n t = (Some (g n t), if missing_id n then S t else t)) →
  Forall readable l →
  ∀ t, ∃ rows,
    mapM f l t = (Some rows, (t + missing_before l (length l))%nat) ∧
    length rows = length l ∧
    ∀ i n, l !! i = Some n →
      rows !! i = Some (g n (t + missing_before l i)%nat).
Proof.
  intros Hf Hl. induction Hl as [|n l Hn Hl IH]; intros t.
  - exists []. simpl. unfold ret. rewrite missing_before_0, Nat.add_0_r.
    by repeat split.
  - destruct (IH (if missing_id n then S t else t)) as (rows & Hrun & Hlen & Hrows).
    exists (g n t :: rows). cbn [mapM]. unfold bind at 1. rewrite (Hf _ _ Hn).
    unfold bind at 1. rewrite Hrun. unfold ret.
    cbn [length]. rewrite missing_before_S. split; [|split].
    + f_equal. destruct (missing_id n); lia.
    + by rewrite Hlen.
    + intros [|i] m Hm; simpl in Hm.
      * injection Hm as <-. by rewrite missing_before_0, Nat.add_0_r.
      * rewrite missing_before_S. simpl. rewrite (Hrows _ _ Hm).
        do 2 f_equal. destruct (missing_id n); lia.
Qed.

(** What a successful [map] returns holds for every row what each call
    guarantees. *)
Lemma mapM_Forall {A C} (f : A → Eff C) (P : C → Prop) :
  (∀ x t y t', f x t = (Some y, t') → P y) →
  ∀ l t ys t', mapM f l t = (Some ys, t') → Forall P ys.
Proof.
  intros Hf. induction l as [|x l IH]; intros t ys t'; simpl.
  - unfold ret. by intros [= <- _].
  - unfold bind at 1. destruct (f x t) as [[y|] t1] eqn:Hx; [|done].
    unfold bind at 1. destruct (mapM f l t1) as [[ys'|] t2] eqn:Hl; [|done].
    unfold ret. intros [= <- _]. constructor; eauto.
Qed.

Lemma js_lt_irrefl x : (x <? x)%js = false.
Proof.
  destruct x; simpl; try done. apply bool_decide_eq_false.
  intros H. by apply (Qclt_not_eq _ _ H).
Qed.

Lemma js_lt_asym x y : (x <? y)%js = true → (y <? x)%js = false.
Proof.
  destruct x, y; simpl; try done.
  intros H%bool_decide_eq_true. apply bool_decide_eq_false.
  intros H'. by apply (Qclt_not_eq q q (Qclt_trans _ _ _ H H')).
Qed.

(** [Math.max(0, x)] is never negative: it is NaN, or at least 0. *)
Lemma Math_max_0_not_negative x : (Math_max 0 x <? 0)%js = false.
Proof.
  unfold Math_max. rewrite of_Z_0.
  destruct x; try done.
  - destruct (Finite 0 <? Finite q)%js eqn:E; [by apply js_lt_asym|].
    apply js_lt_irrefl.
Qed.

Lemma Math_max_0_le x : x ≠ NaN → (0 <=? Math_max 0 x)%js = true.
Proof.
  intros Hx. unfold Math_max. rewrite of_Z_0.
  destruct x as [| |q|]; [done| |
    cbn [js_lt]; case_bool_decide as Hq; cbn [js_le] |done];
    apply bool_decide_eq_true; [done| |done].
  by apply Qclt_le_weak.
Qed.

Lemma Math_max_0_number x :
  Math_max 0 x ≠ NaN → (0 <=? Math_max 0 x)%js = true.
Proof.
  intros Hx. apply Math_max_0_le. intros ->. apply Hx.
  unfold Math_max. by rewrite of_Z_0.
Qed.

Lemma get_opt_array_truthy obj k items :
  get_opt obj k = VArr items → truthy obj = true.
Proof. by destruct obj. Qed.

(** The import of a well-formed, confirmed document whose array elements
    are readable, in terms of the rows each element yields. *)
Lemma import_run (B : Builtins) (obj : value) (s : State) (incs es : list value) :
  get_opt obj "income" = VArr incs →
  get_opt obj "expenses" = VArr es →
  Forall readable incs → Forall readable es →
  ∃ inc exp,
    onFilePicked B (Readable (Document obj)) true s
    = toast B "Import successful" success
        (setCategories
           (λ _, Set_from (imported_categories B obj ++ (ExpenseRow.category <$> exp)))
           (setExpenses (λ _, exp)
              (setIncome (λ _, inc)
                 (setDraws (draws s + missing_before incs (length incs)
                            + missing_before es (length es)) s)))) ∧
    length inc = length incs ∧ length exp = length es ∧
    (∀ i n, incs !! i = Some n →
       inc !! i = Some (income_row B n (draws s + missing_before incs i))) ∧
    (∀ j n, es !! j = Some n →
       exp !! j = Some (expense_row B n
                          (draws s + missing_before incs (length incs)
                           + missing_before es j))).
Proof.
  intros Hincs Hes Hri Hre.
  destruct (mapM_run (income_of B) (income_row B) incs (income_of_run B) Hri (draws s))
    as (inc & Hinc & Hleni & Hrowsi).
  destruct (mapM_run (expense_of B) (expense_row B) es (expense_of_run B) Hre
              (draws s + missing_before incs (length incs)))
    as (exp & Hexp & Hlene & Hrowse).
  exists inc, exp. split; [|by repeat split].
  unfold onFilePicked. cbn [JSON_parse_result].
  rewrite (get_opt_array_truthy _ _ _ Hincs), Hincs, Hes. cbn [negb isArray orb items_of].
  unfold bind at 1. rewrite Hinc. unfold bind at 1. rewrite Hexp. done.
Qed.

(** *** [Set]: union without repetition *)

Lemma same_value_zero_eq a b : same_value_zero a b = true → a = b.
Proof.
  destruct a, b; simpl; try done; intros H%bool_decide_eq_true; by subst.
Qed.

Lemma Set_from_fold l : Set_from l = fold_left Set_add l [].
Proof. done. Qed.

Lemma elem_of_Set_add seen x y : y ∈ Set_add seen x ↔ y ∈ seen ∨ y = x.
Proof.
  unfold Set_add. destruct (existsb _ seen) eqn:E.
  - split; [by left|]. intros [?| ->]; [done|].
    apply existsb_exists in E as (z & Hz%list_elem_of_In & Heq).
    by rewrite (same_value_zero_eq _ _ Heq).
  - rewrite elem_of_app, list_elem_of_singleton. done.
Qed.

Lemma elem_of_Set_fold l seen y :
  y ∈ fold_left Set_add l seen ↔ y ∈ seen ∨ y ∈ l.
Proof.
  revert seen. induction l as [|x l IH]; intros seen; simpl.
  - rewrite elem_of_nil. tauto.
  - rewrite IH, elem_of_Set_add, elem_of_cons. tauto.
Qed.

Lemma NoDup_Set_add seen x :
  primitive x → NoDup seen → NoDup (Set_add seen x).
Proof.
  intros Hx Hseen. unfold Set_add. destruct (existsb _ seen) eqn:E; [done|].
  apply NoDup_app. split; [done|]. split; [|apply NoDup_singleton].
  intros y Hy ->%list_elem_of_singleton.
  assert (existsb (same_value_zero x) seen = true) as E'; [|congruence].
  apply existsb_exists. exists x. split; [by apply list_elem_of_In|done].
Qed.

Lemma NoDup_Set_fold l seen :
  Forall primitive l → NoDup seen → NoDup (fold_left Set_add l seen).
Proof.
  intros Hl. revert seen. induction Hl as [|x l Hx Hl IH]; intros seen Hs; [done|].
  simpl. by apply IH, NoDup_Set_add.
Qed.

(** [Array.from(new Set(l))] holds what [l] holds, and nothing twice when
    [l] consists of primitive values. *)
Lemma Set_from_union l :
  (∀ y, y ∈ Set_from l ↔ y ∈ l) ∧ (Forall primitive l → NoDup (Set_from l)).
Proof.
  rewrite Set_from_fold. split.
  - intros y. rewrite elem_of_Set_fold, elem_of_nil. tauto.
  - intros Hl. apply NoDup_Set_fold; [done|apply NoDup_nil_2].
Qed.

Lemma imported_categories_primitive B obj :
  Forall primitive (imported_categories B obj).
Proof.
  unfold imported_categories.
  destruct (_ && _); apply Forall_fmap, Forall_true; intros x;
    unfold primitive, compose; simpl; by apply bool_decide_eq_true_2.
Qed.



(** The sample document, imported: a drawn id and a kept one, the amounts
    clamped (a non-numeric amount is NaN), the blank category filled, and the
    categories merged. *)
Example import_sample :
  let s' := onFilePicked sample_builtins (Readable (Document sample_document))
              true initial in
  IncomeRow.id <$> income s' = [VStr "id-lq3k9f20-x7p2qa"; VStr "keep"] ∧
  IncomeRow.amount <$> income s' = [of_Z 3000000; NaN] ∧
  ExpenseRow.id <$> expenses s' = [VStr "e1"; VStr "id-lq3k9f21-x7p2qa"] ∧
  ExpenseRow.amount <$> expenses s' = [0%js; of_Z 35000] ∧
  ExpenseRow.category <$> expenses s' = [VStr "Other"; VStr "Food & Drinks"] ∧
  categories s' = [VStr "Food & Drinks"; VStr "Rent"; VStr "Other"].
Proof. cbv zeta. split; [|split; [|split; [|split; [|split]]]]; by vm_compute. Qed.

(** ** Amounts of accepted records *)

Lemma income_of_throw B n t : ¬ readable n → income_of B n t = (None, t).
Proof. by destruct n. Qed.

Lemma expense_of_throw B n t : ¬ readable n → expense_of B n t = (None, t).
Proof. by destruct n. Qed.

Lemma income_of_clamped B n t r t' :
  income_of B n t = (Some r, t') →
  IncomeRow.amount r ≠ NaN → (0 <=? IncomeRow.amount r)%js = true.
Proof.
  destruct (decide (readable n)) as [Hn|Hn].
  - rewrite income_of_run by done. intros [= <- _].
    apply Math_max_0_number.
  - by rewrite income_of_throw.
Qed.

Lemma expense_of_clamped B n t r t' :
  expense_of B n t = (Some r, t') →
  ExpenseRow.amount r ≠ NaN → (0 <=? ExpenseRow.amount r)%js = true.
Proof.
  destruct (decide (readable n)) as [Hn|Hn].
  - rewrite expense_of_run by done. intros [= <- _].
    apply Math_max_0_number.
  - by rewrite expense_of_throw.
Qed.

(** What [onFilePicked] leaves: the ledger as it was, or the rows built from
    the document. *)
Lemma onFilePicked_cases B f c s :
  (income (onFilePicked B f c s) = income s ∧
   expenses (onFilePicked B f c s) = expenses s ∧
   categories (onFilePicked B f c s) = categories s) ∨
  (∃ obj t inc t' exp t'',
     mapM (income_of B) (items_of (get_opt obj "income")) t = (Some inc, t') ∧
     mapM (expense_of B) (items_of (get_opt obj "expenses")) t' = (Some exp, t'') ∧
     income (onFilePicked B f c s) = inc ∧
     expenses (onFilePicked B f c s) = exp).
Proof.
  remember (onFilePicked B f c s) as k eqn:Hk. unfold onFilePicked in Hk.
  destruct f as [| |text]; [subst k; by left..|].
  destruct (JSON_parse_result text) as [msg|obj]; [subst k; by left|].
  destruct (_ || _); [subst k; by left|].
  destruct c; [|subst k; by left]. cbn [negb] in Hk.
  unfold bind at 1 in Hk.
  destruct (mapM (income_of B) _ (draws s)) as [[inc|] t'] eqn:Hinc;
    [|subst k; by left].
  unfold bind at 1 in Hk.
  destruct (mapM (expense_of B) _ t') as [[exp|] t''] eqn:Hexp;
    [|subst k; by left].
  right. exists obj, (draws s), inc, t', exp, t''. by subst k.
Qed.

Lemma positive_amount_submitted date amount :
  missing_fields date amount = [] → date ≠ "" ∧ (amount >? 0)%js = true.
Proof.
  unfold missing_fields. case_bool_decide; [done|].
  by destruct (amount >? 0)%js.
Qed.

(** C9, as the code has it: a record that the add-income or add-expense form
    puts into the client ledger has an amount strictly greater than 0; a
    record that the import routine puts into it, and whose amount is a
    number, has an amount of 0 or more. *)
Theorem accepted_amounts (B : Builtins) (s : State) :
  (∀ r row, row ∈ income (onAddIncome B r s).2 →
     row ∈ income s ∨ (IncomeRow.amount row >? 0)%js = true) ∧
  (∀ r row, row ∈ expenses (onAddExpense B r s).2 →
     row ∈ expenses s ∨ (ExpenseRow.amount row >? 0)%js = true) ∧
  (∀ f c row, row ∈ income (onFilePicked B f c s) →
     row ∈ income s ∨
     (IncomeRow.amount row ≠ NaN → (0 <=? IncomeRow.amount row)%js = true)) ∧
  (∀ f c row, row ∈ expenses (onFilePicked B f c s) →
     row ∈ expenses s ∨
     (ExpenseRow.amount row ≠ NaN → (0 <=? ExpenseRow.amount row)%js = true)).
Proof.
  split; [|split; [|split]].
  - intros r row. unfold onAddIncome.
    destruct (bool_decide (missing_fields _ _ = [])) eqn:E; cbn [negb];
      [|by left].
    apply bool_decide_eq_true in E.
    destruct (positive_amount_submitted _ _ E) as [_ Hpos].
    destruct r; cbn; try by left.
    rewrite elem_of_app, list_elem_of_singleton. intros [?| ->]; [by left|by right].
  - intros r row. unfold onAddExpense.
    destruct (bool_decide (missing_fields _ _ = [])) eqn:E; cbn [negb];
      [|by left].
    apply bool_decide_eq_true in E.
    destruct (positive_amount_submitted _ _ E) as [_ Hpos].
    destruct r; cbn; try by left.
    rewrite elem_of_app, list_elem_of_singleton. intros [?| ->]; [by left|by right].
  - intros f c row.
    destruct (onFilePicked_cases B f c s)
      as [(-> & _ & _) | (obj & t & inc & t' & exp & t'' & Hinc & Hexp & -> & _)];
      [by left|].
    intros Hrow. right.
    pose proof (mapM_Forall (income_of B) _ (income_of_clamped B) _ _ _ _ Hinc)
      as Hall.
    by apply (proj1 (Forall_forall _ _) Hall).
  - intros f c row.
    destruct (onFilePicked_cases B f c s)
      as [(_ & -> & _) | (obj & t & inc & t' & exp & t'' & Hinc & Hexp & _ & ->)];
      [by left|].
    intros Hrow. right.
    pose proof (mapM_Forall (expense_of B) _ (expense_of_clamped B) _ _ _ _ Hexp)
      as Hall.
    by apply (proj1 (Forall_forall _ _) Hall).
Qed.

(** C9 as stated fails for the import: the document
    [{income: [{}, {amount: 0}, {amount: -5}], expenses: []}] is accepted and
    its three records enter the ledger with the amount 0, which is not
    greater than 0. *)
Lemma accepted_amounts_counterexample :
  IncomeRow.amount <$>
    income (onFilePicked sample_builtins
              (Readable (Document
                 (VObj [("income",
                         VArr [VObj [];
                               VObj [("amount", VNum 0%js)];
                               VObj [("amount", VNum (of_Z (-5)))]]);
                        ("expenses", VArr [])])))
              true initial)
  = [0%js; 0%js; 0%js] ∧
  (0 >? 0)%js = false.
Proof. split; by_evaluation. Qed.

(** ** Export, then import *)

Lemma or_else_text v : text v → or_else v (VStr "") = v.
Proof.
  intros [t ->]. unfold or_else. simpl. case_bool_decide; simpl; [|done].
  by subst t.
Qed.

Lemma or_else_nonblank v d : nonblank v → or_else v d = v ∧ truthy v = true.
Proof.
  intros (t & -> & Ht). unfold or_else. simpl.
  by rewrite bool_decide_eq_false_2.
Qed.

(** The amount survives [JSON.stringify], [JSON.parse] and the clamp. *)
Lemma amount_round_trip B a :
  amount_kept a →
  Math_max 0 (ToNumber B (or_else (jsonify (VNum a)) (VNum 0%js))) = a.
Proof.
  intros (q & -> & Hq). cbn [jsonify isFinite]. unfold or_else.
  cbn [truthy truthy_number]. case_bool_decide as Hz; cbn [negb ToNumber].
  - subst q. rewrite of_Z_0. unfold Math_max.
    rewrite js_lt_irrefl. done.
  - unfold Math_max. rewrite of_Z_0. cbn [js_lt].
    rewrite bool_decide_eq_true_2; [done|].
    destruct (Qcle_lt_or_eq _ _ Hq) as [?|Heq]; [done|]. by subst q.
Qed.

(** One income record through the export and the import. *)
Lemma income_round_trip B r t :
  income_kept r →
  missing_id (jsonify (IncomeRow_value r)) = false ∧
  income_row B (jsonify (IncomeRow_value r)) t = fill_income r.
Proof.
  intros ((i & Hi & Hin) & (d & Hd) & Hdesc & Ha & Hnotes).
  destruct r as [rid rdate rdesc ramount rnotes]. simpl in *. subst rid rdate.
  pose proof (amount_round_trip B ramount Ha) as Hamt.
  destruct Ha as (q & -> & Hq).
  unfold missing_id, income_row, fill_income, IncomeRow_value, missing_id.
  destruct Hdesc as [-> | [de ->]], Hnotes as [-> | [no ->]];
    simpl; rewrite ?bool_decide_eq_false_2 by done; simpl;
    (split; [done|]); f_equal;
    try (apply or_else_text; by eexists); try exact Hamt; done.
Qed.

Lemma expense_round_trip B r t :
  expense_kept r →
  missing_id (jsonify (ExpenseRow_value r)) = false ∧
  expense_row B (jsonify (ExpenseRow_value r)) t = fill_expense r.
Proof.
  intros ((i & Hi & Hin) & (d & Hd) & (c & Hc & Hcn) & Hdesc & Ha & Hnotes).
  destruct r as [rid rdate rcat rdesc ramount rnotes]. simpl in *.
  subst rid rdate rcat.
  pose proof (amount_round_trip B ramount Ha) as Hamt.
  destruct Ha as (q & -> & Hq).
  unfold missing_id, expense_row, fill_expense, ExpenseRow_value, missing_id.
  destruct Hdesc as [-> | [de ->]], Hnotes as [-> | [no ->]];
    simpl; rewrite ?bool_decide_eq_false_2 by done; simpl;
    (split; [done|]); f_equal;
    try (apply or_else_text; by eexists); try exact Hamt;
    try (by apply or_else_nonblank; eexists); done.
Qed.

Lemma exported_income B s :
  get_opt (exportJSON B s).1 "income"
  = VArr (jsonify <$> (IncomeRow_value <$> income s)).
Proof. done. Qed.

Lemma exported_expenses B s :
  get_opt (exportJSON B s).1 "expenses"
  = VArr (jsonify <$> (ExpenseRow_value <$> expenses s)).
Proof. done. Qed.

(** Rows that agree, position by position, with the images of the source
    rows. *)
Lemma rows_by_position {A C} (h : A → C) (src : list A) (rows : list C) :
  length rows = length src →
  (∀ i a, src !! i = Some a → rows !! i = Some (h a)) →
  rows = h <$> src.
Proof.
  intros Hlen Hrows. apply list_eq. intros i. rewrite list_lookup_fmap.
  destruct (src !! i) as [a|] eqn:Ha; simpl.
  - by apply Hrows.
  - apply lookup_ge_None. rewrite Hlen. by apply lookup_ge_None.
Qed.

(** C4, as the code has it: for every ledger state in which each record's
    id is a non-empty string, its date a string, its amount finite and not
    negative, each expense's category a non-empty string, and description
    and notes a string or absent, exporting with [exportJSON] and importing
    the produced document, the replacement confirmed, into any state of the
    page yields the same income and expense records, an absent description
    or notes filled with the empty string: in particular the same ids,
    dates, amounts and categories, in the same order. *)
Theorem export_import_round_trip (B : Builtins) (s s0 : State) :
  Forall income_kept (income s) →
  Forall expense_kept (expenses s) →
  let s' := onFilePicked B (Readable (Document (exportJSON B s).1)) true s0 in
  income s' = fill_income <$> income s ∧
  expenses s' = fill_expense <$> expenses s ∧
  IncomeRow.id <$> income s' = IncomeRow.id <$> income s ∧
  IncomeRow.date <$> income s' = IncomeRow.date <$> income s ∧
  IncomeRow.amount <$> income s' = IncomeRow.amount <$> income s ∧
  ExpenseRow.id <$> expenses s' = ExpenseRow.id <$> expenses s ∧
  ExpenseRow.date <$> expenses s' = ExpenseRow.date <$> expenses s ∧
  ExpenseRow.amount <$> expenses s' = ExpenseRow.amount <$> expenses s ∧
  ExpenseRow.category <$> expenses s' = ExpenseRow.category <$> expenses s.
Proof.
  intros Hinc Hexp.
  destruct (import_run B (exportJSON B s).1 s0 _ _
              (exported_income B s) (exported_expenses B s))
    as (inc & exp & Hrun & Hleni & Hlene & Hrowsi & Hrowse).
  { apply Forall_fmap, Forall_fmap, Forall_true. by intros []. }
  { apply Forall_fmap, Forall_fmap, Forall_true. by intros []. }
  cbv zeta. rewrite Hrun.
  cbn [toast setCategories setExpenses setIncome income expenses].
  assert (inc = fill_income <$> income s) as ->.
  { apply rows_by_position; [by rewrite Hleni, !length_fmap|].
    intros i r Hr.
    rewrite (Hrowsi i (jsonify (IncomeRow_value r)))
      by (by rewrite !list_lookup_fmap, Hr).
    f_equal. apply income_round_trip.
    by apply (proj1 (Forall_lookup _ _) Hinc i). }
  assert (exp = fill_expense <$> expenses s) as ->.
  { apply rows_by_position; [by rewrite Hlene, !length_fmap|].
    intros i r Hr.
    rewrite (Hrowse i (jsonify (ExpenseRow_value r)))
      by (by rewrite !list_lookup_fmap, Hr).
    f_equal. apply expense_round_trip.
    by apply (proj1 (Forall_lookup _ _) Hexp i). }
  rewrite <-!list_fmap_compose. done.
Qed.

Lemma export_import_round_trip_witness :
  income
    (onFilePicked sample_builtins
       (Readable (Document
          (exportJSON sample_builtins
             (setExpenses (λ _, [sample_expense "Food & Drinks" (of_Z 1200000)])
                (setIncome (λ _, [sample_income "a" (of_Z 3000000)]) initial))).1))
       true initial)
  = fill_income <$> [sample_income "a" (of_Z 3000000)].
Proof.
  refine (proj1 (export_import_round_trip sample_builtins
                   (setExpenses (λ _, [sample_expense "Food & Drinks" (of_Z 1200000)])
                      (setIncome (λ _, [sample_income "a" (of_Z 3000000)]) initial))
                   initial _ _)); by_evaluation.
Defined.

(** C4 as stated fails on ledgers the page can hold.  Exported and imported
    back: an amount of -5 comes back as 0 (the import clamps it); an amount
    of +Infinity comes back as 0 (JSON has no infinity: it is written as
    [null]); a record with an empty id comes back with a newly drawn id; an
    expense with an empty category comes back in the category "Other". *)
Lemma export_import_counterexample :
  IncomeRow.amount <$>
    income (onFilePicked sample_builtins
              (Readable (Document
                 (exportJSON sample_builtins
                    (ledger_of (sample_income "a" (of_Z (-5)))
                               (sample_expense "Other" Infinity))).1))
              true initial)
    = [0%js] ∧
  ExpenseRow.amount <$>
    expenses (onFilePicked sample_builtins
                (Readable (Document
                   (exportJSON sample_builtins
                      (ledger_of (sample_income "a" (of_Z (-5)))
                                 (sample_expense "Other" Infinity))).1))
                true initial)
    = [0%js] ∧
  IncomeRow.id <$>
    income (onFilePicked sample_builtins
              (Readable (Document
                 (exportJSON sample_builtins
                    (ledger_of (sample_income "" (of_Z 5))
                               (sample_expense "" (of_Z 5)))).1))
              true initial)
    = [VStr "id-lq3k9f20-x7p2qa"] ∧
  ExpenseRow.category <$>
    expenses (onFilePicked sample_builtins
                (Readable (Document
                   (exportJSON sample_builtins
                      (ledger_of (sample_income "" (of_Z 5))
                                 (sample_expense "" (of_Z 5)))).1))
                true initial)
    = [VStr "Other"].
Proof. split; [|split; [|split]]; by vm_compute. Qed.

(** ** Record entry *)

(** A rounded amount that passes the check is a positive integer, or
    +Infinity. *)
Lemma Math_round_positive x :
  (Math_round x >? 0)%js = true →
  (∃ z : Z, (0 < z)%Z ∧ Math_round x = of_Z z) ∨ Math_round x = Infinity.
Proof.
  destruct x as [| |q|]; try done; [|by right].
  unfold js_gt, Math_round, of_Z. cbn [js_lt].
  intros H%bool_decide_eq_true. left. eexists. split; [|done].
  by apply Z2Qc_inj_lt.
Qed.

Lemma missing_fields_nil date amount :
  date ≠ "" → (amount >? 0)%js = true → missing_fields date amount = [].
Proof.
  intros Hd Ha. unfold missing_fields.
  by rewrite bool_decide_eq_false_2, Ha.
Qed.

Lemma missing_fields_cons date amount :
  date = "" ∨ (amount >? 0)%js = false → missing_fields date amount ≠ [].
Proof.
  unfold missing_fields. intros [-> | ->]; [done|].
  by case_bool_decide.
Qed.

(** X4: a submission of the add-income or add-expense
    form is rejected, before any request is sent and with the ledger as it
    was, when the trimmed date is empty or the amount, rounded to the
    nearest integer, is not greater than 0.  Otherwise exactly one POST is
    sent, carrying the record; the record's amount is a positive integer, or
    +Infinity when the text of the amount reads as +Infinity; a blank
    description is "Income" (for an income) or "Expense" (for an expense), a
    blank expense category is "Other", and the id is the one [uid] generated
    for it; and the record is appended to the local state if the server
    answers with success, and the local state is as it was otherwise. *)
Theorem add_record (B : Builtins) (r : reply) (s : State) :
  (let date := trim B (IncomeForm.date (incomeForm s)) in
   let desc := trim B (IncomeForm.desc (incomeForm s)) in
   let amount := Math_round (StringToNumber B (IncomeForm.amount (incomeForm s))) in
   let row :=
     IncomeRow.mk (VStr (uid B (draws s))) (VStr date)
       (VStr (if bool_decide (desc = "") then "Income" else desc)) amount
       (VStr (trim B (IncomeForm.notes (incomeForm s)))) in
   (date = "" ∨ (amount >? 0)%js = false →
      (onAddIncome B r s).1 = [] ∧
      income (onAddIncome B r s).2 = income s) ∧
   (date ≠ "" ∧ (amount >? 0)%js = true →
      (onAddIncome B r s).1
        = [{| method := "POST"; url := "/api/income";
              body := jsonify (IncomeRow_value row) |}] ∧
      income (onAddIncome B r s).2
        = match r with Accepted => income s ++ [row] | _ => income s end ∧
      ((∃ z : Z, (0 < z)%Z ∧ amount = of_Z z) ∨ amount = Infinity))) ∧
  (let date := trim B (ExpenseForm.date (expenseForm s)) in
   let category := trim B (ExpenseForm.category (expenseForm s)) in
   let desc := trim B (ExpenseForm.desc (expenseForm s)) in
   let amount := Math_round (StringToNumber B (ExpenseForm.amount (expenseForm s))) in
   let row :=
     ExpenseRow.mk (VStr (uid B (draws s))) (VStr date)
       (VStr (if bool_decide (category = "") then "Other" else category))
       (VStr (if bool_decide (desc = "") then "Expense" else desc)) amount
       (VStr (trim B (ExpenseForm.notes (expenseForm s)))) in
   (date = "" ∨ (amount >? 0)%js = false →
      (onAddExpense B r s).1 = [] ∧
      expenses (onAddExpense B r s).2 = expenses s) ∧
   (date ≠ "" ∧ (amount >? 0)%js = true →
      (onAddExpense B r s).1
        = [{| method := "POST"; url := "/api/expenses";
              body := jsonify (ExpenseRow_value row) |}] ∧
      expenses (onAddExpense B r s).2
        = match r with Accepted => expenses s ++ [row] | _ => expenses s end ∧
      ((∃ z : Z, (0 < z)%Z ∧ amount = of_Z z) ∨ amount = Infinity))).
Proof.
  split; cbv zeta; (split; [intros Hbad | intros [Hd Ha]]).
  - unfold onAddIncome.
    by rewrite (bool_decide_eq_false_2 _ (missing_fields_cons _ _ Hbad)).
  - unfold onAddIncome.
    rewrite (bool_decide_eq_true_2 _ (missing_fields_nil _ _ Hd Ha)).
    cbn [negb]. split; [by destruct r|]. split; [by destruct r|].
    by apply Math_round_positive.
  - unfold onAddExpense.
    by rewrite (bool_decide_eq_false_2 _ (missing_fields_cons _ _ Hbad)).
  - unfold onAddExpense.
    rewrite (bool_decide_eq_true_2 _ (missing_fields_nil _ _ Hd Ha)).
    cbn [negb]. split; [by destruct r|]. split; [by destruct r|].
    by apply Math_round_positive.
Qed.

Example add_income_sample :
  income (onAddIncome sample_builtins Accepted form_1500000).2
    = [IncomeRow.mk (VStr "id-lq3k9f20-x7p2qa") (VStr "2024-01-01")
         (VStr "Income") (of_Z 1500000) (VStr "")] ∧
  income (onAddIncome sample_builtins (Unreachable "Failed to fetch") form_1500000).2
    = [].
Proof. split; by vm_compute. Qed.


(** ** The DELETE routes *)

Lemma filter_none {A} (P : A → Prop) `{∀ x, Decision (P x)} (l : list A) :
  Forall (λ x, ¬ P x) l → filter P l = [] ∧ filter (λ x, ¬ P x) l = l.
Proof.
  induction 1 as [|x l Hx Hl [IH1 IH2]]; [done|].
  rewrite filter_cons_False, filter_cons_True by done. by rewrite IH1, IH2.
Qed.

Lemma filter_some {A} (P : A → Prop) `{∀ x, Decision (P x)} (l : list A) :
  Exists P l → filter P l ≠ [].
Proof.
  induction 1 as [x l Hx|x l Hl IH].
  - by rewrite filter_cons_True.
  - rewrite filter_cons. by destruct (decide (P x)).
Qed.

(** The shared body, on a table with the statement of [delete_returning]. *)
Lemma handle_delete_spec {R} (row_id row_user : R → string) (up : bool)
    (s : session) (id : option string) (table : list R) (notFound failedMsg : string) :
  let answer :=
    handle_delete s id
      (λ id userId,
         if up then Some (delete_returning row_id row_user id userId table)
         else None)
      table notFound failedMsg in
  (getUserId s = None ∨ getUserId s = Some "" →
     answer = (error_response "Unauthorized" 401, table)) ∧
  (∀ u, getUserId s = Some u → u ≠ "" →
     (id = None ∨ id = Some "" →
        answer = (error_response "ID is required" 400, table)) ∧
     (∀ i, id = Some i → i ≠ "" →
        (up = false → answer = (error_response failedMsg 500, table)) ∧
        (up = true →
           (Forall (λ r, ¬ (row_id r = i ∧ row_user r = u)) table →
              answer = (error_response notFound 404, table)) ∧
           (Exists (λ r, row_id r = i ∧ row_user r = u) table →
              answer = ({| status := 200; json := VObj [("success", VBool true)] |},
                        filter (λ r, ¬ (row_id r = i ∧ row_user r = u)) table))))).
Proof.
  cbv zeta. unfold handle_delete. split.
  - by intros [-> | ->].
  - intros u -> Hu. rewrite bool_decide_eq_false_2 by done. split.
    + by intros [-> | ->].
    + intros i -> Hi. rewrite bool_decide_eq_false_2 by done. split.
      * by intros ->.
      * intros ->. unfold delete_returning. split.
        -- intros Hnone. destruct (filter_none _ table Hnone) as [-> ->]. done.
        -- intros Hsome. rewrite bool_decide_eq_false_2; [done|].
           rewrite length_fmap. intros Hlen.
           by apply (filter_some _ table Hsome), nil_length_inv.
Qed.


(** Two users' rows, and the four answers of the income route. *)
Example DELETE_sample :
  let row i u := {| income_id := i; income_user_id := u;
                    income_date := "2024-01-01"; income_description := "Income";
                    income_amount := Qc_of_Z 3000000; income_notes := None |} in
  let db := {| income_table := [row "i1" "u1"; row "i2" "u2"];
               expenses_table := [] |} in
  status (DELETE_income true NoSession (Some "i1") db).1 = 401%nat ∧
  status (DELETE_income true (User (Some "u1")) None db).1 = 400%nat ∧
  DELETE_income true (User (Some "u1")) (Some "i2") db
    = (error_response "Income not found" 404, db) ∧
  DELETE_income true (User (Some "u1")) (Some "i1") db
    = ({| status := 200; json := VObj [("success", VBool true)] |},
       {| income_table := [row "i2" "u2"]; expenses_table := [] |}) ∧
  DELETE_income false (User (Some "u1")) (Some "i1") db
    = (error_response "Failed to delete income" 500, db).
Proof. cbv zeta. split; [|split; [|split; [|split]]]; by vm_compute. Qed.

(** ** The exchange rate *)

Lemma usable_checked r :
  negb (isFinite r) || (r <=? 0)%js = false → usable r.
Proof.
  intros [Hf Hle]%orb_false_elim. apply negb_false_iff in Hf. split; [done|].
  destruct r as [| |q|]; try done. rewrite of_Z_0 in *. cbn in *.
  apply bool_decide_eq_true. apply bool_decide_eq_false in Hle.
  by apply Qclt_nge.
Qed.

(** In exact arithmetic the reciprocal of a usable quote is usable. *)
Lemma usable_reciprocal r : usable r → usable (1 / r)%js.
Proof.
  intros [Hf Hpos]. destruct r as [| |q|]; try done.
  rewrite of_Z_0 in Hpos. cbn in Hpos. apply bool_decide_eq_true in Hpos.
  assert (q ≠ 0) as Hq by (intros ->; by apply (Qclt_not_eq 0 0)).
  rewrite of_Z_1. cbn [js_div]. rewrite bool_decide_eq_false_2 by done.
  split; [done|]. rewrite of_Z_0. cbn. apply bool_decide_eq_true.
  unfold Qcdiv. rewrite Qcmult_1_l. by apply Qcinv_pos.
Qed.

Lemma rate_onAddIncome B r s : rate (onAddIncome B r s).2 = rate s.
Proof. unfold onAddIncome. destruct (negb _); [done|]. by destruct r. Qed.

Lemma rate_onAddExpense B r s : rate (onAddExpense B r s).2 = rate s.
Proof. unfold onAddExpense. destruct (negb _); [done|]. by destruct r. Qed.

Lemma rate_onFilePicked B f c s : rate (onFilePicked B f c s) = rate s.
Proof.
  unfold onFilePicked. destruct f as [| |text]; [done..|].
  destruct (JSON_parse_result text); [done|].
  destruct (_ || _); [done|]. destruct (negb c); [done|].
  by destruct (bind _ _ _) as [[[??]|] ?].
Qed.

Lemma usable_loadSavedRate B ls s :
  usable (rate s) → usable (rate (loadSavedRate B ls s)).
Proof.
  intros Hs. unfold loadSavedRate. destruct (ls !! _) as [saved|]; [|done].
  case_bool_decide; [done|].
  destruct (negb _ || _) eqn:E; [done|]. by apply usable_checked.
Qed.

Lemma usable_refreshRate B answer cancelled storedAt page :
  usable (rate page.1) →
  usable (rate (refreshRate B answer cancelled storedAt page).1).
Proof.
  intros Hs. unfold refreshRate.
  destruct answer as [| |data]; [by destruct cancelled..|].
  destruct (negb _ || _) eqn:E; [by destruct cancelled|].
  destruct cancelled; [done|]. cbn.
  by apply usable_reciprocal, usable_checked.
Qed.

Lemma usable_step B e page :
  usable (rate page.1) → usable (rate (step B e page).1).
Proof.
  intros Hs. destruct e; cbn [step fst].
  - by apply usable_loadSavedRate.
  - unfold rateEffect. destruct (negb _ || _); [|done].
    by apply usable_refreshRate.
  - by rewrite rate_onAddIncome.
  - by rewrite rate_onAddExpense.
  - done.
  - done.
  - unfold clearAll. by destruct (negb ok).
  - done.
  - by rewrite rate_onFilePicked.
Qed.


Section Binary64_overflow.
Import PrimFloat.
Local Open Scope float_scope.

(** C10: the rate should stay finite and strictly greater than 0.  On
    binary64 it does not: the quote [5e-324] (the least positive number) is
    finite and greater than 0, so it passes the check of [refreshRate]; its
    reciprocal overflows, and the rate that is adopted is +Infinity, for
    which [krwToUsd] takes its guard branch and returns 0.  The saved-rate
    effect does check the value it adopts, and leaves the rate alone when
    given +Infinity. *)
Theorem refreshRate_overflow :
  Binary64.isFinite 0x1p-1074 = true ∧
  (0 <? 0x1p-1074) = true ∧
  Binary64.refreshRate 0x1p-1074 1388 = infinity ∧
  Binary64.isFinite (Binary64.refreshRate 0x1p-1074 1388) = false ∧
  Binary64.krwToUsd 3000000 (Binary64.refreshRate 0x1p-1074 1388) = 0 ∧
  Binary64.loadSavedRate infinity 1388 = 1388.
Proof. repeat split; vm_compute; reflexivity. Qed.

End Binary64_overflow.

(** ** Totals in both currencies *)

Lemma Qc_0_div (r : Qc) : 0 / r = 0.
Proof. unfold Qcdiv. ring. Qed.

(** Division by a finite positive rate distributes over subtraction and
    over addition, infinities and NaN included. *)
Lemma js_div_sub (a b : number) (r : Qc) :
  0 < r → ((a - b) / Finite r)%js = (a / Finite r - b / Finite r)%js.
Proof.
  intros Hr.
  assert (r ≠ 0) as Hnz by (intros ->; by apply (Qclt_not_eq 0 0)).
  assert (¬ r < 0) as Hnn by (by apply Qcle_not_lt, Qclt_le_weak).
  unfold js_sub.
  destruct a as [| |a|], b as [| |b|]; cbn [js_neg js_add js_div];
    rewrite ?(bool_decide_eq_false_2 (r = 0)), ?(bool_decide_eq_false_2 (r < 0))
      by done; cbn [js_neg js_add]; try done.
  f_equal; unfold Qcdiv; ring.
Qed.

Lemma js_div_add (a b : number) (r : Qc) :
  0 < r → ((a + b) / Finite r)%js = (a / Finite r + b / Finite r)%js.
Proof.
  intros Hr.
  assert (r ≠ 0) as Hnz by (intros ->; by apply (Qclt_not_eq 0 0)).
  assert (¬ r < 0) as Hnn by (by apply Qcle_not_lt, Qclt_le_weak).
  destruct a as [| |a|], b as [| |b|]; cbn [js_add js_div];
    rewrite ?(bool_decide_eq_false_2 (r = 0)), ?(bool_decide_eq_false_2 (r < 0))
      by done; cbn [js_add]; try done.
  f_equal; unfold Qcdiv; ring.
Qed.

(** [krwToUsd] is additive in the amount, at every rate. *)
Lemma krwToUsd_add (a b rate : number) :
  krwToUsd (a + b)%js rate = (krwToUsd a rate + krwToUsd b rate)%js.
Proof.
  unfold krwToUsd.
  destruct (negb (isFinite rate) || (rate <=? 0)%js) eqn:E.
  - rewrite of_Z_0. cbn. f_equal; ring.
  - apply usable_checked in E as [Hf Hpos].
    destruct rate as [| |r|]; try done.
    apply js_div_add. rewrite of_Z_0 in Hpos. cbn in Hpos.
    by apply bool_decide_eq_true in Hpos.
Qed.

Lemma krwToUsd_0 (rate : number) : krwToUsd 0%js rate = 0%js.
Proof.
  unfold krwToUsd. destruct (negb (isFinite rate) || (rate <=? 0)%js) eqn:E; [done|].
  apply usable_checked in E as [Hf Hpos].
  destruct rate as [| |r|]; try done.
  rewrite of_Z_0 in *. cbn in *. apply bool_decide_eq_true in Hpos.
  rewrite bool_decide_eq_false_2; [by rewrite Qc_0_div|].
  intros ->. by apply (Qclt_not_eq 0 0).
Qed.


(** The sum of the USD column of a table, from the conversion of a sum. *)
Lemma usd_fold {A} (amount : A → number) (rate : number) (l : list A) (s0 : number) :
  Forall (λ r, amount r ≠ NaN) l →
  fold_left (λ acc r, (acc + krwToUsd (amount r) rate)%js) l (krwToUsd s0 rate)
  = krwToUsd (fold_left (λ s r, (s + or_number (amount r) 0)%js) l s0) rate.
Proof.
  intros Hl. revert s0. induction Hl as [|r l Hr Hl IH]; intros s0; [done|].
  simpl. rewrite <-IH. by rewrite krwToUsd_add, (or_number_0 _ Hr).
Qed.



Lemma sum_income_app l r :
  sum_income (l ++ [r]) = (sum_income l + or_number (IncomeRow.amount r) 0)%js.
Proof. unfold sum_income. by rewrite fold_left_app. Qed.

Lemma sum_expenses_app l r :
  sum_expenses (l ++ [r]) = (sum_expenses l + or_number (ExpenseRow.amount r) 0)%js.
Proof. unfold sum_expenses. by rewrite fold_left_app. Qed.

Lemma js_gt_0_number x : (x >? 0)%js = true → x ≠ NaN.
Proof. by destruct x. Qed.

Lemma js_neg_add x y : js_neg (x + y)%js = (js_neg x + js_neg y)%js.
Proof. destruct x, y; simpl; try done. f_equal; ring. Qed.



(** ** Adding an expense and the breakdown *)

(** X25: when a submission of the add-expense form passes the checks and
    the server accepts it, and the category recorded (the trimmed category
    of the form, [Other] when that is blank) is not a name inherited from
    [Object.prototype], the breakdown of the expenses changes under that
    category only: its amount is what it was ([0] when the category had
    none) plus the amount of the record, and every other category has the
    amount it had. *)
Theorem breakdown_after_add (B : Builtins) (s : State) :
  let amount := Math_round (StringToNumber B (ExpenseForm.amount (expenseForm s))) in
  let c := or_text (trim B (ExpenseForm.category (expenseForm s))) "Other" in
  let s' := (onAddExpense B Accepted s).2 in
  trim B (ExpenseForm.date (expenseForm s)) ≠ "" → (amount >? 0)%js = true →
  c ∉ Object_prototype_names →
  breakdown B (expenses s')
  = <[c := slot_add (or_zero (breakdown B (expenses s) !! c)) amount]>
      (breakdown B (expenses s)) ∧
  breakdown B (expenses s') !! c
  = Some (slot_add (or_zero (breakdown B (expenses s) !! c)) amount) ∧
  (∀ k, k ≠ c →
     breakdown B (expenses s') !! k = breakdown B (expenses s) !! k) ∧
  (∀ cat, ToString B cat ≠ c →
     amt B (expenses s') cat = amt B (expenses s) cat).
Proof.
  cbv zeta. intros Hd Ha Hc.
  set (c := or_text _ _) in *.
  set (amount := Math_round _) in *.
  assert (breakdown B (expenses (onAddExpense B Accepted s).2)
          = <[c := slot_add (or_zero (breakdown B (expenses s) !! c)) amount]>
              (breakdown B (expenses s))) as Hb.
  { unfold onAddExpense.
    rewrite (bool_decide_eq_true_2 _ (missing_fields_nil _ _ Hd Ha)).
    cbn [negb snd toast setExpenseForm setExpenses setDraws expenses].
    unfold breakdown. rewrite fold_left_app. cbn [fold_left].
    rewrite breakdown_step_own by done.
    cbn [ExpenseRow.category ExpenseRow.amount ToString].
    fold amount. by rewrite (or_number_0 _ (js_gt_0_number _ Ha)). }
  unfold amt, object_get. rewrite Hb.
  split; [done|]. split; [by rewrite lookup_insert_eq|]. split.
  - intros k Hk. by rewrite lookup_insert_ne.
  - intros cat Hcat. by rewrite lookup_insert_ne.
Qed.

Lemma breakdown_after_add_witness :
  breakdown sample_builtins
    (expenses (onAddExpense sample_builtins Accepted form_food_35000).2)
    !! "Food & Drinks"
  = Some (SNumber (of_Z 1200000 + of_Z 35000)%js).
Proof.
  refine (eq_trans
    (proj1 (proj2 (breakdown_after_add sample_builtins form_food_35000 _ _ _))) _);
    by_evaluation.
Defined.

(** ** Importing what was exported *)

(** X26: the document [exportJSON] writes is accepted by [onFilePicked],
    whatever the ledger holds and whatever state it is imported into: the
    import ends with the toast [Import successful], never with an error;
    the imported lists have as many records as the exported ones; and the
    rate of the importing page is kept, the rate in the document is not
    read.  When the prompt is declined the importing page is left as it
    is. *)
Theorem export_importable (B : Builtins) (s s0 : State) :
  let doc := (exportJSON B s).1 in
  onFilePicked B (Readable (Document doc)) false s0 = s0 ∧
  let s' := onFilePicked B (Readable (Document doc)) true s0 in
  length (income s') = length (income s) ∧
  length (expenses s') = length (expenses s) ∧
  rate s' = rate s0 ∧
  incomeForm s' = incomeForm s0 ∧ expenseForm s' = expenseForm s0 ∧
  ∃ id, toasts s'
        = toasts s0 ++ [{| toast_id := id; message := "Import successful";
                           type := success |}].
Proof.
  cbv zeta. split; [done|].
  destruct (import_run B (exportJSON B s).1 s0 _ _
              (exported_income B s) (exported_expenses B s))
    as (inc & exp & Hrun & Hleni & Hlene & _ & _).
  { apply Forall_fmap, Forall_fmap, Forall_true. by intros []. }
  { apply Forall_fmap, Forall_fmap, Forall_true. by intros []. }
  rewrite Hrun.
  cbn [toast setCategories setExpenses setIncome setDraws income expenses rate
       incomeForm expenseForm toasts].
  rewrite Hleni, Hlene, !length_fmap.
  do 5 (split; [done|]). by eexists.
Qed.

(** ** Clearing the ledger *)

(** X8: [clearAll] leaves the state as it is when the prompt is declined.
    When it is confirmed, both lists are empty, the categories are the
    default ones and the rate is kept; the six totals of the summary are
    then 0 whatever the rate is, the breakdown is empty, and every row of
    the breakdown table shows the amount 0 and 0 percent. *)
Theorem clearAll_totals (B : Builtins) (s : State) :
  clearAll B false s = s ∧
  let s' := clearAll B true s in
  income s' = [] ∧ expenses s' = [] ∧
  categories s' = VStr <$> DEFAULT_CATEGORIES ∧
  rate s' = rate s ∧
  totals (income s') (expenses s') (rate s')
  = {| incomeKRW := 0%js; expenseKRW := 0%js; remainingKRW := 0%js;
       incomeUSD := 0%js; expenseUSD := 0%js; remainingUSD := 0%js |} ∧
  breakdown B (expenses s') = ∅ ∧
  ∀ cat, cat ∈ categories s' →
    amt B (expenses s') cat = SNumber 0%js ∧ pct B (expenses s') cat = 0%js.
Proof.
  split; [done|]. cbv zeta. unfold clearAll.
  cbn [negb toast setCategories setExpenses setIncome income expenses categories rate].
  split; [done|]. split; [done|]. split; [done|]. split; [done|].
  split; [|split; [done|]].
  - unfold totals, sum_income, sum_expenses. cbn [fold_left].
    assert ((0 - 0)%js = 0%js) as ->.
    { rewrite of_Z_0. cbn. f_equal; ring. }
    by rewrite krwToUsd_0.
  - intros cat Hcat.
    apply list_elem_of_fmap in Hcat as (c & -> & Hc).
    assert (c ∉ Object_prototype_names) as Hown.
    { revert Hc. unfold DEFAULT_CATEGORIES, Object_prototype_names.
      rewrite !elem_of_cons, elem_of_nil. intros Hc Hp.
      repeat (destruct Hc as [-> | Hc]; [clear -Hp;
        repeat (destruct Hp as [Hp | Hp]; [discriminate Hp|]); done|]).
      done. }
    assert (amt B [] (VStr c) = SNumber 0%js) as Hamt.
    { unfold amt, breakdown, object_get. cbn [fold_left ToString].
      rewrite lookup_empty. by rewrite bool_decide_eq_false_2. }
    split; [done|]. unfold pct. rewrite Hamt. cbn [slot_number].
    by_evaluation.
Qed.

(** ** Adding a category *)

Lemma some_same_name_strings H name names :
  some_same_name H name (VStr <$> names)
  = Some (bool_decide (toLowerCase H name ∈ toLowerCase H <$> names)).
Proof.
  induction names as [|c names IH]; [done|].
  rewrite !fmap_cons. cbn [some_same_name].
  destruct (decide (toLowerCase H c = toLowerCase H name)) as [Hc|Hc].
  - rewrite (bool_decide_eq_true_2 _ Hc), bool_decide_eq_true_2; [done|].
    rewrite <-Hc. apply list_elem_of_here.
  - rewrite (bool_decide_eq_false_2 _ Hc), IH. f_equal.
    apply bool_decide_ext. rewrite elem_of_cons. split; [tauto|].
    intros [Heq|Hin]; [by destruct Hc|done].
Qed.

(** X9: when the categories are strings that differ from each other even
    when case is ignored, [onAddCategory] does not throw and leaves them
    so.  A prompt that is cancelled or answered with blank text changes
    nothing.  A name that equals a category up to case is refused with an
    error toast, categories and form as they were.  Any other name is
    appended, trimmed, after the categories there were, and becomes the
    category of the expense form.  Records and rate are never touched. *)
Theorem onAddCategory_distinct (B : Builtins) (H : Host) (answer : option string)
    (s : State) (names : list string) :
  categories s = VStr <$> names →
  NoDup (toLowerCase H <$> names) →
  let name := match answer with Some typed => trim B typed | None => "" end in
  ∃ s', onAddCategory B H answer s = Some s' ∧
    income s' = income s ∧ expenses s' = expenses s ∧ rate s' = rate s ∧
    distinct_names H (categories s') ∧
    (answer = None ∨ name = "" → s' = s) ∧
    (answer ≠ None → name ≠ "" →
       toLowerCase H name ∈ toLowerCase H <$> names →
       categories s' = categories s ∧ expenseForm s' = expenseForm s ∧
       toasts s' = toasts s ++ [{| toast_id := uid B (draws s);
                                   message := "Category already exists";
                                   type := error |}]) ∧
    (answer ≠ None → name ≠ "" →
       toLowerCase H name ∉ toLowerCase H <$> names →
       categories s' = categories s ++ [VStr name] ∧
       ExpenseForm.category (expenseForm s') = name ∧
       toasts s' = toasts s ++ [{| toast_id := uid B (draws s);
                                   message := "Category added";
                                   type := success |}]).
Proof.
  intros Hcs Hnd. cbv zeta. unfold onAddCategory.
  assert (distinct_names H (categories s)) as Hs by (by exists names).
  destruct answer as [typed|].
  2: { exists s. do 5 (split; [done|]). split; [done|].
       split; intros Hn; by destruct Hn. }
  case_bool_decide as Hname.
  { exists s. do 5 (split; [done|]). split; [done|].
    split; intros _ Hn; by destruct Hn. }
  rewrite Hcs, some_same_name_strings. case_bool_decide as Hin.
  - eexists. split; [done|]. cbn [toast income expenses rate categories
      expenseForm toasts]. do 3 (split; [done|]). split; [by exists names|].
    split; [by intros [|]|]. split; [done|]. intros _ _ Hn. by destruct Hn.
  - eexists. split; [done|]. cbn [toast setExpenseForm setCategories income
      expenses rate categories expenseForm toasts ExpenseForm.category draws].
    do 3 (split; [done|]). split; [|split; [by intros [|]|split; [by intros _ _ Hn|]]].
    2: { intros _ _ _. by rewrite Hcs. }
    exists (names ++ [trim B typed]). rewrite Hcs, !fmap_app. split; [done|].
    apply NoDup_app. split; [done|]. split; [|apply NoDup_singleton].
    intros x Hx ->%list_elem_of_singleton. done.
Qed.

Lemma onAddCategory_distinct_witness :
  ∃ s', onAddCategory sample_builtins sample_host (Some "Rent") initial = Some s' ∧
        categories s' = categories initial ++ [VStr "Rent"].
Proof.
  destruct (onAddCategory_distinct sample_builtins sample_host (Some "Rent")
              initial DEFAULT_CATEGORIES eq_refl)
    as (s' & Hs' & _ & _ & _ & _ & _ & _ & Hadd); [by_evaluation|].
  exists s'. split; [done|]. apply Hadd; [done|done|by_evaluation].
Defined.

(** After an import that leaves a number among the categories, the check of
    [onAddCategory] throws before it reaches a name. *)
Example onAddCategory_throws :
  onAddCategory sample_builtins sample_host (Some "Rent")
    (setCategories (λ _, [VNum (of_Z 5); VStr "Other"]) initial) = None.
Proof. reflexivity. Qed.

(** ** Deleting a record *)

Lemma is_string_false v id : is_string v id = false ↔ v ≠ VStr id.
Proof.
  destruct v; simpl; try (split; [congruence|done]).
  rewrite bool_decide_eq_false. split; [congruence|]. intros Hs ->. done.
Qed.

(** X10: [onDelete] sends nothing and changes nothing when the prompt is
    declined.  When it is confirmed it sends one DELETE request, to the
    route of the record's type, with the encoded id as the [id] parameter.
    If the server accepts, no record of that type with that id is left,
    every other record of the type is kept, in its order, the records of
    the other type are untouched, and a success toast is shown; otherwise
    both lists are as they were and an error toast carries the server's
    message.  Rate and categories never change. *)
Theorem onDelete_spec (B : Builtins) (H : Host) (id : string) (ty : record_type)
    (ok : bool) (r : reply) (s : State) :
  let out := onDelete B H id ty ok r s in
  rate out.2 = rate s ∧ categories out.2 = categories s ∧
  (ok = false → out = ([], s)) ∧
  (ok = true →
     out.1 = [{| method := "DELETE";
                 url := (match ty with
                         | income_record_type => "/api/income"
                         | expense_record_type => "/api/expenses"
                         end) ++ "?id=" ++ encodeURIComponent H id;
                 body := VUndefined |}] ∧
     (r = Accepted →
        match ty with
        | income_record_type =>
            Forall (λ row, IncomeRow.id row ≠ VStr id) (income out.2) ∧
            (∀ row, IncomeRow.id row ≠ VStr id → row ∈ income s → row ∈ income out.2) ∧
            income out.2 `sublist_of` income s ∧
            expenses out.2 = expenses s
        | expense_record_type =>
            Forall (λ row, ExpenseRow.id row ≠ VStr id) (expenses out.2) ∧
            (∀ row, ExpenseRow.id row ≠ VStr id → row ∈ expenses s →
                    row ∈ expenses out.2) ∧
            expenses out.2 `sublist_of` expenses s ∧
            income out.2 = income s
        end ∧
        toasts out.2 = toasts s ++ [{| toast_id := uid B (draws s);
                                       message := "Record deleted";
                                       type := success |}]) ∧
     (r ≠ Accepted →
        income out.2 = income s ∧ expenses out.2 = expenses s ∧
        toasts out.2
        = toasts s ++ [{| toast_id := uid B (draws s);
                          message := failure_message B r "Failed to delete record"
                                       "Failed to delete record from database.";
                          type := error |}])).
Proof.
  cbv zeta. unfold onDelete. destruct ok; cbn [negb].
  2: { repeat split; try done. }
  split; [by destruct r, ty|]. split; [by destruct r, ty|].
  split; [done|]. intros _. split; [by destruct r|]. split.
  - intros ->. cbn [snd toast toasts income expenses]. split; [|by destruct ty].
    destruct ty; cbn [setIncome setExpenses income expenses].
    + split; [|split; [|split; [apply sublist_filter|done]]].
      * apply Forall_forall. intros row [Hrow _]%list_elem_of_filter.
        by apply is_string_false.
      * intros row Hrow Hin. apply list_elem_of_filter. split; [|done].
        by apply is_string_false.
    + split; [|split; [|split; [apply sublist_filter|done]]].
      * apply Forall_forall. intros row [Hrow _]%list_elem_of_filter.
        by apply is_string_false.
      * intros row Hrow Hin. apply list_elem_of_filter. split; [|done].
        by apply is_string_false.
  - intros Hr. by destruct r.
Qed.

(** Two records share an id: both go; a declined prompt sends nothing; a
    refusal shows the server's message. *)
Example onDelete_sample :
  let s := setIncome (λ _, [sample_income "a" (of_Z 1); sample_income "b" (of_Z 2);
                            sample_income "a" (of_Z 3)]) initial in
  IncomeRow.amount <$> income (onDelete sample_builtins sample_host "a"
                                 income_record_type true Accepted s).2
    = [of_Z 2] ∧
  (onDelete sample_builtins sample_host "a" income_record_type false Accepted s).1
    = [] ∧
  message <$> toasts (onDelete sample_builtins sample_host "a" income_record_type
                        true (Refused (VObj [("error", VStr "Income not found")])) s).2
    = ["Income not found"].
Proof. cbv zeta. split; [|split]; by vm_compute. Qed.

(** ** Toasts *)

(** X11: when the timer of a toast fires, no toast with its id is left;
    the toasts shown before it was raised and those raised since are all
    still shown, in their order, provided none of them has the same id (the
    ids come from the clock and a random number: nothing makes them
    differ); the records are not touched. *)
Theorem toast_timeout_spec (B : Builtins) (msg : string) (ty : ToastType)
    (s : State) (later : list Toast) :
  let id := uid B (draws s) in
  let shown := setToasts (λ t, t ++ later) (toast B msg ty s) in
  Forall (λ x, toast_id x ≠ id) (toasts (toast_timeout id shown)) ∧
  (Forall (λ x, toast_id x ≠ id) (toasts s ++ later) →
   toasts (toast_timeout id shown) = toasts s ++ later) ∧
  income (toast_timeout id shown) = income s ∧
  expenses (toast_timeout id shown) = expenses s.
Proof.
  cbv zeta. cbn [toast_timeout setToasts toast toasts income expenses].
  split; [|split; [|done]].
  - apply Forall_forall. by intros x [Hx _]%list_elem_of_filter.
  - intros [Hs Hl]%Forall_app. rewrite !filter_app.
    rewrite filter_cons_False by (cbn; tauto). rewrite filter_nil, app_nil_r.
    f_equal.
    + clear -Hs. induction Hs as [|x l Hx Hl IH]; [done|].
      by rewrite filter_cons_True, IH.
    + clear -Hl. induction Hl as [|x l Hx Hl IH]; [done|].
      by rewrite filter_cons_True, IH.
Qed.

(** ** Loading the ledger *)

Lemma mapM_pure {C} (f : value → Eff C) (g : value → C) (l : list value) t :
  (∀ n t, readable n → f n t = (Some (g n), t)) →
  Forall readable l →
  mapM f l t = (Some (g <$> l), t).
Proof.
  intros Hf Hl. induction Hl as [|n l Hn Hl IH]; [done|].
  cbn [mapM]. unfold bind at 1. rewrite (Hf _ _ Hn).
  unfold bind at 1. by rewrite IH.
Qed.

Lemma loaded_income_run B n t :
  readable n → loaded_income B n t = (Some (loaded_income_row B n), t).
Proof.
  intros Hn. unfold loaded_income, loaded_income_row, bind, read.
  rewrite !get_readable by done. unfold or_else.
  destruct (truthy (get_opt n "description")); unfold ret, read;
    by rewrite ?get_readable by done.
Qed.

Lemma loaded_expense_run B n t :
  readable n → loaded_expense B n t = (Some (loaded_expense_row B n), t).
Proof.
  intros Hn. unfold loaded_expense, loaded_expense_row, bind, read.
  rewrite !get_readable by done. unfold or_else.
  destruct (truthy (get_opt n "description")); unfold ret, read;
    by rewrite ?get_readable by done.
Qed.

Lemma loaded_income_throws B n t : ¬ readable n → loaded_income B n t = (None, t).
Proof. intros Hn. destruct n; try done; by destruct Hn. Qed.

Lemma loaded_expense_throws B n t : ¬ readable n → loaded_expense B n t = (None, t).
Proof. intros Hn. destruct n; try done; by destruct Hn. Qed.

Lemma name_run c t : readable c → read c "name" t = (Some (get_opt c "name"), t).
Proof. intros Hc. unfold read. by rewrite get_readable. Qed.

Lemma name_throws c t : ¬ readable c → read c "name" t = (None, t).
Proof. intros Hn. destruct c; try done; by destruct Hn. Qed.

(** An answer is mapped in full when each of its elements can be read, and
    the mapping throws otherwise. *)
Lemma map_if_array_run {C} (f : value → Eff C) (g : value → C) data t :
  (∀ n t, readable n → f n t = (Some (g n), t)) →
  (∀ n t, ¬ readable n → f n t = (None, t)) →
  map_if_array f data t
  = (if decide (Forall readable (rows_of data)) then Some (g <$> rows_of data)
     else None, t).
Proof.
  intros Hf Hbad. destruct (decide _) as [Hl|Hl].
  { unfold map_if_array, rows_of in *.
    destruct (isArray data); [by apply mapM_pure|done]. }
  apply not_Forall_Exists in Hl; [|apply _].
  unfold map_if_array, rows_of in *.
  destruct (isArray data); [|by apply Exists_nil in Hl].
  induction Hl as [n l Hn|n l Hl IH].
  - cbn [mapM]. unfold bind. by rewrite (Hbad _ _ Hn).
  - cbn [mapM]. unfold bind. destruct (decide (readable n)) as [Hn|Hn].
    + rewrite (Hf _ _ Hn). by rewrite IH.
    + by rewrite (Hbad _ _ Hn).
Qed.

(** The two arrays of rows: read in full, or not at all. *)
Lemma loaded_rows B idata edata t :
  (let* inc := map_if_array (loaded_income B) idata in
   let* exp := map_if_array (loaded_expense B) edata in
   ret (inc, exp)) t
  = (if decide (Forall readable (rows_of idata) ∧ Forall readable (rows_of edata))
     then Some (loaded_income_row B <$> rows_of idata,
                loaded_expense_row B <$> rows_of edata)
     else None, t).
Proof.
  unfold bind.
  rewrite (map_if_array_run _ _ idata t (loaded_income_run B) (loaded_income_throws B)).
  destruct (decide (Forall readable (rows_of idata))) as [Hi|Hi].
  - rewrite (map_if_array_run _ _ edata t (loaded_expense_run B)
               (loaded_expense_throws B)).
    destruct (decide (Forall readable (rows_of edata))) as [He|He].
    + by rewrite decide_True.
    + rewrite decide_False; [done|]. by intros [_ ?].
  - rewrite decide_False; [done|]. by intros [? _].
Qed.

(** X12: the ledger on screen is replaced only when the load can use both
    the income and the expenses answer.  When the session is not
    authenticated, or the effect was cleaned up before the answers were
    handled, or the income or the expenses request failed, was answered
    with an error status or holds an element that cannot be read, or the
    categories request failed: income, expenses, categories and rate are as
    they were.  Unless the load did not start or was cleaned up, the
    loading flag is then cleared and one error toast is shown. *)
Theorem loadData_failed (B : Builtins) (status : SessionStatus)
    (incomeRes expensesRes categoriesRes : fetched) (cancelled : bool)
    (page : State * bool) :
  let out := loadData B status incomeRes expensesRes categoriesRes cancelled page in
  status ≠ authenticated ∨ cancelled = true ∨
  (∀ data, incomeRes = Body data → ¬ Forall readable (rows_of data)) ∨
  (∀ data, expensesRes = Body data → ¬ Forall readable (rows_of data)) ∨
  categoriesRes = Rejected →
  income out.1 = income page.1 ∧ expenses out.1 = expenses page.1 ∧
  categories out.1 = categories page.1 ∧ rate out.1 = rate page.1 ∧
  (status ≠ authenticated → out = page) ∧
  (status = authenticated → cancelled = true → out = (page.1, true)) ∧
  (status = authenticated → cancelled = false →
     out.2 = false ∧
     toasts out.1 = toasts page.1 ++ [{| toast_id := uid B (draws page.1);
                                         message := LOAD_FAILED;
                                         type := error |}]).
Proof.
  cbv zeta. intros Hcase. unfold loadData.
  destruct status; [by repeat split| |by repeat split].
  destruct cancelled; [by repeat split|].
  assert (∀ out : State * bool,
            out = (toast B LOAD_FAILED error page.1, false) →
            income out.1 = income page.1 ∧ expenses out.1 = expenses page.1 ∧
            categories out.1 = categories page.1 ∧ rate out.1 = rate page.1 ∧
            (authenticated ≠ authenticated → out = page) ∧
            (authenticated = authenticated → false = true → out = (page.1, true)) ∧
            (authenticated = authenticated → false = false →
               out.2 = false ∧
               toasts out.1 = toasts page.1 ++ [{| toast_id := uid B (draws page.1);
                                                   message := LOAD_FAILED;
                                                   type := error |}])) as Hfailed.
  { intros out ->. by repeat split. }
  destruct incomeRes as [| |idata]; [by apply Hfailed..|].
  destruct expensesRes as [| |edata]; [by apply Hfailed..|].
  assert (¬ (Forall readable (rows_of idata) ∧ Forall readable (rows_of edata))
          ∨ categoriesRes = Rejected) as [Hbad | ->].
  { destruct Hcase as [?|[?|[Hi|[He|?]]]]; [done|done| | |by right]; left.
    - intros [? _]. by apply (Hi idata).
    - intros [_ ?]. by apply (He edata). }
  - destruct categoriesRes as [| |cdata]; [by apply Hfailed| |];
      rewrite loaded_rows, decide_False by done; by apply Hfailed.
  - by apply Hfailed.
Qed.

Lemma loadData_failed_witness :
  income (loadData sample_builtins authenticated NotOk (Body sample_expenses_answer)
            NotOk false (initial, true)).1 = [].
Proof.
  refine (proj1 (loadData_failed sample_builtins authenticated NotOk
                   (Body sample_expenses_answer) NotOk false (initial, true) _)).
  right. right. left. done.
Defined.

Lemma Set_fold_prefix l seen : seen `prefix_of` fold_left Set_add l seen.
Proof.
  revert seen. induction l as [|x l IH]; intros seen; [done|].
  simpl. etrans; [|apply IH]. unfold Set_add.
  destruct (existsb _ seen); [done|]. by apply prefix_app_r.
Qed.

Lemma Set_from_defaults_prefix l :
  (VStr <$> DEFAULT_CATEGORIES) `prefix_of` Set_from ((VStr <$> DEFAULT_CATEGORIES) ++ l).
Proof.
  unfold Set_from. rewrite fold_left_app.
  assert (fold_left Set_add (VStr <$> DEFAULT_CATEGORIES) []
          = VStr <$> DEFAULT_CATEGORIES) as -> by reflexivity.
  apply Set_fold_prefix.
Qed.

(** X13: when the session is authenticated, the effect is not cleaned up,
    the income and the expenses answer arrive with every element readable,
    and the categories answer is an error status or arrives with every
    element readable: the income and expense lists become the rows of the
    answers (none when an answer is not an array), each with the server's
    [description] (else [desc]) as its description, [Number] of the server's
    amount as its amount and absent notes as the empty string; the loading
    flag is cleared and no toast is shown.  The categories become the
    deduplicated union of the default categories, the names of the
    categories answer and the truthy categories of the loaded expenses: the
    default categories come first, in their order, the list holds exactly
    the members of the three, and none twice when names and categories are
    primitive values. *)
Theorem loadData_loaded (B : Builtins) (idata edata : value)
    (categoriesRes : fetched) (s : State) (flag : bool) :
  Forall readable (rows_of idata) →
  Forall readable (rows_of edata) →
  (∀ cdata, categoriesRes = Body cdata → Forall readable (rows_of cdata)) →
  categoriesRes ≠ Rejected →
  let out := loadData B authenticated (Body idata) (Body edata) categoriesRes
               false (s, flag) in
  let names :=
    match categoriesRes with
    | Body cdata => (λ c, get_opt c "name") <$> rows_of cdata
    | _ => []
    end in
  let expCats := filter (λ c, truthy c = true) (ExpenseRow.category <$> expenses out.1) in
  income out.1 = loaded_income_row B <$> rows_of idata ∧
  expenses out.1 = loaded_expense_row B <$> rows_of edata ∧
  out.2 = false ∧ toasts out.1 = toasts s ∧ rate out.1 = rate s ∧
  categories out.1 = Set_from ((VStr <$> DEFAULT_CATEGORIES) ++ names ++ expCats) ∧
  (VStr <$> DEFAULT_CATEGORIES) `prefix_of` categories out.1 ∧
  (∀ c, c ∈ categories out.1 ↔
        c ∈ VStr <$> DEFAULT_CATEGORIES ∨ c ∈ names ∨
        (truthy c = true ∧ c ∈ ExpenseRow.category <$> expenses out.1)) ∧
  (Forall primitive names →
   Forall primitive (ExpenseRow.category <$> expenses out.1) →
   NoDup (categories out.1)).
Proof.
  intros Hi He Hc Hnr. cbv zeta.
  assert (∃ names,
    names = match categoriesRes with
            | Body cdata => (λ c, get_opt c "name") <$> rows_of cdata
            | _ => []
            end ∧
    loadData B authenticated (Body idata) (Body edata) categoriesRes false (s, flag)
    = (setCategories
         (λ _, Set_from ((VStr <$> DEFAULT_CATEGORIES) ++ names
                 ++ filter (λ c, truthy c = true)
                      (ExpenseRow.category <$> (loaded_expense_row B <$> rows_of edata))))
         (setExpenses (λ _, loaded_expense_row B <$> rows_of edata)
            (setIncome (λ _, loaded_income_row B <$> rows_of idata) s)), false))
    as (names & Hnames & ->).
  { eexists. split; [done|]. unfold loadData. cbn [fst].
    destruct categoriesRes as [| |cdata]; [done| |].
    - rewrite loaded_rows, decide_True by done. reflexivity.
    - rewrite loaded_rows, decide_True by done.
      rewrite (map_if_array_run _ (λ c, get_opt c "name") cdata _ name_run name_throws).
      by rewrite decide_True by (by apply Hc). }
  rewrite <-Hnames.
  cbn [fst snd setCategories setExpenses setIncome income expenses categories
       toasts rate].
  do 6 (split; [done|]). split; [apply Set_from_defaults_prefix|]. split.
  - intros c. rewrite (proj1 (Set_from_union _)), !elem_of_app, list_elem_of_filter.
    done.
  - intros Hn Hp. apply Set_from_union. apply Forall_app. split.
    + apply Forall_fmap, Forall_true. intros x. unfold primitive, compose. simpl.
      by apply bool_decide_eq_true_2.
    + apply Forall_app. split; [done|].
      apply Forall_forall. intros x [_ Hx]%list_elem_of_filter.
      by apply (proj1 (Forall_forall _ _) Hp).
Qed.

Lemma loadData_loaded_witness :
  income (loadData sample_builtins authenticated (Body sample_income_answer)
            (Body sample_expenses_answer) NotOk false (initial, true)).1
  = loaded_income_row sample_builtins <$> rows_of sample_income_answer.
Proof.
  refine (proj1 (loadData_loaded sample_builtins sample_income_answer
                   sample_expenses_answer NotOk initial true _ _ _ _));
    [by_evaluation|by_evaluation|done|done].
Defined.

(** The sample answers, loaded; and a categories answer with an unreadable
    element: the rows are replaced, the categories are not, and the failure
    is reported. *)
Example loadData_sample :
  let out := loadData sample_builtins authenticated (Body sample_income_answer)
               (Body sample_expenses_answer) NotOk false (initial, true) in
  let partial := loadData sample_builtins authenticated (Body sample_income_answer)
                   (Body sample_expenses_answer) (Body (VArr [VNull])) false
                   (initial, true) in
  income out.1
    = [IncomeRow.mk (VStr "i1") (VStr "2024-01-01") (VStr "Salary") (of_Z 1500000)
         (VStr "")] ∧
  categories out.1 = (VStr <$> DEFAULT_CATEGORIES) ++ [VStr "Rent"] ∧
  length (income partial.1) = 1%nat ∧ length (expenses partial.1) = 1%nat ∧
  categories partial.1 = categories initial ∧
  message <$> toasts partial.1 = [LOAD_FAILED].
Proof. cbv zeta. split; [|split; [|split; [|split; [|split]]]]; by vm_compute. Qed.

(** ** Theme and tab *)

(** X14: [toggleTheme] always leaves one of the two themes, the other one
    than before; the page state, the attribute of the document and the
    stored theme agree on it, and no other key of the storage is touched.
    The choice survives a reload: the layout's script and the loading
    effect of a fresh page give the same theme and attribute, and the
    registration page loads it too; toggling twice from one of the two
    themes gives the first one back.  A theme toggled on the registration
    page is likewise the one the main page loads. *)
Theorem theme_persists (page : Appearance * gmap string string)
    (reg : Register.State) :
  let page' := toggleTheme page in
  let reg' := Register.toggleTheme (reg, page.2) in
  (theme page'.1 = "dark" ∨ theme page'.1 = "light") ∧
  theme page'.1 ≠ theme page.1 ∧
  data_theme page'.1 = Some (theme page'.1) ∧
  page'.2 !! "budget_theme" = Some (theme page'.1) ∧
  (∀ k, k ≠ "budget_theme" → page'.2 !! k = page.2 !! k) ∧
  load_theme page'.2 = page'.1 ∧
  Register.theme (Register.loadTheme page'.2 reg) = theme page'.1 ∧
  (theme page.1 = "dark" ∨ theme page.1 = "light" →
   theme (toggleTheme page').1 = theme page.1) ∧
  (Register.theme reg'.1 = "dark" ∨ Register.theme reg'.1 = "light") ∧
  load_theme reg'.2 = {| theme := Register.theme reg'.1;
                         data_theme := Some (Register.theme reg'.1) |}.
Proof.
  cbv zeta. destruct page as [a ls].
  unfold toggleTheme, load_theme, loadTheme, layout_script, Register.toggleTheme,
    Register.loadTheme.
  cbn [fst snd theme data_theme Register.theme Register.setTheme].
  destruct (decide (theme a = "dark")) as [Hd|Hd];
    destruct (decide (Register.theme reg = "dark")) as [Hr|Hr];
    rewrite ?(bool_decide_eq_true_2 _ Hd), ?(bool_decide_eq_false_2 _ Hd),
      ?(bool_decide_eq_true_2 _ Hr), ?(bool_decide_eq_false_2 _ Hr);
    rewrite !lookup_insert_eq;
    cbn [fst snd theme data_theme Register.theme Register.setTheme bool_decide
         orb];
    (split; [first [by left | by right]|]);
    (split; [first [by rewrite Hd | done]|]);
    (split; [done|]); (split; [done|]);
    (split; [by intros k Hk; rewrite lookup_insert_ne|]);
    (split; [done|]); (split; [done|]);
    (split; [first [by rewrite Hd | by intros [?| ->]]|]);
    (split; [first [by left | by right]|done]).
Qed.

(** X15: after the page has loaded, the stored tab is the active tab: a
    stored text that is not empty is adopted as it is, and without one the
    tab is [income].  A tab selected afterwards is stored, so a reload
    gives the same tab and the same storage.  A panel is shown exactly
    when the tab is one of [income], [expenses] and [summary]. *)
Theorem tab_persists (localStorage : gmap string string) (tab : string) :
  let page := load_tab localStorage in
  page.2 !! "budget_active_tab" = Some page.1 ∧
  (∀ last, localStorage !! "budget_active_tab" = Some last → last ≠ "" →
           page.1 = last) ∧
  (localStorage !! "budget_active_tab" = None ∨
   localStorage !! "budget_active_tab" = Some "" → page.1 = "income") ∧
  (tab ≠ "" → load_tab (setTab tab page).2 = setTab tab page) ∧
  (hidden "income" tab = false ∨ hidden "expenses" tab = false ∨
   hidden "summary" tab = false ↔
   tab = "income" ∨ tab = "expenses" ∨ tab = "summary").
Proof.
  cbv zeta.
  assert (∀ ls t, t ≠ "" → ls !! "budget_active_tab" = Some t →
                  load_tab ls = (t, ls)) as Hload.
  { intros ls t Ht Hls. unfold load_tab, loadTab, setTab, saveTab. rewrite Hls.
    rewrite (bool_decide_eq_false_2 _ Ht). cbn [fst snd]. f_equal.
    case_bool_decide as Hi.
    - subst t. by apply insert_id.
    - rewrite insert_insert_eq. by apply insert_id. }
  assert (∀ t, (load_tab localStorage).1 = t →
               (load_tab localStorage).2 !! "budget_active_tab" = Some t) as Hkept.
  { unfold load_tab, setTab, saveTab. cbn [fst snd]. intros t <-.
    case_bool_decide as Hi; [by rewrite Hi, lookup_insert_eq|].
    by rewrite lookup_insert_eq. }
  split; [by apply Hkept|]. split; [|split; [|split]].
  - intros last Hlast Hne. unfold load_tab, loadTab, setTab. cbn [fst].
    by rewrite Hlast, bool_decide_eq_false_2.
  - unfold load_tab, loadTab, setTab. cbn [fst]. by intros [-> | ->].
  - intros Ht. apply Hload; [done|]. unfold setTab, saveTab. cbn [fst snd].
    case_bool_decide as Hi; [|by rewrite lookup_insert_eq].
    by apply Hkept.
  - unfold hidden. rewrite !negb_false_iff, !bool_decide_eq_true. done.
Qed.

(** A stored tab that is no tab of the page is adopted all the same, and
    then every panel is hidden. *)
Example tab_unknown :
  let page := load_tab {["budget_active_tab" := "settings"]} in
  page.1 = "settings" ∧
  hidden "income" page.1 = true ∧ hidden "expenses" page.1 = true ∧
  hidden "summary" page.1 = true.
Proof. cbv zeta. split; [|split; [|split]]; by vm_compute. Qed.

(** ** The stored rate *)

Lemma usable_passes r : usable r → negb (isFinite r) || (r <=? 0)%js = false.
Proof. intros [Hf Hpos]. by rewrite Hf, (js_lt_not_le _ _ Hpos). Qed.



(** ** Today's date *)

Lemma String_length_app (s1 s2 : string) :
  String.length (s1 ++ s2) = (String.length s1 + String.length s2)%nat.
Proof. induction s1 as [|c s1 IH]; [done|]. simpl. by rewrite IH. Qed.

Lemma two_digits_days :
  Forall (λ k, two_digits (padStart_2_0 (pretty k))) (seqZ 1 31).
Proof. by_evaluation. Qed.

Lemma four_digit_years :
  Forall (λ y, String.length (pretty y) = 4%nat) (seqZ 1000 9000).
Proof. by_evaluation. Qed.

(** X17: for a month index from 0 to 11 and a day from 1 to 31, the date
    text the page builds is the year, a hyphen, two digits, a hyphen and two
    digits, a single digit being padded with a zero; for a year of four
    digits it has ten characters.  The effect that initialises the forms
    gives this text to a form whose date is empty, leaves a date that is
    filled in, and touches no record. *)
Theorem today_format (t : LocalDate) (s : State) :
  (0 ≤ getMonth t ≤ 11)%Z → (1 ≤ getDate t ≤ 31)%Z →
  (∃ m d, today t = (pretty (getFullYear t) ++ "-" ++ m ++ "-" ++ d)%string ∧
          two_digits m ∧ two_digits d) ∧
  ((1000 ≤ getFullYear t ≤ 9999)%Z → String.length (today t) = 10%nat) ∧
  IncomeForm.date (incomeForm (initDates t s))
    = (if bool_decide (IncomeForm.date (incomeForm s) = "") then today t
       else IncomeForm.date (incomeForm s)) ∧
  ExpenseForm.date (expenseForm (initDates t s))
    = (if bool_decide (ExpenseForm.date (expenseForm s) = "") then today t
       else ExpenseForm.date (expenseForm s)) ∧
  income (initDates t s) = income s ∧ expenses (initDates t s) = expenses s.
Proof.
  intros Hm Hd.
  assert (two_digits (padStart_2_0 (pretty (getMonth t + 1)%Z))) as Hmm.
  { apply (proj1 (Forall_forall _ _) two_digits_days).
    apply elem_of_seqZ. lia. }
  assert (two_digits (padStart_2_0 (pretty (getDate t)))) as Hdd.
  { apply (proj1 (Forall_forall _ _) two_digits_days).
    apply elem_of_seqZ. lia. }
  split; [by eexists _, _|]. split; [|].
  - intros Hy. unfold today. cbv zeta.
    assert (String.length (pretty (getFullYear t)) = 4%nat) as Hyy.
    { apply (proj1 (Forall_forall _ _) four_digit_years).
      apply elem_of_seqZ. lia. }
    destruct (padStart_2_0 (pretty (getMonth t + 1)%Z)) as [|a [|b [|c m]]]; try done.
    destruct (padStart_2_0 (pretty (getDate t))) as [|a' [|b' [|c' d]]]; try done.
    rewrite String_length_app, Hyy. done.
  - unfold initDates. cbv zeta.
    by do 2 case_bool_decide.
Qed.

Lemma today_format_witness :
  String.length (today {| getFullYear := 2024; getMonth := 0; getDate := 5 |})
  = 10%nat.
Proof.
  refine (proj1 (proj2 (today_format {| getFullYear := 2024; getMonth := 0;
                                         getDate := 5 |} initial _ _)) _);
    cbn; lia.
Defined.

Example today_sample :
  today {| getFullYear := 2024; getMonth := 0; getDate := 5 |} = "2024-01-05" ∧
  today {| getFullYear := 2024; getMonth := 10; getDate := 23 |} = "2024-11-23".
Proof. split; by vm_compute. Qed.

(** ** The registration page *)

(** X18: [handleSubmit] sends nothing and pushes no route when the two
    passwords differ (the message says so, also for a short password) or,
    when they agree, the password has fewer than 6 code units.  Otherwise
    it sends exactly one POST to [/api/auth/register], carrying the name,
    the email and the password, and ends with the loading flag cleared;
    it pushes the login route exactly when the response is ok and its body
    is JSON, with an empty error then, and in every other case it pushes
    nothing and leaves an error that is shown.  The password field is
    never changed. *)
Theorem register_handleSubmit (H : Host) (r : Register.answered) (s : Register.State) :
  let out := Register.handleSubmit H r s in
  let sent := out.1.1 in
  let pushed := out.1.2 in
  Register.password out.2 = Register.password s ∧
  (Register.password s ≠ Register.confirmPassword s →
     sent = [] ∧ pushed = None ∧
     out.2 = Register.setError (VStr "Passwords do not match") s) ∧
  (Register.password s = Register.confirmPassword s →
   (String_length H (Register.password s) < 6)%nat →
     sent = [] ∧ pushed = None ∧
     out.2 = Register.setError (VStr "Password must be at least 6 characters") s) ∧
  (Register.password s = Register.confirmPassword s →
   (6 ≤ String_length H (Register.password s))%nat →
     sent = [{| method := "POST"; url := "/api/auth/register";
                body := VObj [("name", VStr (Register.name s));
                              ("email", VStr (Register.email s));
                              ("password", VStr (Register.password s))] |}] ∧
     Register.loading out.2 = false ∧
     (pushed = Some "/login?registered=true" ∧ Register.error out.2 = VStr "" ∨
      pushed = None ∧ truthy (Register.error out.2) = true) ∧
     (pushed ≠ None ↔ ∃ data, r = Register.Answer true (Some data))).
Proof.
  cbv zeta. unfold Register.handleSubmit.
  destruct (decide (Register.password s = Register.confirmPassword s)) as [Hp|Hp].
  2: { rewrite (bool_decide_eq_false_2 _ Hp). cbn [negb].
       split; [done|]. split; [done|]. split; intros ?; done. }
  rewrite (bool_decide_eq_true_2 _ Hp). cbn [negb].
  destruct (Nat.ltb_spec (String_length H (Register.password s)) 6) as [Hl|Hl].
  { split; [done|]. split; [done|]. split; [done|]. intros _ ?. lia. }
  assert (∀ e, truthy (or_else e (VStr "Registration failed")) = true) as Hor.
  { intros e. unfold or_else. by destruct (truthy e) eqn:E. }
  destruct r as [|[] [data|]]; try destruct (get data "error") as [e|];
    cbn [fst snd Register.setLoading Register.setError Register.error
         Register.password Register.loading];
    (split; [done|]; split; [done|]; split; [intros _ ?; lia|]; intros _ _;
     split; [done|]; split; [done|]; split;
     [first [by left | right; split; [done|]; first [done | apply Hor]]
     |split; [intros Hn; first [by destruct Hn | by eexists]
             |intros [d Hd]; first [discriminate Hd | done]]]).
Qed.

(** An accepted registration, a refused one, and an answer that is ok but
    is not JSON. *)
Example register_sample :
  (Register.handleSubmit sample_host (Register.Answer true (Some (VObj [])))
     sample_registration).1.2
    = Some "/login?registered=true" ∧
  Register.error
    (Register.handleSubmit sample_host
       (Register.Answer false (Some (VObj [("error", VStr "Email already registered")])))
       sample_registration).2 = VStr "Email already registered" ∧
  Register.error
    (Register.handleSubmit sample_host (Register.Answer true None)
       sample_registration).2
    = VStr "An error occurred. Please try again.".
Proof. split; [|split]; by vm_compute. Qed.

(** ** The GET, POST and PUT routes *)

Section Statement_lemmas.
Context {R : Type} (key owner : R → string).

(** What UPDATE leaves: each row that matches replaced by what SET makes of
    it, in place; the rows returned are the replaced ones. *)
Lemma update_returning_spec (id : option string) (userId : string)
    (set : R → option R) (table rows table' : list R) :
  update_returning key owner id userId set table = Some (rows, table') →
  Forall2 (λ r r', if bool_decide (Some (key r) = id ∧ owner r = userId)
                   then set r = Some r' else r' = r) table table' ∧
  (rows = [] → table' = table) ∧
  (rows ≠ [] ↔ Exists (λ r, Some (key r) = id ∧ owner r = userId) table).
Proof.
  revert rows table'. induction table as [|r rest IH]; intros rows table'; simpl.
  - intros [= <- <-]. split; [constructor|]. split; [done|].
    split; [done|]. by intros ?%Exists_nil.
  - destruct (update_returning _ _ _ _ _ rest) as [[rows0 rest']|]; [|done].
    destruct (IH _ _ eq_refl) as (Hall & Hnil & Hex).
    case_bool_decide as Hm.
    + destruct (set r) as [r'|] eqn:Hset; [|done]. intros [= <- <-].
      split; [constructor; [by rewrite bool_decide_eq_true_2|done]|].
      split; [done|]. split; [intros _; by left|done].
    + intros [= <- <-].
      split; [constructor; [by rewrite bool_decide_eq_false_2|done]|].
      split; [intros Hr; by rewrite (Hnil Hr)|].
      rewrite Hex, Exists_cons. tauto.
Qed.

(** UPDATE is rejected only when SET cannot be carried out on a row that
    matches. *)
Lemma update_returning_None (id : option string) (userId : string)
    (set : R → option R) (table : list R) :
  update_returning key owner id userId set table = None ↔
  Exists (λ r, (Some (key r) = id ∧ owner r = userId) ∧ set r = None) table.
Proof.
  induction table as [|r rest IH]; simpl.
  - split; [done|]. by intros ?%Exists_nil.
  - rewrite Exists_cons.
    destruct (update_returning _ _ _ _ _ rest) as [[rows0 rest']|].
    + case_bool_decide as Hm.
      * destruct (set r) as [r'|] eqn:Hset.
        -- split; [done|]. intros [[_ ?]|Hex]; [done|]. by apply IH in Hex.
        -- split; [by left|done].
      * split; [done|]. intros [[? _]|Hex]; [done|]. by apply IH in Hex.
    + split; [intros _; right; by apply IH|done].
Qed.

Lemma Forall2_update_filter (P : R → Prop) `{∀ r, Decision (P r)}
    (Q : R → Prop) `{∀ r, Decision (Q r)} (set : R → option R)
    (table table' : list R) :
  (∀ r r', Q r → set r = Some r' → ¬ P r ∧ ¬ P r') →
  Forall2 (λ r r', if bool_decide (Q r) then set r = Some r' else r' = r)
    table table' →
  filter P table' = filter P table.
Proof.
  intros Hset. induction 1 as [|r r' table table' Hr Hall IH]; [done|].
  rewrite !filter_cons, IH. case_bool_decide as Hq.
  - destruct (Hset _ _ Hq Hr) as [Hn Hn'].
    by rewrite !decide_False.
  - by subst r'.
Qed.

End Statement_lemmas.

Section Handler_lemmas.
Context {R F : Type} (key owner : R → string).

Lemma update_returning_total (id : option string) (userId : string)
    (set : R → option R) (g : R → R) (table : list R) :
  (∀ r, Some (key r) = id ∧ owner r = userId → set r = Some (g r)) →
  update_returning key owner id userId set table
  = Some (g <$> filter (λ r, Some (key r) = id ∧ owner r = userId) table,
          (λ r, if bool_decide (Some (key r) = id ∧ owner r = userId)
                then g r else r) <$> table).
Proof.
  intros Hset. induction table as [|r rest IH]; [done|].
  cbn [update_returning]. rewrite IH, filter_cons, fmap_cons.
  case_bool_decide as Hm.
  - by rewrite (Hset _ Hm), decide_True.
  - by rewrite decide_False.
Qed.

Lemma update_returning_no_match (id : option string) (userId : string)
    (set : R → option R) (table : list R) :
  Forall (λ r, ¬ (Some (key r) = id ∧ owner r = userId)) table →
  update_returning key owner id userId set table = Some ([], table).
Proof.
  induction 1 as [|r rest Hr Hrest IH]; [done|].
  cbn [update_returning]. by rewrite IH, bool_decide_eq_false_2.
Qed.

Lemma handle_post_failed (s : session) (fields : option F)
    (query : string → F → option (list R * list R)) (table : list R)
    (failedMsg : string) :
  code (handle_post s fields query table failedMsg).1 ≠ 200%nat →
  (handle_post s fields query table failedMsg).2 = table.
Proof.
  unfold handle_post. destruct (getUserId s) as [u|]; [|done].
  case_bool_decide; [done|]. destruct fields as [f|]; [|done].
  by destruct (query u f) as [[rows table']|].
Qed.

Lemma handle_put_failed (up : bool) (s : session) (fields : option F)
    (idf : F → option string) (set : F → R → option R) (table : list R)
    (notFound failedMsg : string) :
  let out := handle_put s fields
               (λ userId f,
                  if up then update_returning key owner (idf f) userId (set f) table
                  else None)
               table notFound failedMsg in
  code out.1 ≠ 200%nat → out.2 = table.
Proof.
  cbv zeta. unfold handle_put. destruct (getUserId s) as [u|]; [|done].
  case_bool_decide; [done|]. destruct fields as [f|]; [|done].
  destruct up; [|done].
  destruct (update_returning _ _ _ _ _ _) as [[rows table']|] eqn:E; [|done].
  apply update_returning_spec in E as (_ & Hnil & _).
  case_bool_decide as Hlen; [|done]. intros _. cbn.
  by apply Hnil, nil_length_inv.
Qed.

Lemma handle_put_spec (up : bool) (s : session) (fields : option F)
    (idf : F → option string) (set : F → R → option R) (table : list R)
    (notFound failedMsg : string) (u : string) (f : F) :
  getUserId s = Some u → u ≠ "" → fields = Some f →
  let matches r := Some (key r) = idf f ∧ owner r = u in
  let out := handle_put s fields
               (λ userId f,
                  if up then update_returning key owner (idf f) userId (set f) table
                  else None)
               table notFound failedMsg in
  (up = false → out = (failure failedMsg 500, table)) ∧
  (up = true →
     (Forall (λ r, ¬ matches r) table → out = (failure notFound 404, table)) ∧
     (Exists (λ r, matches r ∧ set f r = None) table →
        out = (failure failedMsg 500, table)) ∧
     (∀ g, (∀ r, matches r → set f r = Some (g r)) → Exists matches table →
        out = ({| code := 200;
                  payload := Row (head (g <$> filter matches table)) |},
               (λ r, if bool_decide (matches r) then g r else r) <$> table))).
Proof.
  intros Hu Hne ->. cbv zeta. unfold handle_put.
  rewrite Hu, (bool_decide_eq_false_2 _ Hne). split; [by intros ->|].
  intros ->. split; [|split].
  - intros Hnone. by rewrite update_returning_no_match.
  - intros Hex. by rewrite (proj2 (update_returning_None _ _ _ _ _ _) Hex).
  - intros g Hg Hex. rewrite (update_returning_total _ _ _ g) by done.
    rewrite bool_decide_eq_false_2; [done|]. rewrite length_fmap.
    intros Hlen%nil_length_inv. by apply (filter_some _ table Hex).
Qed.

End Handler_lemmas.

Section Post_lemmas.
Context {R F : Type} (key : R → string).

Lemma handle_post_spec (up : bool) (s : session) (fields : option F)
    (row : string → F → option R) (table : list R) (failedMsg : string)
    (u : string) (f : F) :
  getUserId s = Some u → u ≠ "" → fields = Some f →
  let out := handle_post s fields
               (λ userId f,
                  if up then insert_returning key (row userId f) table else None)
               table failedMsg in
  (up = false ∨ row u f = None ∨ (∃ r, row u f = Some r ∧ key r ∈ key <$> table) →
     out = (failure failedMsg 500, table)) ∧
  (∀ r, up = true → row u f = Some r → key r ∉ key <$> table →
     out = ({| code := 200; payload := Row (Some r) |}, table ++ [r])).
Proof.
  intros Hu Hne ->. cbv zeta. unfold handle_post, insert_returning.
  rewrite Hu, (bool_decide_eq_false_2 _ Hne). split.
  - intros [-> | [Hrow | (r & Hrow & Hin)]]; [done| |].
    + rewrite Hrow. by destruct up.
    + rewrite Hrow, (bool_decide_eq_true_2 _ Hin). by destruct up.
  - intros r -> Hrow Hin. by rewrite Hrow, (bool_decide_eq_false_2 _ Hin).
Qed.

Lemma handle_post_200 (up : bool) (s : session) (fields : option F)
    (row : string → F → option R) (table : list R) (failedMsg : string) :
  let out := handle_post s fields
               (λ userId f,
                  if up then insert_returning key (row userId f) table else None)
               table failedMsg in
  code out.1 = 200%nat →
  ∃ u f r, getUserId s = Some u ∧ u ≠ "" ∧ fields = Some f ∧ up = true ∧
           row u f = Some r ∧ (key r ∉ key <$> table) ∧
           out = ({| code := 200; payload := Row (Some r) |}, table ++ [r]).
Proof.
  cbv zeta. unfold handle_post, insert_returning.
  destruct (getUserId s) as [u|]; [|done]. case_bool_decide as Hu; [done|].
  destruct fields as [f|]; [|done]. destruct up; [|done].
  destruct (row u f) as [r|] eqn:Hrow; [|done].
  case_bool_decide as Hin; [done|]. intros _. by exists u, f, r.
Qed.

End Post_lemmas.

(** X19: a GET, POST or PUT request to the income route or the expenses
    route that comes without a session user id is answered with status 401
    and the error [Unauthorized].  With a user id, when the database does
    not carry out the statement, or (POST and PUT) the request has no JSON
    body or the body is [null], the answer has status 500 and the error
    message of the handler.  And whenever a POST or PUT is answered with
    another status than 200, the table is exactly as it was. *)
Theorem routes_failed (P : Postgres) (up : bool) (now : Z) (s : session)
    (body : option value) (incomeT : list IncomeRecord.t)
    (expensesT : list ExpenseRecord.t) :
  (getUserId s = None ∨ getUserId s = Some "" →
     GET_income P up s incomeT = failure "Unauthorized" 401 ∧
     GET_expenses P up s expensesT = failure "Unauthorized" 401 ∧
     POST_income P up now s body incomeT = (failure "Unauthorized" 401, incomeT) ∧
     PUT_income P up now s body incomeT = (failure "Unauthorized" 401, incomeT) ∧
     POST_expenses P up now s body expensesT
       = (failure "Unauthorized" 401, expensesT) ∧
     PUT_expenses P up now s body expensesT
       = (failure "Unauthorized" 401, expensesT)) ∧
  (∀ u, getUserId s = Some u → u ≠ "" →
     up = false ∨ body = None ∨ body = Some VNull →
     (up = false → GET_income P up s incomeT = failure "Failed to fetch income" 500 ∧
                   GET_expenses P up s expensesT
                     = failure "Failed to fetch expenses" 500) ∧
     POST_income P up now s body incomeT
       = (failure "Failed to create income" 500, incomeT) ∧
     PUT_income P up now s body incomeT
       = (failure "Failed to update income" 500, incomeT) ∧
     POST_expenses P up now s body expensesT
       = (failure "Failed to create expense" 500, expensesT) ∧
     PUT_expenses P up now s body expensesT
       = (failure "Failed to update expense" 500, expensesT)) ∧
  (code (POST_income P up now s body incomeT).1 ≠ 200%nat →
     (POST_income P up now s body incomeT).2 = incomeT) ∧
  (code (PUT_income P up now s body incomeT).1 ≠ 200%nat →
     (PUT_income P up now s body incomeT).2 = incomeT) ∧
  (code (POST_expenses P up now s body expensesT).1 ≠ 200%nat →
     (POST_expenses P up now s body expensesT).2 = expensesT) ∧
  (code (PUT_expenses P up now s body expensesT).1 ≠ 200%nat →
     (PUT_expenses P up now s body expensesT).2 = expensesT).
Proof.
  split; [|split; [|split; [|split; [|split]]]].
  - unfold GET_income, GET_expenses, POST_income, PUT_income, POST_expenses,
      PUT_expenses, handle_get, handle_post, handle_put.
    by intros [-> | ->].
  - intros u Hu Hne Hcase.
    unfold GET_income, GET_expenses, POST_income, PUT_income, POST_expenses,
      PUT_expenses, handle_get, handle_post, handle_put.
    rewrite Hu, (bool_decide_eq_false_2 _ Hne).
    split; [by intros ->|].
    destruct Hcase as [-> | [-> | ->]]; [|done..].
    by destruct (income_fields body), (expense_fields body).
  - apply handle_post_failed.
  - apply (handle_put_failed IncomeRecord.id IncomeRecord.user_id up s
             (income_fields body) (λ f, prepareValue P f.1.1.1.1)
             (income_updated P now)).
  - apply handle_post_failed.
  - apply (handle_put_failed ExpenseRecord.id ExpenseRecord.user_id up s
             (expense_fields body) (λ f, prepareValue P f.1.1.1.1.1)
             (expense_updated P now)).
Qed.

Section Isolation_lemmas.
Context {R F : Type} (key owner : R → string).

Lemma handle_post_others (up : bool) (s : session) (fields : option F)
    (row : string → F → option R) (table : list R) (failedMsg : string)
    (u v : string) :
  getUserId s = Some u →
  (∀ f r, row u f = Some r → owner r ≠ v) →
  filter (λ r, owner r = v)
    (handle_post s fields
       (λ userId f, if up then insert_returning key (row userId f) table else None)
       table failedMsg).2
  = filter (λ r, owner r = v) table.
Proof.
  intros Hu Hrow.
  destruct (decide (code (handle_post s fields
       (λ userId f, if up then insert_returning key (row userId f) table else None)
       table failedMsg).1 = 200%nat)) as [Hok|Hok].
  - apply handle_post_200 in Hok as (u' & f & r & Hu' & _ & _ & _ & Hr & _ & ->).
    rewrite Hu in Hu'. injection Hu' as <-.
    cbn [snd]. rewrite filter_app, filter_cons_False, filter_nil, app_nil_r; [done|].
    by apply (Hrow f).
  - by rewrite handle_post_failed.
Qed.

Lemma handle_put_others (up : bool) (s : session) (fields : option F)
    (idf : F → option string) (set : F → R → option R) (table : list R)
    (notFound failedMsg : string) (u v : string) :
  getUserId s = Some u → v ≠ u →
  (∀ f r r', set f r = Some r' → owner r' = owner r) →
  filter (λ r, owner r = v)
    (handle_put s fields
       (λ userId f,
          if up then update_returning key owner (idf f) userId (set f) table
          else None)
       table notFound failedMsg).2
  = filter (λ r, owner r = v) table.
Proof.
  intros Hu Hv Hset. unfold handle_put. rewrite Hu.
  case_bool_decide; [done|]. destruct fields as [f|]; [|done].
  destruct up; [|done].
  destruct (update_returning _ _ _ _ _ _) as [[rows table']|] eqn:E; [|done].
  apply update_returning_spec in E as (Hall & _ & _).
  assert (filter (λ r, owner r = v) table' = filter (λ r, owner r = v) table) as Hf.
  { apply (Forall2_update_filter _ (λ r, Some (key r) = idf f ∧ owner r = u) (set f));
      [|done].
    intros r r' [_ Hr] Hr'. rewrite (Hset _ _ _ Hr'), Hr. by split; intros <-. }
  by case_bool_decide.
Qed.

Lemma handle_get_own (up : bool) (s : session) (order_by : list R → list R)
    (table : list R) (failedMsg : string) (u : string) (rows : list R) :
  (∀ l, order_by l ≡ₚ l) →
  getUserId s = Some u →
  payload (handle_get s
             (λ userId, if up then Some (select_where owner order_by userId table)
                        else None) failedMsg) = Rows rows →
  rows ≡ₚ filter (λ r, owner r = u) table ∧ Forall (λ r, owner r = u) rows.
Proof.
  intros Hperm Hu. unfold handle_get, select_where. rewrite Hu.
  case_bool_decide; [done|]. destruct up; [|done]. cbn. intros [= <-].
  split; [done|]. rewrite Hperm. apply Forall_forall.
  by intros r [? _]%list_elem_of_filter.
Qed.

End Isolation_lemmas.

Lemma income_inserted_owner P now u f r :
  income_inserted P now u f = Some r → IncomeRecord.user_id r = varchar P 255 u.
Proof.
  destruct f as [[[[id date] desc] amount] notes]. unfold income_inserted.
  destruct (prepareValue P id); [|done]. destruct (prepareValue P date); [|done].
  destruct (prepareValue P desc); [|done]. destruct (prepareValue P amount); [|done].
  by intros [= <-].
Qed.

Lemma expense_inserted_owner P now u f r :
  expense_inserted P now u f = Some r → ExpenseRecord.user_id r = varchar P 255 u.
Proof.
  destruct f as [[[[[id date] category] desc] amount] notes]. unfold expense_inserted.
  destruct (prepareValue P id); [|done]. destruct (prepareValue P date); [|done].
  destruct (prepareValue P category); [|done].
  destruct (prepareValue P desc); [|done]. destruct (prepareValue P amount); [|done].
  by intros [= <-].
Qed.

Lemma income_updated_kept P now f r r' :
  income_updated P now f r = Some r' →
  IncomeRecord.id r' = IncomeRecord.id r ∧
  IncomeRecord.user_id r' = IncomeRecord.user_id r ∧
  IncomeRecord.created_at r' = IncomeRecord.created_at r ∧
  IncomeRecord.updated_at r' = now.
Proof.
  destruct f as [[[[id date] desc] amount] notes]. unfold income_updated.
  destruct (prepareValue P date); [|done].
  destruct (prepareValue P desc); [|done]. destruct (prepareValue P amount); [|done].
  by intros [= <-].
Qed.

Lemma expense_updated_kept P now f r r' :
  expense_updated P now f r = Some r' →
  ExpenseRecord.id r' = ExpenseRecord.id r ∧
  ExpenseRecord.user_id r' = ExpenseRecord.user_id r ∧
  ExpenseRecord.created_at r' = ExpenseRecord.created_at r ∧
  ExpenseRecord.updated_at r' = now.
Proof.
  destruct f as [[[[[id date] category] desc] amount] notes]. unfold expense_updated.
  destruct (prepareValue P date); [|done]. destruct (prepareValue P category); [|done].
  destruct (prepareValue P desc); [|done]. destruct (prepareValue P amount); [|done].
  by intros [= <-].
Qed.

(** X20: the routes keep the users apart.  Whatever a user with session
    id [u] sends, a POST or a PUT of either route leaves the rows of every
    other user [v] as they were ([v] being neither [u] nor what the owner
    column holds of [u]), and the rows a GET returns are the rows of the
    table whose owner is [u], all of them and no others, in some order. *)
Theorem routes_isolated (P : Postgres) (up : bool) (now : Z) (s : session)
    (body : option value) (u v : string) (incomeT : list IncomeRecord.t)
    (expensesT : list ExpenseRecord.t) :
  getUserId s = Some u → v ≠ u → v ≠ varchar P 255 u →
  filter (λ r, IncomeRecord.user_id r = v) (POST_income P up now s body incomeT).2
    = filter (λ r, IncomeRecord.user_id r = v) incomeT ∧
  filter (λ r, IncomeRecord.user_id r = v) (PUT_income P up now s body incomeT).2
    = filter (λ r, IncomeRecord.user_id r = v) incomeT ∧
  filter (λ r, ExpenseRecord.user_id r = v) (POST_expenses P up now s body expensesT).2
    = filter (λ r, ExpenseRecord.user_id r = v) expensesT ∧
  filter (λ r, ExpenseRecord.user_id r = v) (PUT_expenses P up now s body expensesT).2
    = filter (λ r, ExpenseRecord.user_id r = v) expensesT ∧
  (∀ rows, payload (GET_income P up s incomeT) = Rows rows →
     rows ≡ₚ filter (λ r, IncomeRecord.user_id r = u) incomeT ∧
     Forall (λ r, IncomeRecord.user_id r = u) rows) ∧
  (∀ rows, payload (GET_expenses P up s expensesT) = Rows rows →
     rows ≡ₚ filter (λ r, ExpenseRecord.user_id r = u) expensesT ∧
     Forall (λ r, ExpenseRecord.user_id r = u) rows).
Proof.
  intros Hu Hv Hv'. split; [|split; [|split; [|split; [|split]]]].
  - apply (handle_post_others IncomeRecord.id IncomeRecord.user_id _ _ _ _ _ _ u);
      [done|].
    intros f r Hr. by rewrite (income_inserted_owner _ _ _ _ _ Hr).
  - apply (handle_put_others IncomeRecord.id IncomeRecord.user_id up s
             (income_fields body) (λ f, prepareValue P f.1.1.1.1)
             (income_updated P now) _ _ _ u); [done..|].
    intros f r r' Hr. by apply income_updated_kept in Hr as (_ & ? & _).
  - apply (handle_post_others ExpenseRecord.id ExpenseRecord.user_id _ _ _ _ _ _ u);
      [done|].
    intros f r Hr. by rewrite (expense_inserted_owner _ _ _ _ _ Hr).
  - apply (handle_put_others ExpenseRecord.id ExpenseRecord.user_id up s
             (expense_fields body) (λ f, prepareValue P f.1.1.1.1.1)
             (expense_updated P now) _ _ _ u); [done..|].
    intros f r r' Hr. by apply expense_updated_kept in Hr as (_ & ? & _).
  - intros rows. apply handle_get_own; [|done].
    intros l. apply merge_sort_Permutation.
  - intros rows. apply handle_get_own; [|done].
    intros l. apply merge_sort_Permutation.
Qed.

Lemma routes_isolated_witness :
  filter (λ r, IncomeRecord.user_id r = "u2")
    (POST_income sample_postgres true 5 (User (Some "u1")) (Some sample_income_body)
       [sample_income_record "i1" "u1"; sample_income_record "i2" "u2"]).2
  = filter (λ r, IncomeRecord.user_id r = "u2")
      [sample_income_record "i1" "u1"; sample_income_record "i2" "u2"].
Proof.
  refine (proj1 (routes_isolated sample_postgres true 5 (User (Some "u1"))
                   (Some sample_income_body) "u1" "u2" _ [] eq_refl _ _)); done.
Defined.

Lemma income_fields_readable b :
  readable b →
  income_fields (Some b)
  = Some (get_opt b "id", get_opt b "date", get_opt b "desc", get_opt b "amount",
          get_opt b "notes").
Proof. intros Hb. unfold income_fields. cbn. by rewrite !get_readable. Qed.

Lemma expense_fields_readable b :
  readable b →
  expense_fields (Some b)
  = Some (get_opt b "id", get_opt b "date", get_opt b "category", get_opt b "desc",
          get_opt b "amount", get_opt b "notes").
Proof. intros Hb. unfold expense_fields. cbn. by rewrite !get_readable. Qed.

Lemma fmap_update_kept {R A} (proj : R → A) (Q : R → Prop) `{∀ r, Decision (Q r)}
    (set : R → R) (table : list R) :
  (∀ r, proj (set r) = proj r) →
  proj <$> ((λ r, if bool_decide (Q r) then set r else r) <$> table) = proj <$> table.
Proof.
  intros Hset. rewrite <-list_fmap_compose. apply list_fmap_ext.
  intros i r _. cbn. by destruct (bool_decide (Q r)).
Qed.

(** X21: a PUT by a user with a session id, with a body whose properties
    can be read, on a database that carries the statement out.  When no row
    has the id of the body and that owner, the answer has status 404 and
    the table is as it was.  When a row has: if the date, the description or
    the amount (or, for an expense, the category) of the body is [null] or
    missing, the answer has status 500 and the table is as it was;
    otherwise the answer has status 200 and carries the first changed row,
    each matching row is replaced in place by the row with the columns of
    the body and the time of the statement as [updated_at], every other row
    is as it was, and the ids, the owners and the creation times of the
    table are what they were. *)
Theorem PUT_spec (P : Postgres) (now : Z) (s : session) (b : value) (u : string)
    (incomeT : list IncomeRecord.t) (expensesT : list ExpenseRecord.t) :
  getUserId s = Some u → u ≠ "" → readable b →
  (let matches r :=
     Some (IncomeRecord.id r) = prepareValue P (get_opt b "id") ∧
     IncomeRecord.user_id r = u in
   let out := PUT_income P true now s (Some b) incomeT in
   (Forall (λ r, ¬ matches r) incomeT →
      out = (failure "Income not found" 404, incomeT)) ∧
   (Exists matches incomeT →
      (prepareValue P (get_opt b "date") = None ∨
       prepareValue P (get_opt b "desc") = None ∨
       prepareValue P (get_opt b "amount") = None →
         out = (failure "Failed to update income" 500, incomeT)) ∧
      (∀ d de a,
         prepareValue P (get_opt b "date") = Some d →
         prepareValue P (get_opt b "desc") = Some de →
         prepareValue P (get_opt b "amount") = Some a →
         let set r :=
           IncomeRecord.mk (IncomeRecord.id r) (IncomeRecord.user_id r)
             (varchar P 50 d) de (decimal P a)
             (prepareValue P (or_else (get_opt b "notes") VNull))
             (IncomeRecord.created_at r) now in
         out = ({| code := 200;
                   payload := Row (head (set <$> filter matches incomeT)) |},
                (λ r, if bool_decide (matches r) then set r else r) <$> incomeT) ∧
         IncomeRecord.id <$> out.2 = IncomeRecord.id <$> incomeT ∧
         IncomeRecord.user_id <$> out.2 = IncomeRecord.user_id <$> incomeT ∧
         IncomeRecord.created_at <$> out.2 = IncomeRecord.created_at <$> incomeT))) ∧
  (let matches r :=
     Some (ExpenseRecord.id r) = prepareValue P (get_opt b "id") ∧
     ExpenseRecord.user_id r = u in
   let out := PUT_expenses P true now s (Some b) expensesT in
   (Forall (λ r, ¬ matches r) expensesT →
      out = (failure "Expense not found" 404, expensesT)) ∧
   (Exists matches expensesT →
      (prepareValue P (get_opt b "date") = None ∨
       prepareValue P (get_opt b "category") = None ∨
       prepareValue P (get_opt b "desc") = None ∨
       prepareValue P (get_opt b "amount") = None →
         out = (failure "Failed to update expense" 500, expensesT)) ∧
      (∀ d c de a,
         prepareValue P (get_opt b "date") = Some d →
         prepareValue P (get_opt b "category") = Some c →
         prepareValue P (get_opt b "desc") = Some de →
         prepareValue P (get_opt b "amount") = Some a →
         let set r :=
           ExpenseRecord.mk (ExpenseRecord.id r) (ExpenseRecord.user_id r)
             (varchar P 50 d) (varchar P 255 c) de (decimal P a)
             (prepareValue P (or_else (get_opt b "notes") VNull))
             (ExpenseRecord.created_at r) now in
         out = ({| code := 200;
                   payload := Row (head (set <$> filter matches expensesT)) |},
                (λ r, if bool_decide (matches r) then set r else r) <$> expensesT) ∧
         ExpenseRecord.id <$> out.2 = ExpenseRecord.id <$> expensesT ∧
         ExpenseRecord.user_id <$> out.2 = ExpenseRecord.user_id <$> expensesT ∧
         ExpenseRecord.created_at <$> out.2
           = ExpenseRecord.created_at <$> expensesT))).
Proof.
  intros Hu Hne Hb. split; cbv zeta.
  - destruct (handle_put_spec IncomeRecord.id IncomeRecord.user_id true s
                (income_fields (Some b)) (λ f, prepareValue P f.1.1.1.1)
                (income_updated P now) incomeT "Income not found"
                "Failed to update income" u _ Hu Hne (income_fields_readable b Hb))
      as [_ Hup].
    destruct (Hup eq_refl) as (H404 & H500 & H200). clear Hup.
    split; [exact H404|]. intros Hex. split.
    + intros Hnull. apply H500. eapply Exists_impl; [exact Hex|].
      intros r Hr. split; [exact Hr|]. cbn. unfold income_updated.
      destruct Hnull as [-> | [-> | ->]]; [done| |].
      * by destruct (prepareValue P (get_opt b "date")).
      * by destruct (prepareValue P (get_opt b "date")),
             (prepareValue P (get_opt b "desc")).
    + intros d de a Hd Hde Ha.
      pose (g := λ r, IncomeRecord.mk (IncomeRecord.id r) (IncomeRecord.user_id r)
                        (varchar P 50 d) de (decimal P a)
                        (prepareValue P (or_else (get_opt b "notes") VNull))
                        (IncomeRecord.created_at r) now).
      assert (PUT_income P true now s (Some b) incomeT
              = ({| code := 200;
                    payload := Row (head (g <$> filter
                      (λ r, Some (IncomeRecord.id r) = prepareValue P (get_opt b "id")
                            ∧ IncomeRecord.user_id r = u) incomeT)) |},
                 (λ r, if bool_decide
                            (Some (IncomeRecord.id r) = prepareValue P (get_opt b "id")
                             ∧ IncomeRecord.user_id r = u)
                       then g r else r) <$> incomeT)) as ->.
      { apply (H200 g); [|done]. intros r _. cbn. unfold income_updated.
        by rewrite Hd, Hde, Ha. }
      split; [done|]. cbn [snd].
      split; [|split]; by rewrite fmap_update_kept.
  - destruct (handle_put_spec ExpenseRecord.id ExpenseRecord.user_id true s
                (expense_fields (Some b)) (λ f, prepareValue P f.1.1.1.1.1)
                (expense_updated P now) expensesT "Expense not found"
                "Failed to update expense" u _ Hu Hne (expense_fields_readable b Hb))
      as [_ Hup].
    destruct (Hup eq_refl) as (H404 & H500 & H200). clear Hup.
    split; [exact H404|]. intros Hex. split.
    + intros Hnull. apply H500. eapply Exists_impl; [exact Hex|].
      intros r Hr. split; [exact Hr|]. cbn. unfold expense_updated.
      destruct Hnull as [-> | [-> | [-> | ->]]]; [done| | |].
      * by destruct (prepareValue P (get_opt b "date")).
      * by destruct (prepareValue P (get_opt b "date")),
             (prepareValue P (get_opt b "category")).
      * by destruct (prepareValue P (get_opt b "date")),
             (prepareValue P (get_opt b "category")),
             (prepareValue P (get_opt b "desc")).
    + intros d c de a Hd Hc Hde Ha.
      pose (g := λ r, ExpenseRecord.mk (ExpenseRecord.id r) (ExpenseRecord.user_id r)
                        (varchar P 50 d) (varchar P 255 c) de (decimal P a)
                        (prepareValue P (or_else (get_opt b "notes") VNull))
                        (ExpenseRecord.created_at r) now).
      assert (PUT_expenses P true now s (Some b) expensesT
              = ({| code := 200;
                    payload := Row (head (g <$> filter
                      (λ r, Some (ExpenseRecord.id r) = prepareValue P (get_opt b "id")
                            ∧ ExpenseRecord.user_id r = u) expensesT)) |},
                 (λ r, if bool_decide
                            (Some (ExpenseRecord.id r) = prepareValue P (get_opt b "id")
                             ∧ ExpenseRecord.user_id r = u)
                       then g r else r) <$> expensesT)) as ->.
      { apply (H200 g); [|done]. intros r _. cbn. unfold expense_updated.
        by rewrite Hd, Hc, Hde, Ha. }
      split; [done|]. cbn [snd].
      split; [|split]; by rewrite fmap_update_kept.
Qed.

Lemma PUT_spec_witness :
  PUT_income sample_postgres true 9 (User (Some "u1")) (Some sample_income_body)
    [sample_income_record "i1" "u1"; sample_income_record "i3" "u2"]
  = (failure "Income not found" 404,
     [sample_income_record "i1" "u1"; sample_income_record "i3" "u2"]).
Proof.
  refine (proj1 (proj1 (PUT_spec sample_postgres 9 (User (Some "u1"))
                          sample_income_body "u1" _ [] eq_refl _ _)) _);
    [done|done|by_evaluation].
Defined.

Lemma income_inserted_id P now now' u f r :
  income_inserted P now u f = Some r →
  ∃ r', income_inserted P now' u f = Some r' ∧ IncomeRecord.id r' = IncomeRecord.id r.
Proof.
  destruct f as [[[[id date] desc] amount] notes]. unfold income_inserted.
  destruct (prepareValue P id); [|done]. destruct (prepareValue P date); [|done].
  destruct (prepareValue P desc); [|done]. destruct (prepareValue P amount); [|done].
  intros [= <-]. by eexists.
Qed.

Lemma expense_inserted_id P now now' u f r :
  expense_inserted P now u f = Some r →
  ∃ r', expense_inserted P now' u f = Some r' ∧
        ExpenseRecord.id r' = ExpenseRecord.id r.
Proof.
  destruct f as [[[[[id date] category] desc] amount] notes]. unfold expense_inserted.
  destruct (prepareValue P id); [|done]. destruct (prepareValue P date); [|done].
  destruct (prepareValue P category); [|done].
  destruct (prepareValue P desc); [|done]. destruct (prepareValue P amount); [|done].
  intros [= <-]. by eexists.
Qed.

(** X22: when a POST is answered with status 200, the answer carries the
    row stored, that row was appended to the table, no row had its id
    before, and its owner column holds the session's user id; a GET by the
    same session then returns the row, provided the owner column holds the
    user id as it is; and the same POST sent again, at any time, is
    answered with status 500 and leaves the table: an id is stored once. *)
Theorem POST_then_GET (P : Postgres) (up : bool) (now : Z) (s : session)
    (body : option value) (incomeT : list IncomeRecord.t)
    (expensesT : list ExpenseRecord.t) :
  (code (POST_income P up now s body incomeT).1 = 200%nat →
   ∃ u r, getUserId s = Some u ∧
     POST_income P up now s body incomeT
       = ({| code := 200; payload := Row (Some r) |}, incomeT ++ [r]) ∧
     (IncomeRecord.id r ∉ IncomeRecord.id <$> incomeT) ∧
     IncomeRecord.user_id r = varchar P 255 u ∧
     (varchar P 255 u = u →
        ∃ rows, GET_income P true s (incomeT ++ [r])
                = {| code := 200; payload := Rows rows |} ∧
                r ∈ rows) ∧
     (∀ up' now', POST_income P up' now' s body (incomeT ++ [r])
                  = (failure "Failed to create income" 500, incomeT ++ [r]))) ∧
  (code (POST_expenses P up now s body expensesT).1 = 200%nat →
   ∃ u r, getUserId s = Some u ∧
     POST_expenses P up now s body expensesT
       = ({| code := 200; payload := Row (Some r) |}, expensesT ++ [r]) ∧
     (ExpenseRecord.id r ∉ ExpenseRecord.id <$> expensesT) ∧
     ExpenseRecord.user_id r = varchar P 255 u ∧
     (varchar P 255 u = u →
        ∃ rows, GET_expenses P true s (expensesT ++ [r])
                = {| code := 200; payload := Rows rows |} ∧
                r ∈ rows) ∧
     (∀ up' now', POST_expenses P up' now' s body (expensesT ++ [r])
                  = (failure "Failed to create expense" 500, expensesT ++ [r]))).
Proof.
  split.
  - intros Hok. apply handle_post_200 in Hok
      as (u & f & r & Hu & Hne & Hf & -> & Hr & Hin & Hout).
    exists u, r. split; [done|]. split; [done|]. split; [done|].
    split; [by apply income_inserted_owner in Hr|]. split.
    + intros Hfit. unfold GET_income, handle_get, select_where.
      rewrite Hu, (bool_decide_eq_false_2 _ Hne). eexists. split; [done|].
      rewrite merge_sort_Permutation. apply list_elem_of_filter. split.
      * apply income_inserted_owner in Hr. by rewrite Hr.
      * apply elem_of_app. right. apply list_elem_of_here.
    + intros up' now'.
      destruct (income_inserted_id P now now' u f r Hr) as (r' & Hr' & Hid).
      apply (handle_post_spec IncomeRecord.id up' s _
               (income_inserted P now') _ _ u f Hu Hne Hf).
      right. right. exists r'. split; [done|]. rewrite Hid, fmap_app.
      apply elem_of_app. right. apply list_elem_of_here.
  - intros Hok. apply handle_post_200 in Hok
      as (u & f & r & Hu & Hne & Hf & -> & Hr & Hin & Hout).
    exists u, r. split; [done|]. split; [done|]. split; [done|].
    split; [by apply expense_inserted_owner in Hr|]. split.
    + intros Hfit. unfold GET_expenses, handle_get, select_where.
      rewrite Hu, (bool_decide_eq_false_2 _ Hne). eexists. split; [done|].
      rewrite merge_sort_Permutation. apply list_elem_of_filter. split.
      * apply expense_inserted_owner in Hr. by rewrite Hr.
      * apply elem_of_app. right. apply list_elem_of_here.
    + intros up' now'.
      destruct (expense_inserted_id P now now' u f r Hr) as (r' & Hr' & Hid).
      apply (handle_post_spec ExpenseRecord.id up' s _
               (expense_inserted P now') _ _ u f Hu Hne Hf).
      right. right. exists r'. split; [done|]. rewrite Hid, fmap_app.
      apply elem_of_app. right. apply list_elem_of_here.
Qed.

Lemma POST_then_GET_witness :
  ∃ u r, getUserId (User (Some "u1")) = Some u ∧
    POST_income sample_postgres true 5 (User (Some "u1")) (Some sample_income_body)
      [sample_income_record "i1" "u1"]
    = ({| code := 200; payload := Row (Some r) |},
       [sample_income_record "i1" "u1"] ++ [r]).
Proof.
  destruct (proj1 (POST_then_GET sample_postgres true 5 (User (Some "u1"))
                     (Some sample_income_body) [sample_income_record "i1" "u1"] [])
              eq_refl) as (u & r & Hu & Hout & _).
  by exists u, r.
Defined.

(** Two users' rows: what each sees, a row added, changed, and refused. *)
Example routes_sample :
  let t := [sample_income_record "i1" "u1"; sample_income_record "i2" "u2"] in
  let u1 := User (Some "u1") in
  payload (GET_income sample_postgres true u1 t) = Rows [sample_income_record "i1" "u1"] ∧
  IncomeRecord.id <$> (POST_income sample_postgres true 5 u1 (Some sample_income_body) t).2
    = ["i1"; "i2"; "i3"] ∧
  code (POST_income sample_postgres true 5 u1
          (Some (VObj [("id", VStr "i2"); ("date", VStr "2024-02-01");
                       ("desc", VStr "Bonus"); ("amount", VNum (of_Z 1))])) t).1
    = 500%nat ∧
  code (POST_income sample_postgres true 5 u1
          (Some (VObj [("id", VStr "i4"); ("desc", VStr "Bonus");
                       ("amount", VNum (of_Z 1))])) t).1
    = 500%nat ∧
  code (PUT_income sample_postgres true 5 u1
          (Some (VObj [("id", VStr "i2"); ("date", VStr "2024-02-01");
                       ("desc", VStr "Bonus"); ("amount", VNum (of_Z 1))])) t).1
    = 404%nat ∧
  IncomeRecord.description <$>
    (PUT_income sample_postgres true 5 u1
       (Some (VObj [("id", VStr "i1"); ("date", VStr "2024-02-01");
                    ("desc", VStr "Bonus"); ("amount", VNum (of_Z 1))])) t).2
    = ["Bonus"; "Income"].
Proof. cbv zeta. split; [|split; [|split; [|split; [|split]]]]; by vm_compute. Qed.

(** ** Deleting twice *)

Lemma filter_twice_none {A} (P : A → Prop) `{∀ x, Decision (P x)} (l : list A) :
  Forall (λ x, ¬ P x) (filter (λ x, ¬ P x) l).
Proof. apply Forall_forall. by intros x [? _]%list_elem_of_filter. Qed.

Lemma handle_delete_twice {R} (row_id row_user : R → string) (s : session)
    (id : option string) (table : list R) (notFound failedMsg : string) :
  let first :=
    handle_delete s id
      (λ id userId, Some (delete_returning row_id row_user id userId table))
      table notFound failedMsg in
  status first.1 = 200%nat →
  handle_delete s id
    (λ id userId, Some (delete_returning row_id row_user id userId first.2))
    first.2 notFound failedMsg
  = (error_response notFound 404, first.2).
Proof.
  cbv zeta. unfold handle_delete.
  destruct (getUserId s) as [u|] eqn:Hu; [|done].
  case_bool_decide as Hne; [done|]. destruct id as [i|]; [|done].
  case_bool_decide as Hi; [done|]. unfold delete_returning.
  case_bool_decide as Hlen; [done|]. intros _. cbn [snd].
  destruct (filter_none _ _ (filter_twice_none
    (λ r, row_id r = i ∧ row_user r = u) table)) as [-> ->].
  done.
Qed.

(** X23: when a DELETE of the income route or of the expenses route was
    answered with success, the same request sent again is answered with
    status 404, and the records stay as the first request left them. *)
Theorem DELETE_twice (s : session) (id : option string) (db : Database) :
  (status (DELETE_income true s id db).1 = 200%nat →
   DELETE_income true s id (DELETE_income true s id db).2
   = (error_response "Income not found" 404, (DELETE_income true s id db).2)) ∧
  (status (DELETE_expenses true s id db).1 = 200%nat →
   DELETE_expenses true s id (DELETE_expenses true s id db).2
   = (error_response "Expense not found" 404, (DELETE_expenses true s id db).2)).
Proof.
  split.
  - pose proof (handle_delete_twice income_id income_user_id s id (income_table db)
                  "Income not found" "Failed to delete income") as Htwice.
    cbv zeta in Htwice. unfold DELETE_income.
    destruct (handle_delete s id _ (income_table db) _ _) as [response t] eqn:E.
    cbn [fst snd income_table expenses_table] in *. intros Hok.
    by rewrite (Htwice Hok).
  - pose proof (handle_delete_twice expense_id expense_user_id s id (expenses_table db)
                  "Expense not found" "Failed to delete expense") as Htwice.
    cbv zeta in Htwice. unfold DELETE_expenses.
    destruct (handle_delete s id _ (expenses_table db) _ _) as [response t] eqn:E.
    cbn [fst snd income_table expenses_table] in *. intros Hok.
    by rewrite (Htwice Hok).
Qed.

(** ** The connection pool *)

Lemma queries_once {A} (run : nat → string → list value → option A) calls p n :
  queries run calls {| pool := Some p; constructed := n |}
  = ((λ c, run p c.1 c.2) <$> calls, {| pool := Some p; constructed := n |}).
Proof.
  induction calls as [|[text params] rest IH]; [done|].
  cbn [queries query getPool pool]. by rewrite IH.
Qed.

(** X24: from the module as loaded, whatever statements [query] is called
    with, every one of them is run on the same pool, the first one
    constructed: at most one pool is ever constructed, exactly one once
    [query] has been called, and [getPool] afterwards returns that pool and
    leaves the module as it is. *)
Theorem getPool_once {A} (run : nat → string → list value → option A)
    (calls : list (string * list value)) :
  let out := queries run calls no_pool in
  out.1 = (λ c, run 0%nat c.1 c.2) <$> calls ∧
  (constructed out.2 ≤ 1)%nat ∧
  (calls ≠ [] → out.2 = {| pool := Some 0%nat; constructed := 1 |}) ∧
  (getPool out.2).1 = 0%nat ∧
  (getPool (getPool out.2).2).2 = (getPool out.2).2.
Proof.
  cbv zeta. destruct calls as [|[text params] rest].
  - cbn. repeat split; first [done | lia].
  - cbn [queries query getPool no_pool pool constructed].
    rewrite queries_once. cbn. repeat split; first [done | lia].
Qed.

